(** * waterfall-webgl2: particles, obstacle map and fluid compositor

    A shallow embedding of the simulation core of the repository: the
    transform-feedback update shader of [Particles], the rasterisation
    shaders of [ObstacleMap] and the blur / threshold shaders of [Fluidify],
    together with the JavaScript classes that drive them, the draw shader
    of the particles, the mouse and slider callbacks of [Controls], the
    main loop and the uniform binding of [Shader].

    Numbers are modelled by the real numbers of the Standard Library: every
    GLSL [float] and every JavaScript [number] is an [R], and arithmetic is
    exact.  The two places where IEEE arithmetic and real arithmetic differ
    in kind rather than in rounding (a division by a zero length, and the
    8-bit storage of the obstacle textures) are written out explicitly.

    Two behaviours of the graphics library are part of the model.  The
    upload of a texture reads its rows at the default [UNPACK_ALIGNMENT] of
    4 bytes, so the tightly packed array of [initTexture] is refused for an
    odd width with more than one row, and the texture is left without an
    image.  The rasteriser that turns the brush quad into fragments is a
    parameter of the obstacle map: the statements that hold for every
    rasteriser are proved for every one, and the ideal one and one that
    snaps the corners of the quad to a sub-pixel grid are given. *)

From Stdlib Require Import Reals Lra Lia List ZArith Bool.
From Stdlib Require String.
Import ListNotations.
Local Open Scope R_scope.

(* ================================================================== *)
(** ** GLSL values and built-in functions *)
(* ================================================================== *)

Module GLSL.

Record vec2 : Set := Vec2 { vx : R; vy : R }.
Record vec3 : Set := Vec3 { x3 : R; y3 : R; z3 : R }.
Record vec4 : Set := Vec4 { cr : R; cg : R; cb : R; ca : R }.

Definition vadd (a b : vec2) : vec2 := Vec2 (vx a + vx b) (vy a + vy b).
Definition vsub (a b : vec2) : vec2 := Vec2 (vx a - vx b) (vy a - vy b).
Definition vscale (k : R) (a : vec2) : vec2 := Vec2 (k * vx a) (k * vy a).
(** Component-wise product and quotient of two vectors, [a * b] and [a / b]. *)
Definition vmul (a b : vec2) : vec2 := Vec2 (vx a * vx b) (vy a * vy b).
Definition vdiv (a b : vec2) : vec2 := Vec2 (vx a / vx b) (vy a / vy b).
(** [a + s] and [a - s] for a scalar [s]. *)
Definition vadds (a : vec2) (s : R) : vec2 := Vec2 (vx a + s) (vy a + s).

Definition dot (a b : vec2) : R := vx a * vx b + vy a * vy b.
Definition length (a : vec2) : R := sqrt (dot a a).
(** [normalize] is only defined by GLSL for a non-zero vector; every use in
    the update shader is guarded by a test that excludes the zero vector. *)
Definition normalize (a : vec2) : vec2 := vscale (/ length a) a.
(** [reflect(I, N) = I - 2 * dot(N, I) * N]. *)
Definition reflect (i n : vec2) : vec2 := vsub i (vscale (2 * dot n i) n).

(** [fract(x) = x - floor(x)]. *)
Definition fract (x : R) : R := frac_part x.

(** [step(edge, x)] is [0.0] when [x < edge] and [1.0] otherwise. *)
Definition step (edge x : R) : R := if Rlt_dec x edge then 0 else 1.

Definition clamp (x lo hi : R) : R := Rmin (Rmax x lo) hi.

(** [smoothstep(e0, e1, x)]: Hermite interpolation of the clamped ratio. *)
Definition smoothstep (e0 e1 x : R) : R :=
  let t := clamp ((x - e0) / (e1 - e0)) 0 1 in t * t * (3 - 2 * t).

(** [pow(x, y)] for [0 <= x] and [0 < y]: zero at zero, [exp (y * ln x)]
    elsewhere. *)
Definition pow (x y : R) : R := if Req_dec_T x 0 then 0 else Rpower x y.

(** [min(1.0, a / b)] for a numerator [0 <= a].  When [b] is zero the IEEE
    quotient is [+inf] (or NaN for [0 / 0]); GLSL's [min(x, y)] is
    [y < x ? y : x], which is [1.0] in both cases. *)
Definition min1_div (a b : R) : R :=
  if Req_dec_T b 0 then 1 else Rmin 1 (a / b).

(** A bound sampler: texture coordinates to the RGBA value read there. *)
Definition sampler2D : Type := vec2 -> vec4.
Definition texture (s : sampler2D) (uv : vec2) : vec4 := s uv.
Definition rg (t : vec4) : vec2 := Vec2 (cr t) (cg t).

Definition v4add (a b : vec4) : vec4 :=
  Vec4 (cr a + cr b) (cg a + cg b) (cb a + cb b) (ca a + ca b).
Definition v4scale (k : R) (a : vec4) : vec4 :=
  Vec4 (k * cr a) (k * cg a) (k * cb a) (k * ca a).
Definition v4zero : vec4 := Vec4 0 0 0 0.

(** [mix(x, y, a) = x * (1 - a) + y * a], on each channel. *)
Definition v4mix (x y : vec4) (a : R) : vec4 :=
  Vec4 (cr x * (1 - a) + cr y * a) (cg x * (1 - a) + cg y * a)
       (cb x * (1 - a) + cb y * a) (ca x * (1 - a) + ca y * a).

Definition cross (a b : vec3) : vec3 :=
  Vec3 (y3 a * z3 b - z3 a * y3 b)
       (z3 a * x3 b - x3 a * z3 b)
       (x3 a * y3 b - y3 a * x3 b).
Definition dot3 (a b : vec3) : R := x3 a * x3 b + y3 a * y3 b + z3 a * z3 b.
Definition length3 (a : vec3) : R := sqrt (dot3 a a).
Definition normalize3 (a : vec3) : vec3 :=
  Vec3 (x3 a / length3 a) (y3 a / length3 a) (z3 a / length3 a).

End GLSL.
Import GLSL.

(* ================================================================== *)
(** ** JavaScript helpers *)
(* ================================================================== *)

Module JS.

(** [x.toFixed(1)] read back as a number: the integer [n] for which
    [n / 10] is nearest to [|x|], the larger one on a tie, with the sign of
    [x] in front. *)
Definition toFixed1 (x : R) : R :=
  if Rlt_dec x 0
  then - (IZR (Int_part (10 * - x + / 2)) / 10)
  else IZR (Int_part (10 * x + / 2)) / 10.

End JS.

(* ================================================================== *)
(** ** ParticlesShaders: the update shader *)
(* ================================================================== *)

Module ParticlesShaders.

(** The constants pasted into the shader source by [setWorldSize]. *)
Record constants : Set := Constants {
  MAX_SPEED : R;
  WORLD_SIZE : vec2;
  POS_BANDWIDTH : R
}.

(** [setWorldSize(worldSize, posBandwidth, maxSpeed)]: the width and height
    are printed as they are, the two other numbers with [toFixed(1)]. *)
Definition setWorldSize (width height : nat) (posBandwidth maxSpeed : R)
  : constants :=
  {| MAX_SPEED := JS.toFixed1 maxSpeed;
     WORLD_SIZE := Vec2 (INR width) (INR height);
     POS_BANDWIDTH := JS.toFixed1 posBandwidth |}.

Definition decodeObstacle (texel : vec4) : vec2 :=
  vadds (vscale 2 (rg texel)) (- 1).

Definition random (co : vec2) : R :=
  fract (sin (dot co (Vec2 12.9898 78.233)) * 43758.5453).

Section UpdateShader.

Variable K : constants.
Variable uObstaclesBuffer : sampler2D.
Variable uDt : R.
Variable uAcceleration : vec2.

(** [pos.y < -0.5 * WORLD_SIZE.y]: the particle left through the bottom. *)
Definition below (pos : vec2) : bool :=
  if Rlt_dec (vy pos) (- 0.5 * vy (WORLD_SIZE K)) then true else false.

(** The obstacle normal read at a world position. *)
Definition obstacleAt (p : vec2) : vec2 :=
  decodeObstacle
    (texture uObstaclesBuffer (vadds (vdiv p (WORLD_SIZE K)) 0.5)).

(** The obstacle test, [dot(n, n) > 0.1]. *)
Definition isObstacle (n : vec2) : bool :=
  if Rlt_dec 0.1 (dot n n) then true else false.

(** Lines 238-242: acceleration, then a fresh velocity for a particle that
    fell out of the world. *)
Definition accelerate (pos vel : vec2) : vec2 :=
  let nextVel := vadd vel (vscale uDt uAcceleration) in
  if below pos
  then Vec2 (0.1 * MAX_SPEED K * (2 * random (vscale 100 pos) - 1))
            (random (vadd pos vel))
  else nextVel.

(** Lines 247-248: reflection about the unit normal, then the rescaling. *)
Definition bounced (nextVel obstacleNormal : vec2) : vec2 :=
  let r := reflect nextVel (normalize obstacleNormal) in
  vscale (min1_div (0.1 * MAX_SPEED K) (length r)) r.

(** Lines 244-250. *)
Definition collide (pos nextVel : vec2) : vec2 :=
  let obstacleNormal := obstacleAt pos in
  if isObstacle obstacleNormal
  then if Rlt_dec (dot nextVel obstacleNormal) 0
       then bounced nextVel obstacleNormal
       else nextVel
  else nextVel.

(** Line 252. *)
Definition clampSpeed (nextVel : vec2) : vec2 :=
  vscale (min1_div (MAX_SPEED K) (length nextVel)) nextVel.

Definition nextVelocity (pos vel : vec2) : vec2 :=
  clampSpeed (collide pos (accelerate pos vel)).

(** Line 254. *)
Definition integrate (pos nextVel : vec2) : vec2 :=
  vadd pos (vscale uDt nextVel).

(** Lines 257-258: the normal read at the tentative position is added,
    whatever its length. *)
Definition nudge (nextPos : vec2) : vec2 :=
  vadd nextPos (vscale uDt (obstacleAt nextPos)).

(** Lines 260-263. *)
Definition reinject (pos vel nextPos : vec2) : vec2 :=
  if below pos
  then Vec2 ((random (vadd pos vel) - 0.5) * vx (WORLD_SIZE K))
            (vy nextPos + (vy (WORLD_SIZE K)
               + 0.5 * random pos * (POS_BANDWIDTH K - vy (WORLD_SIZE K))))
  else nextPos.

(** Lines 264-267: one wrap, to the left or to the right. *)
Definition wrapX (x : R) : R :=
  if Rlt_dec x (- 0.5 * POS_BANDWIDTH K) then x + POS_BANDWIDTH K
  else if Rlt_dec (0.5 * POS_BANDWIDTH K) x then x - POS_BANDWIDTH K
  else x.

Definition wrap (nextPos : vec2) : vec2 :=
  Vec2 (wrapX (vx nextPos)) (vy nextPos).

Definition nextPosition (pos vel : vec2) : vec2 :=
  wrap (reinject pos vel (nudge (integrate pos (nextVelocity pos vel)))).

(** [main]: the pair [(aNextPos, aNextVel)] captured by transform feedback. *)
Definition main (aPos aVel : vec2) : vec2 * vec2 :=
  (nextPosition aPos aVel, nextVelocity aPos aVel).

End UpdateShader.

End ParticlesShaders.

(* ================================================================== *)
(** ** RG8 textures: upload, sampling and render-target writes *)
(* ================================================================== *)

Module Texture.

(** A two-channel texture of 8-bit texels, as [texImage2D(..., gl.RG8, ...)]
    allocates it: texel [(i, j)] is in column [i] of row [j]. *)
Record texture2D : Set := Texture2D {
  width : nat;
  height : nat;
  texel : nat -> nat -> Z * Z
}.

(** [new Uint8Array(values)]: each value is stored modulo 256. *)
Definition Uint8Array (values : list Z) : list Z :=
  map (fun v => (v mod 256)%Z) values.

(** The pixel store parameter [UNPACK_ALIGNMENT], which the program never
    sets: each row of an upload starts at a multiple of 4 bytes. *)
Definition UNPACK_ALIGNMENT : nat := 4.

(** The number of bytes from one row of [w] two-byte texels to the next. *)
Definition rowStride (w : nat) : nat :=
  ((2 * w + (UNPACK_ALIGNMENT - 1)) / UNPACK_ALIGNMENT * UNPACK_ALIGNMENT)%nat.

(** The number of bytes an upload of [w * h] texels reads: full rows but
    for the last one, which ends with its last texel. *)
Definition bytesNeeded (w h : nat) : nat :=
  match w, h with
  | O, _ => O
  | _, O => O
  | _, S h' => (rowStride w * h' + 2 * w)%nat
  end.

(** [texImage2D] with format [gl.RG] and type [gl.UNSIGNED_BYTE].  When the
    array holds fewer bytes than the upload reads, the call is rejected
    ([INVALID_OPERATION]) and defines no image: [None]. *)
Definition texImage2D (w h : nat) (pixels : list Z) : option texture2D :=
  if (bytesNeeded w h <=? List.length pixels)%nat
  then Some {| width := w;
               height := h;
               texel := fun i j =>
                 (nth (j * rowStride w + 2 * i) pixels 0%Z,
                  nth (j * rowStride w + 2 * i + 1) pixels 0%Z) |}
  else None.

(** A texture object for which no image was defined: its size is zero. *)
Definition noImage : texture2D :=
  {| width := 0; height := 0; texel := fun _ _ => (0%Z, 0%Z) |}.

(** A texture can be sampled, and drawn into as a colour attachment, when
    its image is not empty. *)
Definition complete (t : texture2D) : bool :=
  (0 <? width t)%nat && (0 <? height t)%nat.

(** An unsigned normalised byte read as a float. *)
Definition unorm (b : Z) : R := IZR b / 255.

(** A float written to an unsigned normalised 8-bit channel: clamped to
    [[0, 1]], scaled and rounded to the nearest integer. *)
Definition toUnorm8 (c : R) : Z := Int_part (clamp c 0 1 * 255 + / 2).

(** [TEXTURE_WRAP_S/T = CLAMP_TO_EDGE]: a texel index is clamped to the
    texture. *)
Definition clampToEdge (i : Z) (size : nat) : nat :=
  Z.to_nat (Z.max 0 (Z.min i (Z.of_nat size - 1))).

Definition texelFetch (t : texture2D) (i j : Z) : vec2 :=
  let rgb := texel t (clampToEdge i (width t)) (clampToEdge j (height t)) in
  Vec2 (unorm (fst rgb)) (unorm (snd rgb)).

(** [mix(x, y, a) = x * (1 - a) + y * a]. *)
Definition mix (x y a : R) : R := x * (1 - a) + y * a.

(** [texture(sampler, uv)] with [TEXTURE_MIN/MAG_FILTER = LINEAR]: the four
    texels around [uv] weighted by the fractional parts of the texel
    coordinates.  A missing blue channel reads 0 and alpha reads 1.  A
    texture that is not complete reads [(0, 0, 0, 1)] everywhere. *)
Definition sample (t : texture2D) : sampler2D := fun uv =>
  if complete t then
    let u := vx uv * INR (width t) - 0.5 in
    let v := vy uv * INR (height t) - 0.5 in
    let i0 := Int_part u in
    let j0 := Int_part v in
    let a := frac_part u in
    let b := frac_part v in
    let t00 := texelFetch t i0 j0 in
    let t10 := texelFetch t (i0 + 1) j0 in
    let t01 := texelFetch t i0 (j0 + 1) in
    let t11 := texelFetch t (i0 + 1) (j0 + 1) in
    Vec4 (mix (mix (vx t00) (vx t10) a) (mix (vx t01) (vx t11) a) b)
         (mix (mix (vy t00) (vy t10) a) (mix (vy t01) (vy t11) a) b)
         0 1
  else Vec4 0 0 0 1.

(** Every texel of the texture holds bytes. *)
Definition bytes (t : texture2D) : Prop :=
  forall i j, (i < width t)%nat -> (j < height t)%nat ->
    (0 <= fst (texel t i j) <= 255)%Z /\ (0 <= snd (texel t i j) <= 255)%Z.

(** The centre of pixel [(i, j)] in the unit square of a [w * h] target. *)
Definition pixelCentre (w h i j : nat) : vec2 :=
  Vec2 ((INR i + 0.5) / INR w) ((INR j + 0.5) / INR h).

(** A four-channel texture of 8-bit texels, as
    [texImage2D(..., gl.RGBA, ..., gl.UNSIGNED_BYTE, ...)] allocates it. *)
Record rgba : Set := RGBA { red : Z; green : Z; blue : Z; alpha : Z }.

Record texture4 : Set := Texture4 {
  width4 : nat;
  height4 : nat;
  texel4 : nat -> nat -> rgba
}.

(** [texImage2D] with [null] for the pixels: the texels are zero. *)
Definition blank4 (w h : nat) : texture4 :=
  {| width4 := w; height4 := h; texel4 := fun _ _ => RGBA 0 0 0 0 |}.

Definition texelFetch4 (t : texture4) (i j : Z) : vec4 :=
  let c := texel4 t (clampToEdge i (width4 t)) (clampToEdge j (height4 t)) in
  Vec4 (unorm (red c)) (unorm (green c)) (unorm (blue c)) (unorm (alpha c)).

(** [texture(sampler, uv)] on a four-channel texture, with the same linear
    filter and edge clamp as [sample]. *)
Definition sample4 (t : texture4) : sampler2D := fun uv =>
  let u := vx uv * INR (width4 t) - 0.5 in
  let v := vy uv * INR (height4 t) - 0.5 in
  let i0 := Int_part u in
  let j0 := Int_part v in
  let a := frac_part u in
  let b := frac_part v in
  v4mix (v4mix (texelFetch4 t i0 j0) (texelFetch4 t (i0 + 1) j0) a)
        (v4mix (texelFetch4 t i0 (j0 + 1)) (texelFetch4 t (i0 + 1) (j0 + 1)) a)
        b.

(** A colour written to an RGBA8 colour attachment. *)
Definition store4 (c : vec4) : rgba :=
  RGBA (toUnorm8 (cr c)) (toUnorm8 (cg c)) (toUnorm8 (cb c)) (toUnorm8 (ca c)).

Definition byte (b : Z) : Prop := (0 <= b <= 255)%Z.

Definition bytes4 (t : texture4) : Prop :=
  forall i j, (i < width4 t)%nat -> (j < height4 t)%nat ->
    byte (red (texel4 t i j)) /\ byte (green (texel4 t i j)) /\
    byte (blue (texel4 t i j)) /\ byte (alpha (texel4 t i j)).

End Texture.

(* ================================================================== *)
(** ** ObstacleMapShaders and ObstacleMap *)
(* ================================================================== *)

Module ObstacleMapShaders.

(** What a fragment shader invocation leaves: [discard], or a colour. *)
Inductive fragment : Set :=
| Discard
| FragColor (c : vec4).

(** The encoding shared by both brush shaders,
    [vec4(0.5 * normal + 0.5, 0, 1)]. *)
Definition encodeNormal (normal : vec2) : vec4 :=
  Vec4 (0.5 * vx normal + 0.5) (0.5 * vy normal + 0.5) 0 1.

(** [addStaticVertStr]: the outputs for one corner of the quad, the varying
    [fromCenter] and the position [c] of the corner in the unit square
    ([gl_Position] is [2 * c - 1]). *)
Definition addStaticVert (uMousePos uBrushSize aCorner : vec2)
  : vec2 * vec2 :=
  (vadds (vscale 2 aCorner) (- 1),
   vadd uMousePos (vmul uBrushSize (vadds aCorner (- 0.5)))).

(** [addStaticFragStr]. *)
Definition addStaticFrag (fromCenter : vec2) : fragment :=
  if Rlt_dec 1 (dot fromCenter fromCenter)
  then Discard
  else FragColor (encodeNormal (normalize fromCenter)).

(** [addMobileFragStr]. *)
Definition addMobileFrag (uStaticTexture : sampler2D)
    (uMousePos uBrushSize sampleCoords : vec2) : fragment :=
  let fromCenter :=
    vdiv (vscale 2 (vsub sampleCoords uMousePos)) uBrushSize in
  if Rlt_dec (dot fromCenter fromCenter) 1
  then FragColor (encodeNormal (normalize fromCenter))
  else FragColor (texture uStaticTexture sampleCoords).

(** [drawFragStr]. *)
Definition drawFrag (uObstaclesBuffer : sampler2D) (uDisplayNormals : bool)
    (sampleCoords : vec2) : fragment :=
  let texel := texture uObstaclesBuffer sampleCoords in
  let normal := vadds (vscale 2 (rg texel)) (- 1) in
  if Rlt_dec (dot normal normal) 0.1 then Discard
  else if uDisplayNormals then FragColor (Vec4 (cr texel) (cg texel) 0 1)
  else FragColor (Vec4 0.6 0.6 0.6 1).

End ObstacleMapShaders.

Module ObstacleMap.
Import Texture ObstacleMapShaders.

(** The fields of the class that the drawing calls read or write. *)
Record t : Set := Make {
  _staticTexture : texture2D;
  _texture : texture2D;
  _FBO_width : nat;
  _FBO_height : nat;
  uBrushSize : vec2;
  uDisplayNormals : bool
}.

(** [initTexture(gl, width, height)]: [127, 127] pushed [width * height]
    times, then uploaded to a new texture.  The array holds
    [2 * width * height] bytes; when the upload is rejected the new texture
    is returned all the same, without an image. *)
Definition texelData (n : nat) : list Z :=
  Nat.iter n (fun data => data ++ [127%Z; 127%Z]) [].

Definition initTexture (w h : nat) : texture2D :=
  match texImage2D w h (Uint8Array (texelData (w * h))) with
  | Some image => image
  | None => noImage
  end.

(** [reset(gl)]: both textures are allocated afresh, with the size of the
    frame buffer object. *)
Definition reset (o : t) : t :=
  {| _staticTexture := initTexture (_FBO_width o) (_FBO_height o);
     _texture := initTexture (_FBO_width o) (_FBO_height o);
     _FBO_width := _FBO_width o;
     _FBO_height := _FBO_height o;
     uBrushSize := uBrushSize o;
     uDisplayNormals := uDisplayNormals o |}.

(** The value of [aCorner] interpolated at a point [q] of the unit square,
    for the quad whose corners [addStaticVert] places at
    [uMousePos + uBrushSize * (aCorner - 0.5)]. *)
Definition cornerAt (uMousePos uBrushSize q : vec2) : vec2 :=
  vadds (vdiv (vsub q uMousePos) uBrushSize) 0.5.

(** The offset of a point [q] of the unit square from the centre of the
    brush, in units of the half size of the brush: the brush disc is where
    its length is at most 1. *)
Definition brushOffset (uMousePos uBrushSize q : vec2) : vec2 :=
  vdiv (vscale 2 (vsub q uMousePos)) uBrushSize.

Definition strictlyInside (a : vec2) : bool :=
  if Rlt_dec 0 (vx a) then if Rlt_dec (vx a) 1 then
  if Rlt_dec 0 (vy a) then if Rlt_dec (vy a) 1 then true
  else false else false else false else false.

Definition strictlyOutside (a : vec2) : bool :=
  if Rlt_dec (vx a) 0 then true else if Rlt_dec 1 (vx a) then true else
  if Rlt_dec (vy a) 0 then true else if Rlt_dec 1 (vy a) then true else false.

(** [VBO.createQuad(gl, minX, minY, maxX, maxY)]: the four corners, drawn
    as a triangle strip. *)
Definition createQuad (minX minY maxX maxY : R) : list vec2 :=
  [Vec2 minX minY; Vec2 maxX minY; Vec2 minX maxY; Vec2 maxX maxY].

(** The vertices of the brush quad as [addStaticVert] leaves them: for each
    corner, the varying [fromCenter] and the position in the unit square. *)
Definition brushQuad (uMousePos uBrushSize : vec2) : list (vec2 * vec2) :=
  map (addStaticVert uMousePos uBrushSize) (createQuad 0 0 1 1).

(** The rasteriser of the rendering context.  For the vertices of a quad
    (varying and position in the unit square), a viewport of [w * h]
    pixels and a pixel [(i, j)]: [None] when the pixel gets no fragment,
    the interpolated varying of its fragment otherwise.  How positions are
    snapped to the sub-pixel grid and how varyings are interpolated is the
    implementation's; the program has no say in it. *)
Definition rasterizer : Type :=
  list (vec2 * vec2) -> nat -> nat -> nat -> nat -> option vec2.

(** Whether the point of corner coordinates [a] gets a fragment, with
    [onEdge] the fill rule for a point exactly on the boundary of the
    quad. *)
Definition covers (onEdge : vec2 -> bool) (a : vec2) : bool :=
  if strictlyInside a then true
  else if strictlyOutside a then false
  else onEdge a.


(** The rasteriser without rounding, for the axis-aligned quads of the
    program (the first vertex is the corner [(minX, minY)], the last one
    the corner [(maxX, maxY)]): a fragment for each pixel whose centre is
    in the rectangle, with the varying interpolated linearly at the
    centre. *)
Definition exact (onEdge : vec2 -> bool) : rasterizer :=
  fun vertices w h i j =>
    match vertices with
    | [(f00, c00); _; _; (f11, c11)] =>
        let size := vsub c11 c00 in
        if Req_dec_T (vx size) 0 then None
        else if Req_dec_T (vy size) 0 then None
        else
          let a := vdiv (vsub (pixelCentre w h i j) c00) size in
          if covers onEdge a
          then Some (vadd f00 (vmul a (vsub f11 f00)))
          else None
    | _ => None
    end.

(** A window coordinate snapped to the nearest multiple of
    [1 / subpixels] of a pixel. *)
Definition snap (subpixels x : R) : R :=
  IZR (Int_part (x * subpixels + / 2)) / subpixels.

(** A rasteriser that snaps the corners of the quad to a grid of
    [subpixels] positions per pixel (OpenGL ES asks for at least 16) and
    interpolates the varying linearly between the snapped corners. *)
Definition snapped (subpixels : R) : rasterizer :=
  fun vertices w h i j =>
    match vertices with
    | [(f00, c00); _; _; (f11, c11)] =>
        let x0 := snap subpixels (vx c00 * INR w) in
        let y0 := snap subpixels (vy c00 * INR h) in
        let x1 := snap subpixels (vx c11 * INR w) in
        let y1 := snap subpixels (vy c11 * INR h) in
        let px := INR i + 0.5 in
        let py := INR j + 0.5 in
        if Rle_dec x0 px then if Rlt_dec px x1 then
        if Rle_dec y0 py then if Rlt_dec py y1 then
          Some (Vec2 (vx f00 + (px - x0) / (x1 - x0) * (vx f11 - vx f00))
                     (vy f00 + (py - y0) / (y1 - y0) * (vy f11 - vy f00)))
        else None else None else None else None
    | _ => None
    end.

Section Rasterizer.

Variable rasterize : rasterizer.

(** A colour written to the RG8 colour attachment (blending is disabled):
    the red and green channels are stored, the others dropped. *)
Definition store (c : vec4) : Z * Z := (toUnorm8 (cr c), toUnorm8 (cg c)).

(** The draw call of [addStaticObstacle], with [_staticTexture] bound as the
    colour attachment: the brush quad is rasterised and each fragment runs
    [addStaticFrag] on the [fromCenter] the rasteriser interpolated for it.
    A frame buffer whose colour attachment has no image is not complete,
    and a draw call on it writes nothing. *)
Definition drawStatic (target : texture2D) (uMousePos brush : vec2)
  : texture2D :=
  if complete target then
    {| width := width target;
       height := height target;
       texel := fun i j =>
         match rasterize (brushQuad uMousePos brush)
                 (width target) (height target) i j with
         | Some fromCenter =>
             match addStaticFrag fromCenter with
             | Discard => texel target i j
             | FragColor c => store c
             end
         | None => texel target i j
         end |}
  else target.

(** The draw call of [setMobileObstacle], with [_texture] bound as the
    colour attachment: a quad over the whole target, [sampleCoords] being
    the pixel centre. *)
Definition drawMobile (target static : texture2D) (uMousePos brush : vec2)
  : texture2D :=
  if complete target then
    {| width := width target;
       height := height target;
       texel := fun i j =>
         let q := pixelCentre (width target) (height target) i j in
         match addMobileFrag (sample static) uMousePos brush q with
         | Discard => texel target i j
         | FragColor c => store c
         end |}
  else target.

Definition setMobileObstacle (o : t) (mousePosX mousePosY : R) : t :=
  {| _staticTexture := _staticTexture o;
     _texture := drawMobile (_texture o) (_staticTexture o)
                   (Vec2 mousePosX mousePosY) (uBrushSize o);
     _FBO_width := _FBO_width o;
     _FBO_height := _FBO_height o;
     uBrushSize := uBrushSize o;
     uDisplayNormals := uDisplayNormals o |}.

Definition addStaticObstacle (o : t) (mousePosX mousePosY : R) : t :=
  setMobileObstacle
    {| _staticTexture := drawStatic (_staticTexture o)
                           (Vec2 mousePosX mousePosY) (uBrushSize o);
       _texture := _texture o;
       _FBO_width := _FBO_width o;
       _FBO_height := _FBO_height o;
       uBrushSize := uBrushSize o;
       uDisplayNormals := uDisplayNormals o |}
    mousePosX mousePosY.

(** [new ObstacleMap(gl)] on a drawing buffer of [w * h] pixels: two fresh
    textures, then three static discs of 100, 50 and 30 pixels across. *)
Definition constructor (w h : nat) : t :=
  let o0 :=
    {| _staticTexture := initTexture w h;
       _texture := initTexture w h;
       _FBO_width := w;
       _FBO_height := h;
       uBrushSize := Vec2 (100 / INR w) (100 / INR h);
       uDisplayNormals := false |} in
  let o1 := addStaticObstacle o0 0.5 0.8 in
  let o2 :=
    addStaticObstacle
      {| _staticTexture := _staticTexture o1;
         _texture := _texture o1;
         _FBO_width := w;
         _FBO_height := h;
         uBrushSize := Vec2 (50 / INR w) (50 / INR h);
         uDisplayNormals := false |} 0.63 0.6 in
  addStaticObstacle
    {| _staticTexture := _staticTexture o2;
       _texture := _texture o2;
       _FBO_width := w;
       _FBO_height := h;
       uBrushSize := Vec2 (30 / INR w) (30 / INR h);
       uDisplayNormals := false |} 0.2 0.5.

End Rasterizer.

(** The getter [texture], bound as a sampler by [Particles.update]. *)
Definition texture (o : t) : sampler2D := sample (_texture o).

(** What the constructor establishes and the methods keep: both textures
    have the size of the frame buffer object, which is not empty, and
    their texels are pairs of bytes. *)
Record wellFormed (o : t) : Prop := WellFormed {
  wf_width : (0 < _FBO_width o)%nat;
  wf_height : (0 < _FBO_height o)%nat;
  wf_static_size : width (_staticTexture o) = _FBO_width o /\
                   height (_staticTexture o) = _FBO_height o;
  wf_texture_size : width (_texture o) = _FBO_width o /\
                    height (_texture o) = _FBO_height o;
  wf_static_bytes : bytes (_staticTexture o);
  wf_texture_bytes : bytes (_texture o)
}.

(** The setter [brushSize]. *)
Definition setBrushSize (o : t) (value : vec2) : t :=
  {| _staticTexture := _staticTexture o;
     _texture := _texture o;
     _FBO_width := _FBO_width o;
     _FBO_height := _FBO_height o;
     uBrushSize := value;
     uDisplayNormals := uDisplayNormals o |}.

(** The setter [displayNormals]. *)
Definition setDisplayNormals (o : t) (value : bool) : t :=
  {| _staticTexture := _staticTexture o;
     _texture := _texture o;
     _FBO_width := _FBO_width o;
     _FBO_height := _FBO_height o;
     uBrushSize := uBrushSize o;
     uDisplayNormals := value |}.

End ObstacleMap.

(* ================================================================== *)
(** ** Particles *)
(* ================================================================== *)

Module Particles.
Import ParticlesShaders.

(** [Math.random()]: the successive draws of the generator, each in
    [[0, 1)].  Drawing returns the head and leaves the tail. *)
Definition rng : Type := nat -> R.
Definition unit_range (g : rng) : Prop := forall n, 0 <= g n < 1.
Definition draw (g : rng) : R * rng := (g O, fun n => g (S n)).

(** A vertex buffer read as two-component float attributes. *)
Definition buffer : Set := list vec2.

Record t : Set := Make {
  _worldWidth : nat;
  _worldHeight : nat;
  _posBandwidth : R;
  _maxSpeed : R;
  _updateShader : constants;
  _nbParts : nat;
  _posVBO : buffer * buffer;
  _velVBO : buffer * buffer;
  _currIndex : nat;
  acceleration : vec2;
  speed : R
}.

(** [array[index]] for an array of two elements. *)
Definition at2 {A : Type} (pair : A * A) (index : nat) : A :=
  match index with O => fst pair | _ => snd pair end.

Definition set2 {A : Type} (pair : A * A) (index : nat) (a : A) : A * A :=
  match index with O => (a, snd pair) | _ => (fst pair, a) end.

Definition nbParticles (p : t) : nat := _nbParts p.
Definition currIndex (p : t) : nat := _currIndex p.
Definition nextIndex (p : t) : nat := ((_currIndex p + 1) mod 2)%nat.

(** The loop of [reset]: four draws for each particle, two coordinates of
    the position and two of the velocity, appended in this order. *)
Fixpoint randomParticles (n : nat) (w h maxSpeed : R) (g : rng)
  : buffer * buffer * rng :=
  match n with
  | O => ([], [], g)
  | S n' =>
      let (r1, g1) := draw g in
      let (r2, g2) := draw g1 in
      let (r3, g3) := draw g2 in
      let (r4, g4) := draw g3 in
      let '(pos, vel, g') := randomParticles n' w h maxSpeed g4 in
      (Vec2 ((r1 - 0.5) * w) ((r2 - 0.5) * h) :: pos,
       Vec2 (2 * (r3 - 0.5) * maxSpeed) (2 * (r4 - 0.5) * maxSpeed) :: vel,
       g')
  end.

(** [reset(gl, nb)]: fresh buffers for both generations, filled with the
    same positions and velocities.  No other field is assigned. *)
Definition reset (p : t) (nb : nat) (g : rng) : t * rng :=
  let '(pos, vel, g') :=
    randomParticles nb (INR (_worldWidth p)) (INR (_worldHeight p))
      (_maxSpeed p) g in
  ({| _worldWidth := _worldWidth p;
      _worldHeight := _worldHeight p;
      _posBandwidth := _posBandwidth p;
      _maxSpeed := _maxSpeed p;
      _updateShader := _updateShader p;
      _nbParts := nb;
      _posVBO := (pos, pos);
      _velVBO := (vel, vel);
      _currIndex := _currIndex p;
      acceleration := acceleration p;
      speed := speed p |}, g').

(** [new Particles(gl, nb)] on a drawing buffer of [width * height] pixels.
    [reset] runs before [_currIndex], the acceleration and the speed are
    assigned; it reads none of them. *)
Definition constructor (width height nb : nat) (g : rng) : t * rng :=
  let posBandwidth := 1.2 * INR (Nat.max width height) in
  let maxSpeed := 0.5 * INR (Nat.min width height) in
  let (p, g') :=
    reset {| _worldWidth := width;
             _worldHeight := height;
             _posBandwidth := posBandwidth;
             _maxSpeed := maxSpeed;
             _updateShader :=
               setWorldSize width height posBandwidth maxSpeed;
             _nbParts := O;
             _posVBO := ([], []);
             _velVBO := ([], []);
             _currIndex := O;
             acceleration := Vec2 0 0;
             speed := 0 |} nb g in
  ({| _worldWidth := _worldWidth p;
      _worldHeight := _worldHeight p;
      _posBandwidth := _posBandwidth p;
      _maxSpeed := _maxSpeed p;
      _updateShader := _updateShader p;
      _nbParts := _nbParts p;
      _posVBO := _posVBO p;
      _velVBO := _velVBO p;
      _currIndex := O;
      acceleration := Vec2 0 (- 10000);
      speed := 1 |}, g').

Definition switchBuffers (p : t) : t :=
  {| _worldWidth := _worldWidth p;
     _worldHeight := _worldHeight p;
     _posBandwidth := _posBandwidth p;
     _maxSpeed := _maxSpeed p;
     _updateShader := _updateShader p;
     _nbParts := _nbParts p;
     _posVBO := _posVBO p;
     _velVBO := _velVBO p;
     _currIndex := nextIndex p;
     acceleration := acceleration p;
     speed := speed p |}.

(** Transform feedback: the captured outputs overwrite the head of the
    destination buffer. *)
Definition capture {A : Type} (out dst : list A) : list A :=
  out ++ skipn (List.length out) dst.

(** [update(gl, obstacleMap, dt)]: the update shader runs once on each of
    the [nbParticles] vertices of the current generation and its outputs
    are captured into the buffers of the other one; then the generations
    are switched. *)
Definition update (p : t) (obstacles : sampler2D) (dt : R) : t :=
  let uDt := speed p * dt in
  let srcIndex := currIndex p in
  let dstIndex := nextIndex p in
  let vertices :=
    firstn (nbParticles p)
      (combine (at2 (_posVBO p) srcIndex) (at2 (_velVBO p) srcIndex)) in
  let out :=
    map (fun v => main (_updateShader p) obstacles uDt (acceleration p)
                    (fst v) (snd v)) vertices in
  switchBuffers
    {| _worldWidth := _worldWidth p;
       _worldHeight := _worldHeight p;
       _posBandwidth := _posBandwidth p;
       _maxSpeed := _maxSpeed p;
       _updateShader := _updateShader p;
       _nbParts := _nbParts p;
       _posVBO := set2 (_posVBO p) dstIndex
                    (capture (map fst out) (at2 (_posVBO p) dstIndex));
       _velVBO := set2 (_velVBO p) dstIndex
                    (capture (map snd out) (at2 (_velVBO p) dstIndex));
       _currIndex := _currIndex p;
       acceleration := acceleration p;
       speed := speed p |}.

(** The constants with which the constructor builds the update shader for
    a drawing buffer of [width * height] pixels. *)
Definition shaderConstants (width height : nat) : constants :=
  setWorldSize width height
    (1.2 * INR (Nat.max width height)) (0.5 * INR (Nat.min width height)).

(** The particles of the current generation, position and velocity. *)
Definition current (p : t) : list (vec2 * vec2) :=
  combine (at2 (_posVBO p) (currIndex p)) (at2 (_velVBO p) (currIndex p)).

(** What the constructor establishes and [reset] and [update] keep: the
    index is 0 or 1, the shader constants and the maximal speed are those
    of the drawing buffer, and the four buffers hold [_nbParts] vertices. *)
Record wellFormed (p : t) : Prop := WellFormed {
  wf_index : (_currIndex p < 2)%nat;
  wf_shader :
    _updateShader p = shaderConstants (_worldWidth p) (_worldHeight p);
  wf_maxSpeed :
    _maxSpeed p = 0.5 * INR (Nat.min (_worldWidth p) (_worldHeight p));
  wf_pos : forall index, List.length (at2 (_posVBO p) index) = _nbParts p;
  wf_vel : forall index, List.length (at2 (_velVBO p) index) = _nbParts p
}.

(** An abscissa inside the position band of the shader. *)
Definition inBand (p : t) (pos : vec2) : Prop :=
  - 0.5 * POS_BANDWIDTH (_updateShader p) <= vx pos
  <= 0.5 * POS_BANDWIDTH (_updateShader p).

(** A position inside the visible domain, a velocity whose two components
    are between minus and plus the maximal speed. *)
Definition inDomain (p : t) (pos : vec2) : Prop :=
  Rabs (vx pos) <= 0.5 * INR (_worldWidth p) /\
  Rabs (vy pos) <= 0.5 * INR (_worldHeight p).

Definition inSpeedBox (p : t) (vel : vec2) : Prop :=
  Rabs (vx vel) <= _maxSpeed p /\ Rabs (vy vel) <= _maxSpeed p.

End Particles.

(* ================================================================== *)
(** ** FluidifyShaders and Fluidify *)
(* ================================================================== *)

Module FluidifyShaders.

(** [displayFragStr].  [dFdx] and [dFdy] are the screen-space derivatives of
    [level], computed by the hardware from the neighbouring fragments. *)
Definition displayFrag (texel : vec4) (uThreshold : R)
    (uShowNormals uSpecular : bool) (dFdx_level dFdy_level : R) : vec4 :=
  let visible := step uThreshold (ca texel) in
  let n :=
    normalize3 (cross (Vec3 (1 / 512) 0 dFdx_level)
                      (Vec3 0 (1 / 512) dFdy_level)) in
  let color :=
    if uShowNormals
    then Vec4 (0.5 * x3 n + 0.5) (0.5 * y3 n + 0.5) (0.5 * z3 n + 0.5) 1
    else texel in
  let lightDir := Vec3 0.73 0.73 (- 0.73) in
  let specularColor := Vec4 1 1 1 0 in
  let k := 0.1 in
  let specularFactor := smoothstep 0.99 1 (dot3 n lightDir) in
  let specular :=
    if uSpecular then v4scale (pow specularFactor k) specularColor
    else v4zero in
  v4scale visible (v4add color specular).

(** The colour computed by the shader before the multiplication by
    [visible]: the base colour (the blurred texel, or the encoded normal)
    plus the specular term. *)
Definition shaded (texel : vec4) (uShowNormals uSpecular : bool)
    (dFdx_level dFdy_level : R) : vec4 :=
  let n :=
    normalize3 (cross (Vec3 (1 / 512) 0 dFdx_level)
                      (Vec3 0 (1 / 512) dFdy_level)) in
  v4add
    (if uShowNormals
     then Vec4 (0.5 * x3 n + 0.5) (0.5 * y3 n + 0.5) (0.5 * z3 n + 0.5) 1
     else texel)
    (if uSpecular
     then v4scale (pow (smoothstep 0.99 1 (dot3 n (Vec3 0.73 0.73 (- 0.73))))
                       0.1)
                  (Vec4 1 1 1 0)
     else v4zero).

(** The loop of [blurFragStr], from turn [i] on: [n] turns are left, each
    adds the weighted texel read at [coords] and moves [coords] by
    [uStep]. *)
Fixpoint blurLoop (n : nat) (uTexture : sampler2D) (uStep : vec2)
    (uKernel : list R) (i : nat) (coords : vec2) (result : vec4) : vec4 :=
  match n with
  | O => result
  | S n' =>
      blurLoop n' uTexture uStep uKernel (S i) (vadd coords uStep)
        (v4add result (v4scale (nth i uKernel 0) (texture uTexture coords)))
  end.

(** The weights read by [n] turns of the loop from index [i] on, summed. *)
Fixpoint weightsFrom (uKernel : list R) (i n : nat) : R :=
  match n with
  | O => 0
  | S n' => nth i uKernel 0 + weightsFrom uKernel (S i) n'
  end.

(** The four channels of a colour are between [lo] and [hi]. *)
Definition withinRange (lo hi : R) (c : vec4) : Prop :=
  lo <= cr c <= hi /\ lo <= cg c <= hi /\ lo <= cb c <= hi /\ lo <= ca c <= hi.

(** [blurFragStr] for the kernel size pasted into its source; the integer
    quotient [KERNEL_SIZE / 2] is the number of taps before the pixel. *)
Definition blurFrag (KERNEL_SIZE : nat) (uTexture : sampler2D) (uStep : vec2)
    (uKernel : list R) (sampleCoords : vec2) : vec4 :=
  blurLoop KERNEL_SIZE uTexture uStep uKernel 0
    (vsub sampleCoords (vscale (INR (KERNEL_SIZE / 2)) uStep)) v4zero.

End FluidifyShaders.

Module Fluidify.

Definition kernelFunction (x : R) : R := exp (- 4 * x * x).

(** The sample point of weight [i], [2 * i / kernelSize - 1]. *)
Definition samplePoint (kernelSize i : nat) : R :=
  2 * INR i / INR kernelSize - 1.

(** The first loop of [setKernelSize]: one weight pushed and added to
    [total] at each turn. *)
Definition pushWeight (kernelSize : nat) (state : list R * R) (i : nat)
  : list R * R :=
  let x := samplePoint kernelSize i in
  (fst state ++ [kernelFunction x], snd state + kernelFunction x).

Definition rawKernel (kernelSize : nat) : list R * R :=
  fold_left (pushWeight kernelSize) (seq 0 kernelSize) ([], 0).

(** The second loop: every weight divided by [total].  The result is the
    value given to the uniform [uKernel]. *)
Definition setKernelSize (kernelSize : nat) : list R :=
  let (kernel, total) := rawKernel kernelSize in
  map (fun w => w / total) kernel.

(** The sum of a list of weights. *)
Definition sum (l : list R) : R := fold_right Rplus 0 l.

(** The fields of the class read or written by [process] and [draw]: the
    three textures, the size of the frame buffer object, the kernel size
    pasted into the blur shader with the value of its uniform [uKernel],
    and the uniforms of the display shader. *)
Record t : Set := Make {
  _rawTex : Texture.texture4;
  _halfBlurredTex : Texture.texture4;
  _blurredTex : Texture.texture4;
  _FBO_width : nat;
  _FBO_height : nat;
  KERNEL_SIZE : nat;
  uKernel : list R;
  uThreshold : R;
  uShowNormals : bool;
  uSpecular : bool
}.

(** The method [setKernelSize(gl, kernelSize)] on an object: the blur shader
    is rebuilt for the size and its kernel set. *)
Definition withKernelSize (f : t) (kernelSize : nat) : t :=
  {| _rawTex := _rawTex f;
     _halfBlurredTex := _halfBlurredTex f;
     _blurredTex := _blurredTex f;
     _FBO_width := _FBO_width f;
     _FBO_height := _FBO_height f;
     KERNEL_SIZE := kernelSize;
     uKernel := setKernelSize kernelSize;
     uThreshold := uThreshold f;
     uShowNormals := uShowNormals f;
     uSpecular := uSpecular f |}.

(** [new Fluidify(gl)] on a drawing buffer of [width * height] pixels. *)
Definition constructor (width height : nat) : t :=
  withKernelSize
    {| _rawTex := Texture.blank4 width height;
       _halfBlurredTex := Texture.blank4 width height;
       _blurredTex := Texture.blank4 width height;
       _FBO_width := width;
       _FBO_height := height;
       KERNEL_SIZE := 1;
       uKernel := [];
       uThreshold := 0.5;
       uShowNormals := false;
       uSpecular := true |} 9.

(** One blur pass: a quad over the viewport of the frame buffer object,
    drawn into [target] with the blur shader reading [source]. *)
Definition blurPass (f : t) (source target : Texture.texture4) (uStep : vec2)
  : Texture.texture4 :=
  {| Texture.width4 := Texture.width4 target;
     Texture.height4 := Texture.height4 target;
     Texture.texel4 := fun i j =>
       if (i <? _FBO_width f)%nat && (j <? _FBO_height f)%nat
       then Texture.store4
              (FluidifyShaders.blurFrag (KERNEL_SIZE f)
                 (Texture.sample4 source) uStep (uKernel f)
                 (Texture.pixelCentre (_FBO_width f) (_FBO_height f) i j))
       else Texture.texel4 target i j |}.

(** [process(gl)]: the horizontal pass from the raw texture, then the
    vertical pass from its result. *)
Definition process (f : t) : t :=
  let half :=
    blurPass f (_rawTex f) (_halfBlurredTex f)
      (Vec2 (1 / INR (_FBO_width f)) 0) in
  let blurred :=
    blurPass f half (_blurredTex f) (Vec2 0 (1 / INR (_FBO_height f))) in
  {| _rawTex := _rawTex f;
     _halfBlurredTex := half;
     _blurredTex := blurred;
     _FBO_width := _FBO_width f;
     _FBO_height := _FBO_height f;
     KERNEL_SIZE := KERNEL_SIZE f;
     uKernel := uKernel f;
     uThreshold := uThreshold f;
     uShowNormals := uShowNormals f;
     uSpecular := uSpecular f |}.

(** What the constructor establishes and [setKernelSize] (for a size of at
    least 1) and [process] keep: the three textures have the size of the
    frame buffer object, which is not empty, and the uniform [uKernel]
    holds the kernel of the size pasted into the shader. *)
Record wellFormed (f : t) : Prop := WellFormed {
  wf_width : (0 < _FBO_width f)%nat;
  wf_height : (0 < _FBO_height f)%nat;
  wf_raw : Texture.width4 (_rawTex f) = _FBO_width f /\
           Texture.height4 (_rawTex f) = _FBO_height f;
  wf_half : Texture.width4 (_halfBlurredTex f) = _FBO_width f /\
            Texture.height4 (_halfBlurredTex f) = _FBO_height f;
  wf_blurred : Texture.width4 (_blurredTex f) = _FBO_width f /\
               Texture.height4 (_blurredTex f) = _FBO_height f;
  wf_kernelSize : (1 <= KERNEL_SIZE f)%nat;
  wf_kernel : uKernel f = setKernelSize (KERNEL_SIZE f)
}.

(** Every texel of a texture that the viewport covers is [c]. *)
Definition uniform4 (f : t) (tex : Texture.texture4) (c : Texture.rgba)
  : Prop :=
  forall i j, (i < _FBO_width f)%nat -> (j < _FBO_height f)%nat ->
    Texture.texel4 tex i j = c.

End Fluidify.

(* ================================================================== *)
(** ** ParticlesShaders: the draw shaders *)
(* ================================================================== *)

Module ParticlesDraw.
Import ParticlesShaders ObstacleMapShaders.

Definition slowColor : vec4 := Vec4 0.75 1 1 1.
Definition fastColor : vec4 := Vec4 0 0.2 0.8 1.

(** What [drawVertRawStr] gives for one particle: the flat colour, the clip
    position and the size of the point. *)
Record vertex : Set := Vertex {
  color : vec4;
  gl_Position : vec4;
  gl_PointSize : R
}.

Definition relativeSpeed (K : constants) (vel : vec2) : R :=
  length vel / MAX_SPEED K.

Definition drawVert (K : constants) (uPointSize : R) (aPos aVel : vec2)
  : vertex :=
  let t := smoothstep 0 1 (relativeSpeed K aVel) in
  {| color := v4mix slowColor fastColor t;
     gl_Position :=
       Vec4 (2 * vx aPos / vx (WORLD_SIZE K)) (2 * vy aPos / vy (WORLD_SIZE K))
            (0.9 * relativeSpeed K aVel) 1;
     gl_PointSize := uPointSize |}.

(** [drawFragStr]: the point is a disc, the corners of its square are
    discarded. *)
Definition drawFrag (color : vec4) (gl_PointCoord : vec2) : fragment :=
  let toCenter := vscale 2 (vsub (Vec2 0.5 0.5) gl_PointCoord) in
  if Rlt_dec 1 (dot toCenter toCenter) then Discard else FragColor color.

(** A clip position is kept by the clipping stage when its three first
    coordinates are between [-w] and [w]. *)
Definition inClipVolume (p : vec4) : Prop :=
  - ca p <= cr p <= ca p /\ - ca p <= cg p <= ca p /\ - ca p <= cb p <= ca p.

End ParticlesDraw.

(* ================================================================== *)
(** ** Controls and the main loop *)
(* ================================================================== *)

Module Controls.

(** The geometry of the canvas element: its bounding rectangle and its
    client size. *)
Record canvas : Set := Canvas {
  rectLeft : R;
  rectTop : R;
  clientWidth : R;
  clientHeight : R
}.

(** [documentToCanvas(vec)]: client coordinates to canvas coordinates,
    with the ordinate measured upwards from the bottom of the canvas. *)
Definition documentToCanvas (c : canvas) (vec : vec2) : vec2 :=
  Vec2 (vx vec - rectLeft c) (clientHeight c - (vy vec - rectTop c)).

(** The pointer position given to the obstacle map by [mouseMove]. *)
Definition pointer (c : canvas) (clientX clientY : R) : vec2 :=
  let pos := documentToCanvas c (Vec2 clientX clientY) in
  Vec2 (vx pos / clientWidth c) (vy pos / clientHeight c).

Section Mouse.

Variable rasterize : ObstacleMap.rasterizer.

(** [mouseMove(event)]: the mobile obstacle follows the pointer, and a
    static one is added when the button is down. *)
Definition mouseMove (c : canvas) (isMouseDown : bool)
    (obstacles : ObstacleMap.t) (clientX clientY : R) : ObstacleMap.t :=
  let pos := pointer c clientX clientY in
  let moved := ObstacleMap.setMobileObstacle obstacles (vx pos) (vy pos) in
  if isMouseDown
  then ObstacleMap.addStaticObstacle rasterize moved (vx pos) (vy pos)
  else moved.

End Mouse.

(** The table [sizes] of [bindParticlesSection]: the number of particles
    for each position of the amount slider. *)
Definition sizes : list nat :=
  [16 * 16; 32 * 32; 64 * 64; 128 * 128; 256 * 256; 512 * 512; 512 * 1024;
   1024 * 1024; 1024 * 2048; 2048 * 2048]%nat.

(** [updateAmount]: the particles are reset with the size of the table at
    the position of the slider.  (A position outside the table gives
    [undefined], which the loop of [reset] and the draw calls read as no
    particle at all.) *)
Definition updateAmount (particles : Particles.t) (value : nat)
    (g : Particles.rng) : Particles.t * Particles.rng :=
  Particles.reset particles (nth value sizes O) g.

(** What the inputs of the page hold when [Controls.bind] runs: the
    position of the amount slider, the values of the gravity, speed and
    brush size sliders and the state of the check box of the obstacle
    normals.  (The inputs of the rendering section set uniforms of the
    draw shader and of the fluid compositor only.) *)
Record inputs : Set := Inputs {
  amountSlider : nat;
  gravitySlider : R;
  speedSlider : R;
  brushSizeSlider : R;
  displayNormalsCheckbox : bool
}.

(** [updateBrushSize]: the slider value, in pixels, relative to the size of
    the canvas. *)
Definition updateBrushSize (c : canvas) (obstacles : ObstacleMap.t)
    (value : R) : ObstacleMap.t :=
  ObstacleMap.setBrushSize obstacles
    (Vec2 (value / clientWidth c) (value / clientHeight c)).

End Controls.

Module Main.

(** The state the handlers share: the simulation, the obstacle map, the
    time of the last frame in seconds, the state of the mouse button and
    the generator behind [Math.random]. *)
Record state : Type := State {
  particles : Particles.t;
  obstacles : ObstacleMap.t;
  lastUpdate : R;
  isMouseDown : bool;
  random : Particles.rng
}.

(** What the browser calls back with: an animation frame with its time in
    milliseconds, the mouse, and the inputs of the page. *)
Inductive event : Set :=
| Frame (time : R)
| MouseMove (clientX clientY : R)
| MouseDown (clientX clientY : R)
| MouseUp
| ResetObstacles
| SetAmount (value : nat)
| SetGravity (value : R)
| SetSpeed (value : R)
| SetBrushSize (value : R)
| SetDisplayNormals (value : bool).

Definition withAcceleration (p : Particles.t) (a : vec2) : Particles.t :=
  {| Particles._worldWidth := Particles._worldWidth p;
     Particles._worldHeight := Particles._worldHeight p;
     Particles._posBandwidth := Particles._posBandwidth p;
     Particles._maxSpeed := Particles._maxSpeed p;
     Particles._updateShader := Particles._updateShader p;
     Particles._nbParts := Particles._nbParts p;
     Particles._posVBO := Particles._posVBO p;
     Particles._velVBO := Particles._velVBO p;
     Particles._currIndex := Particles._currIndex p;
     Particles.acceleration := a;
     Particles.speed := Particles.speed p |}.

Definition withSpeed (p : Particles.t) (v : R) : Particles.t :=
  {| Particles._worldWidth := Particles._worldWidth p;
     Particles._worldHeight := Particles._worldHeight p;
     Particles._posBandwidth := Particles._posBandwidth p;
     Particles._maxSpeed := Particles._maxSpeed p;
     Particles._updateShader := Particles._updateShader p;
     Particles._nbParts := Particles._nbParts p;
     Particles._posVBO := Particles._posVBO p;
     Particles._velVBO := Particles._velVBO p;
     Particles._currIndex := Particles._currIndex p;
     Particles.acceleration := Particles.acceleration p;
     Particles.speed := v |}.

(** The calls [bindInput] makes when [Controls.bind] installs the handlers:
    each is run once with the value its input holds, in this order. *)
Definition startup (page : Controls.inputs) : list event :=
  [SetAmount (Controls.amountSlider page);
   SetGravity (Controls.gravitySlider page);
   SetSpeed (Controls.speedSlider page);
   SetBrushSize (Controls.brushSizeSlider page);
   SetDisplayNormals (Controls.displayNormalsCheckbox page)].

Section Handlers.

Variable rasterize : ObstacleMap.rasterizer.
Variable c : Controls.canvas.

(** The two objects built by [main()] on a drawing buffer of
    [width * height] pixels: a simulation of [16 * 16] particles and an
    obstacle map. *)
Definition create (width height : nat) (g : Particles.rng) : state :=
  let (p, g') := Particles.constructor width height (16 * 16) g in
  {| particles := p;
     obstacles := ObstacleMap.constructor rasterize width height;
     lastUpdate := 0;
     isMouseDown := false;
     random := g' |}.

(** The simulation part of [mainLoop(time)]: the time step is the time
    since the last frame, at most a tenth of a second.  (The draw calls
    that follow write neither the particles nor the obstacle map.) *)
Definition mainLoop (s : state) (time : R) : state :=
  let time := time * 0.001 in
  let dt := time - lastUpdate s in
  let dt := Rmin dt (1 / 10) in
  {| particles :=
       Particles.update (particles s) (ObstacleMap.texture (obstacles s)) dt;
     obstacles := obstacles s;
     lastUpdate := time;
     isMouseDown := isMouseDown s;
     random := random s |}.

(** The callbacks.  The [mousedown] listener sets the flag and calls
    [mouseMove] with the global [event], which the browser binds to the
    event being dispatched; the inputs of the page call [reset] with the
    size of the table, and set the acceleration [[0, -value]], the speed,
    the brush size and the display of the normals. *)
Definition handle (s : state) (e : event) : state :=
  match e with
  | Frame time => mainLoop s time
  | MouseMove x y =>
      {| particles := particles s;
         obstacles :=
           Controls.mouseMove rasterize c (isMouseDown s) (obstacles s) x y;
         lastUpdate := lastUpdate s;
         isMouseDown := isMouseDown s;
         random := random s |}
  | MouseDown x y =>
      {| particles := particles s;
         obstacles := Controls.mouseMove rasterize c true (obstacles s) x y;
         lastUpdate := lastUpdate s;
         isMouseDown := true;
         random := random s |}
  | MouseUp =>
      {| particles := particles s;
         obstacles := obstacles s;
         lastUpdate := lastUpdate s;
         isMouseDown := false;
         random := random s |}
  | ResetObstacles =>
      {| particles := particles s;
         obstacles := ObstacleMap.reset (obstacles s);
         lastUpdate := lastUpdate s;
         isMouseDown := isMouseDown s;
         random := random s |}
  | SetAmount value =>
      let (p, g') := Controls.updateAmount (particles s) value (random s) in
      {| particles := p;
         obstacles := obstacles s;
         lastUpdate := lastUpdate s;
         isMouseDown := isMouseDown s;
         random := g' |}
  | SetGravity value =>
      {| particles := withAcceleration (particles s) (Vec2 0 (- value));
         obstacles := obstacles s;
         lastUpdate := lastUpdate s;
         isMouseDown := isMouseDown s;
         random := random s |}
  | SetSpeed value =>
      {| particles := withSpeed (particles s) value;
         obstacles := obstacles s;
         lastUpdate := lastUpdate s;
         isMouseDown := isMouseDown s;
         random := random s |}
  | SetBrushSize value =>
      {| particles := particles s;
         obstacles := Controls.updateBrushSize c (obstacles s) value;
         lastUpdate := lastUpdate s;
         isMouseDown := isMouseDown s;
         random := random s |}
  | SetDisplayNormals value =>
      {| particles := particles s;
         obstacles := ObstacleMap.setDisplayNormals (obstacles s) value;
         lastUpdate := lastUpdate s;
         isMouseDown := isMouseDown s;
         random := random s |}
  end.

Definition run (s : state) (events : list event) : state :=
  fold_left handle events s.

(** [main()] up to the first animation frame: the two objects are built,
    then [Controls.bind] runs each handler once with the value of its
    input. *)
Definition init (width height : nat) (page : Controls.inputs)
    (g : Particles.rng) : state :=
  run (create width height g) (startup page).

End Handlers.

(** The animation frames of a run come with times that do not decrease,
    starting from [last] seconds, and the speed factor stays between 0 and
    1. *)
Fixpoint timely (last : R) (events : list event) : Prop :=
  match events with
  | [] => True
  | Frame time :: rest => last <= time * 0.001 /\ timely (time * 0.001) rest
  | SetSpeed value :: rest => 0 <= value <= 1 /\ timely last rest
  | _ :: rest => timely last rest
  end.

(** No particle is further than one step below the bottom edge. *)
Definition aboveFloor (p : Particles.t) (pos : vec2) : Prop :=
  - 0.5 * INR (Particles._worldHeight p)
  - 0.1 * (ParticlesShaders.MAX_SPEED (Particles._updateShader p) + 1)
  <= vy pos.

(** What holds of the state between two events: the simulation is well
    formed, the world and the frame buffer of the map are the drawing
    buffer of [w * h] pixels, the obstacle textures hold bytes, and are
    well formed when their upload was accepted (an even width, or a single
    row), the speed factor is between 0 and 1, and every particle of the
    current generation is in the position band, above the floor and in the
    speed box. *)
Record invariant (w h : nat) (s : state) : Prop := Invariant {
  inv_particles : Particles.wellFormed (particles s);
  inv_width : Particles._worldWidth (particles s) = w;
  inv_height : Particles._worldHeight (particles s) = h;
  inv_fbo : ObstacleMap._FBO_width (obstacles s) = w /\
            ObstacleMap._FBO_height (obstacles s) = h;
  inv_bytes : Texture.bytes (ObstacleMap._staticTexture (obstacles s)) /\
              Texture.bytes (ObstacleMap._texture (obstacles s));
  inv_obstacles : Nat.even w = true \/ h = 1%nat ->
                  ObstacleMap.wellFormed (obstacles s);
  inv_speed : 0 <= Particles.speed (particles s) <= 1;
  inv_random : Particles.unit_range (random s);
  inv_current :
    Forall (fun v => Particles.inBand (particles s) (fst v) /\
                     aboveFloor (particles s) (fst v) /\
                     Particles.inSpeedBox (particles s) (snd v))
           (Particles.current (particles s))
}.

End Main.

(* ================================================================== *)
(** ** Shader: binding the uniforms *)
(* ================================================================== *)

Module Shader.
Import Stdlib.Strings.String.

(** The JavaScript values that reach the binders. *)
Inductive jsval : Type :=
| Undefined
| Number (x : R)
| Boolean (b : bool)
| Array (l : list R)
| WebGLTexture (id : nat).

(** The value of a condition: [undefined], [false], [0] are false. *)
Definition truthy (v : jsval) : bool :=
  match v with
  | Undefined => false
  | Number x => if Req_dec_T x 0 then false else true
  | Boolean b => b
  | Array _ => true
  | WebGLTexture _ => true
  end.

(** The calls the binders make on the rendering context. *)
Inductive call : Type :=
| uniform1f (location : nat) (v : jsval)
| uniform1fv (location : nat) (v : jsval)
| uniform2fv (location : nat) (v : jsval)
| uniform3fv (location : nat) (v : jsval)
| uniform4fv (location : nat) (v : jsval)
| uniform1i (location : nat) (v : jsval)
| uniform1iv (location : nat) (v : jsval)
| uniform2iv (location : nat) (v : jsval)
| uniform3iv (location : nat) (v : jsval)
| uniform4iv (location : nat) (v : jsval)
| activeTexture (unit : jsval)
| bindTexture (target : Z) (texture : jsval)
| alert (message : string).

Inductive exception : Set := TypeError | ReferenceError.

Definition TEXTURE_2D : Z := 0x0DE1%Z.
Definition TEXTURE_CUBE_MAP : Z := 0x8513%Z.
Definition TEXTURE0 : Z := 0x84C0%Z.

(** A binder is called with the location and the arguments that follow it;
    a parameter without argument is [undefined].  It returns the calls it
    made, or the exception it raised. *)
Definition binder : Type := nat -> list jsval -> list call + exception.
Definition arg (n : nat) (args : list jsval) : jsval := nth n args Undefined.

Definition notImplemented : binder :=
  fun _ _ => inl [alert "NOT IMPLEMENTED YET"%string].

Definition bindUniformFloat : binder :=
  fun location args =>
    let value := arg 0 args in
    let isArray := arg 1 args in
    if truthy isArray then inl [uniform1fv location value]
    else inl [uniform1f location value].

Definition bindUniformFloat2v : binder :=
  fun location args => inl [uniform2fv location (arg 0 args)].
Definition bindUniformFloat3v : binder :=
  fun location args => inl [uniform3fv location (arg 0 args)].
Definition bindUniformFloat4v : binder :=
  fun location args => inl [uniform4fv location (arg 0 args)].
Definition bindUniformInt2v : binder :=
  fun location args => inl [uniform2iv location (arg 0 args)].
Definition bindUniformInt3v : binder :=
  fun location args => inl [uniform3iv location (arg 0 args)].
Definition bindUniformInt4v : binder :=
  fun location args => inl [uniform4iv location (arg 0 args)].
Definition bindUniformBool : binder :=
  fun location args => inl [uniform1i location (arg 0 args)].
Definition bindUniformBool2v : binder :=
  fun location args => inl [uniform2iv location (arg 0 args)].
Definition bindUniformBool3v : binder :=
  fun location args => inl [uniform3iv location (arg 0 args)].
Definition bindUniformBool4v : binder :=
  fun location args => inl [uniform4iv location (arg 0 args)].

(** The three matrix binders pass a variable [v] that is declared nowhere:
    the evaluation of the arguments raises before the context is called. *)
Definition bindUniformFloatMat2 : binder := fun _ _ => inr ReferenceError.
Definition bindUniformFloatMat3 : binder := fun _ _ => inr ReferenceError.
Definition bindUniformFloatMat4 : binder := fun _ _ => inr ReferenceError.

Definition bindSampler2D : binder :=
  fun location args =>
    let unitNb := arg 0 args in
    let unit := arg 1 args in
    let value := arg 2 args in
    inl [uniform1i location unitNb; activeTexture unit;
         bindTexture TEXTURE_2D value].

Definition bindSamplerCube : binder :=
  fun location args =>
    let unitNb := arg 0 args in
    let unit := arg 1 args in
    let value := arg 2 args in
    inl [uniform1i location unitNb; activeTexture unit;
         bindTexture TEXTURE_CUBE_MAP value].

Definition bindUniformInt : binder :=
  fun location args =>
    let value := arg 0 args in
    let isArray := arg 1 args in
    if truthy isArray then inl [uniform1iv location value]
    else inl [uniform1i location value].

(** The table [types], in the order of the source. *)
Definition types : list (Z * (string * binder)) :=
  [(0x8B50%Z, ("FLOAT_VEC2"%string, bindUniformFloat2v));
   (0x8B51%Z, ("FLOAT_VEC3"%string, bindUniformFloat3v));
   (0x8B52%Z, ("FLOAT_VEC4"%string, bindUniformFloat4v));
   (0x8B53%Z, ("INT_VEC2"%string, bindUniformInt2v));
   (0x8B54%Z, ("INT_VEC3"%string, bindUniformInt3v));
   (0x8B55%Z, ("INT_VEC4"%string, bindUniformInt4v));
   (0x8B56%Z, ("BOOL"%string, bindUniformBool));
   (0x8B57%Z, ("BOOL_VEC2"%string, bindUniformBool2v));
   (0x8B58%Z, ("BOOL_VEC3"%string, bindUniformBool3v));
   (0x8B59%Z, ("BOOL_VEC4"%string, bindUniformBool4v));
   (0x8B5A%Z, ("FLOAT_MAT2"%string, bindUniformFloatMat2));
   (0x8B5B%Z, ("FLOAT_MAT3"%string, bindUniformFloatMat3));
   (0x8B5C%Z, ("FLOAT_MAT4"%string, bindUniformFloatMat4));
   (0x8B5E%Z, ("SAMPLER_2D"%string, bindSampler2D));
   (0x8B60%Z, ("SAMPLER_CUBE"%string, bindSamplerCube));
   (0x1400%Z, ("BYTE"%string, notImplemented));
   (0x1401%Z, ("UNSIGNED_BYTE"%string, notImplemented));
   (0x1402%Z, ("SHORT"%string, notImplemented));
   (0x1403%Z, ("UNSIGNED_SHORT"%string, notImplemented));
   (0x1404%Z, ("INT"%string, bindUniformInt));
   (0x1405%Z, ("UNSIGNED_INT"%string, notImplemented));
   (0x1406%Z, ("FLOAT"%string, bindUniformFloat))].

(** [table[key]]: the entry of the key, if there is one. *)
Fixpoint lookup {A : Type} (table : list (Z * A)) (key : Z) : option A :=
  match table with
  | [] => None
  | (k, a) :: rest => if (k =? key)%Z then Some a else lookup rest key
  end.

(** What [programIntrospection] records of a uniform, with the value the
    program was given for it; [Undefined] when it was given none. *)
Record uniform : Type := Uniform {
  loc : nat;
  size : nat;
  type : Z;
  value : jsval
}.

Definition textureUnits : list jsval :=
  [Number (IZR 0x84C0); Number (IZR 0x84C1); Number (IZR 0x84C2);
   Number (IZR 0x84C3); Number (IZR 0x84C4); Number (IZR 0x84C5);
   Number (IZR 0x84C6); Number (IZR 0x84C7); Number (IZR 0x84C8);
   Number (IZR 0x84C9)].

(** [uName.substr(-3)]: the last three characters, or the whole name when
    it is shorter. *)
Definition substr3 (uName : string) : string :=
  substring (String.length uName - 3) 3 uName.

Definition valueExists (u : uniform) : bool :=
  match value u with Undefined => false | _ => true end.

Definition isSampler (u : uniform) : bool :=
  ((type u =? 0x8B5E) || (type u =? 0x8B60))%Z.

(** The loop of [bindUniforms] over the uniforms of [this.u], in the order
    of their enumeration, from the texture unit [currTextureUnitNb] on: the
    calls made, and the exception that ended the loop, if one did.  Reading
    [binder] of an entry that the table does not have is a [TypeError]. *)
Fixpoint bindLoop (u : list (string * uniform)) (currTextureUnitNb : nat)
  : list call * option exception :=
  match u with
  | [] => ([], None)
  | (uName, uniform) :: rest =>
      if valueExists uniform then
        let isArray :=
          (1 <? size uniform)%nat && String.eqb (substr3 uName) "[0]"%string in
        let args :=
          if isSampler uniform
          then [Number (INR currTextureUnitNb);
                nth currTextureUnitNb textureUnits Undefined;
                value uniform]
          else [value uniform; Boolean isArray] in
        match lookup types (type uniform) with
        | None => ([], Some TypeError)
        | Some entry =>
            match snd entry (loc uniform) args with
            | inr e => ([], Some e)
            | inl calls =>
                let (log, e) :=
                  bindLoop rest
                    (if isSampler uniform then S currTextureUnitNb
                     else currTextureUnitNb) in
                (calls ++ log, e)
            end
        end
      else bindLoop rest currTextureUnitNb
  end.

Definition bindUniforms (u : list (string * uniform))
  : list call * option exception :=
  bindLoop u 0.

(** The texture units made active by a sequence of calls, and the textures
    bound, in order. *)
Definition activeTextures (log : list call) : list jsval :=
  flat_map (fun c => match c with activeTexture unit => [unit] | _ => [] end)
           log.
Definition boundTextures (log : list call) : list jsval :=
  flat_map (fun c => match c with bindTexture _ texture => [texture]
                             | _ => [] end) log.

(** A binder that touches no texture unit. *)
Definition quiet (b : binder) : Prop :=
  forall location args calls,
    b location args = inl calls ->
    activeTextures calls = [] /\ boundTextures calls = [].

(** The values of the samplers that were given one, in the order of the
    uniforms. *)
Definition samplers (u : list (string * uniform)) : list jsval :=
  map (fun nu => value (snd nu))
      (filter (fun nu => valueExists (snd nu) && isSampler (snd nu)) u).

End Shader.

(* ================================================================== *)
(** ** Concrete runs *)
(* ================================================================== *)

Module Scenario.
Import Stdlib.Strings.String.
Import ParticlesShaders.

(** A square canvas of 512 pixels and a freshly reset obstacle map. *)
Definition K512 : constants := Particles.shaderConstants 512 512.
Definition fresh512 : sampler2D :=
  Texture.sample (ObstacleMap.initTexture 512 512).

(** A wide canvas of 700 by 100 pixels. *)
Definition K700 : constants := Particles.shaderConstants 700 100.
Definition fresh700 : sampler2D :=
  Texture.sample (ObstacleMap.initTexture 700 100).

(** The vector every texel of a fresh texture decodes to. *)
Definition freshNormal : vec2 := Vec2 (- 1 / 255) (- 1 / 255).

Definition gravity : vec2 := Vec2 0 (- 10000).
Definition noAcceleration : vec2 := Vec2 0 0.

(** A particle in the middle of the canvas, moving slowly. *)
Definition slowPos : vec2 := Vec2 0 0.
Definition slowVel : vec2 := Vec2 3 4.

(** A velocity that [reset] can draw on the square canvas: each component
    is below the maximal speed 256, the length is above it. *)
Definition fastVel : vec2 := Vec2 230.4 230.4.

(** A particle far below the canvas. *)
Definition deepPos : vec2 := Vec2 0 (- 1024).
Definition deepVel : vec2 := Vec2 0 0.

(** A particle of the wide canvas that has just crossed the bottom edge
    ([y = -50]) at the maximal speed, at an abscissa inside the canvas for
    which the hash [random(pos)] is zero. *)
Definition crossedPos : vec2 := Vec2 (54 * 78.233 / 12.9898) (- 54).
Definition crossedVel : vec2 := Vec2 0 (- 50).

(** A generator whose draws are all one half. *)
Definition halves : Particles.rng := fun _ => / 2.

(** A new simulation of one particle, advanced by one frame, then reset
    with 256 particles. *)
Definition started : Particles.t :=
  fst (Particles.constructor 512 512 1 halves).
Definition stepped : Particles.t := Particles.update started fresh512 0.016.
Definition restarted : Particles.t :=
  fst (Particles.reset stepped 256 halves).

Definition uTextureName : String.string := "uTexture"%string.
Definition uStepName : String.string := "uStep"%string.
Definition uKernelName : String.string := "uKernel[0]"%string.
Definition uUnusedName : String.string := "uUnused"%string.
Definition uSecondName : String.string := "uSecond"%string.

(** A canvas of 512 by 512 pixels at the origin of the page, and a short
    session: a frame, the pointer pressed and dragged, a frame, a change of
    the number of particles, a frame. *)
Definition page : Controls.canvas := Controls.Canvas 0 0 512 512.
Definition session : list Main.event :=
  [Main.Frame 16; Main.MouseDown 256 256; Main.MouseMove 260 250;
   Main.MouseUp; Main.Frame 33; Main.SetAmount 1; Main.Frame 5000].

(** Inputs of a page: the first size of the table, a gravity of 1000, full
    speed, a brush of 30 pixels, normals not displayed. *)
Definition controls : Controls.inputs := Controls.Inputs 0 1000 1 30 false.

(** The uniforms of the blur shader of size 9 as [process] leaves them
    for the horizontal pass on a buffer 512 pixels wide, followed by a
    sampler that was given no texture and one that was. *)
Definition blurUniforms : list (String.string * Shader.uniform) :=
  [(uTextureName, Shader.Uniform 0 1 0x8B5E (Shader.WebGLTexture 1));
   (uStepName, Shader.Uniform 1 1 0x8B50 (Shader.Array [1 / 512; 0]));
   (uKernelName, Shader.Uniform 2 9 0x1406
                   (Shader.Array (Fluidify.setKernelSize 9)));
   (uUnusedName, Shader.Uniform 11 1 0x8B5E Shader.Undefined);
   (uSecondName, Shader.Uniform 12 1 0x8B5E (Shader.WebGLTexture 2))].


(** An obstacle map of 4 by 4 texels with a brush of half its size. *)
Definition smallMap : ObstacleMap.t :=
  {| ObstacleMap._staticTexture := ObstacleMap.initTexture 4 4;
     ObstacleMap._texture := ObstacleMap.initTexture 4 4;
     ObstacleMap._FBO_width := 4;
     ObstacleMap._FBO_height := 4;
     ObstacleMap.uBrushSize := Vec2 0.5 0.5;
     ObstacleMap.uDisplayNormals := false |}.

End Scenario.

(* ================================================================== *)
(** * Properties *)
(* ================================================================== *)

(** ** Vectors *)

Lemma dot_self_nonneg (a : vec2) : 0 <= dot a a.
Proof. unfold dot. nra. Qed.

Lemma length_nonneg (a : vec2) : 0 <= length a.
Proof. apply sqrt_pos. Qed.

Lemma length_sqr (a : vec2) : length a * length a = dot a a.
Proof. apply sqrt_sqrt, dot_self_nonneg. Qed.

Lemma length_pos (a : vec2) : 0 < dot a a -> 0 < length a.
Proof. apply sqrt_lt_R0. Qed.

Lemma dot_vscale_l (k : R) (a b : vec2) : dot (vscale k a) b = k * dot a b.
Proof. unfold dot, vscale; simpl. ring. Qed.

Lemma length_vscale (k : R) (a : vec2) :
  length (vscale k a) = Rabs k * length a.
Proof.
  unfold length.
  replace (dot (vscale k a) (vscale k a)) with (Rsqr k * dot a a)
    by (unfold dot, vscale, Rsqr; simpl; ring).
  rewrite sqrt_mult; [| apply Rle_0_sqr | apply dot_self_nonneg].
  now rewrite sqrt_Rsqr_abs.
Qed.

Lemma normalize_unit (n : vec2) :
  0 < dot n n -> dot (normalize n) (normalize n) = 1.
Proof.
  intro Hn. pose proof (length_pos n Hn) as Hl.
  pose proof (length_sqr n) as Hs.
  unfold normalize.
  replace (dot (vscale (/ length n) n) (vscale (/ length n) n))
    with (dot n n * (/ length n * / length n))
    by (unfold dot, vscale; simpl; ring).
  rewrite <- Hs. field. lra.
Qed.

Lemma reflect_unit_dot (i n : vec2) :
  dot n n = 1 -> dot (reflect i n) (reflect i n) = dot i i.
Proof.
  intro Hn.
  replace (dot (reflect i n) (reflect i n))
    with (dot i i + 4 * dot n i * dot n i * (dot n n - 1))
    by (unfold reflect, dot, vsub, vscale; simpl; ring).
  rewrite Hn. ring.
Qed.

Lemma reflect_normalize_dot (v n : vec2) :
  0 < dot n n -> dot (reflect v (normalize n)) n = - dot v n.
Proof.
  intro Hn. pose proof (length_pos n Hn) as Hl.
  pose proof (length_sqr n) as Hs.
  unfold reflect, normalize.
  replace (dot (vsub v (vscale (2 * dot (vscale (/ length n) n) v)
                          (vscale (/ length n) n))) n)
    with (dot v n - 2 * dot v n * (dot n n * (/ length n * / length n)))
    by (unfold dot, vsub, vscale; simpl; ring).
  rewrite <- Hs. field. lra.
Qed.

Lemma min1_div_range (a b : R) : 0 <= a -> 0 <= b -> 0 <= min1_div a b <= 1.
Proof.
  intros Ha Hb. unfold min1_div.
  destruct (Req_dec_T b 0) as [|Hb0]; [lra|].
  split; [| apply Rmin_l].
  apply Rmin_glb; [lra|].
  apply Rmult_le_pos; [lra|]. left. apply Rinv_0_lt_compat. lra.
Qed.

Lemma min1_div_bound (a b : R) : 0 <= a -> 0 <= b -> min1_div a b * b <= a.
Proof.
  intros Ha Hb. unfold min1_div.
  destruct (Req_dec_T b 0) as [->|Hb0]; [lra|].
  assert (Hle : Rmin 1 (a / b) <= a / b) by apply Rmin_r.
  apply Rmult_le_compat_r with (r := b) in Hle; [| lra].
  replace (a / b * b) with a in Hle by (field; lra). exact Hle.
Qed.

Lemma length_limited (m : R) (v : vec2) :
  0 <= m -> length (vscale (min1_div m (length v)) v) <= m.
Proof.
  intro Hm. pose proof (length_nonneg v) as Hl.
  rewrite length_vscale.
  pose proof (min1_div_range m (length v) Hm Hl) as [H0 _].
  rewrite Rabs_pos_eq by exact H0.
  now apply min1_div_bound.
Qed.

(** ** [toFixed(1)] on the numbers the constructor prints *)

Lemma Int_part_half (z : Z) : Int_part (IZR z + / 2) = z.
Proof. symmetry. apply Int_part_spec. split; lra. Qed.

Lemma toFixed1_tenths (z : Z) : (0 <= z)%Z -> JS.toFixed1 (IZR z / 10) = IZR z / 10.
Proof.
  intro Hz. apply IZR_le in Hz. unfold JS.toFixed1.
  destruct (Rlt_dec (IZR z / 10) 0) as [Hneg|_]; [lra|].
  replace (10 * (IZR z / 10)) with (IZR z) by lra.
  now rewrite Int_part_half.
Qed.

Lemma toFixed1_half_nat (n : nat) : JS.toFixed1 (0.5 * INR n) = 0.5 * INR n.
Proof.
  replace (0.5 * INR n) with (IZR (5 * Z.of_nat n) / 10)
    by (rewrite mult_IZR, <- INR_IZR_INZ; lra).
  apply toFixed1_tenths. lia.
Qed.

Lemma toFixed1_twelve_tenths_nat (n : nat) :
  JS.toFixed1 (1.2 * INR n) = 1.2 * INR n.
Proof.
  replace (1.2 * INR n) with (IZR (12 * Z.of_nat n) / 10)
    by (rewrite mult_IZR, <- INR_IZR_INZ; lra).
  apply toFixed1_tenths. lia.
Qed.

(** ** The constants of the update shader *)

Lemma constructor_updateShader (width height nb : nat) (g : Particles.rng) :
  Particles._updateShader (fst (Particles.constructor width height nb g))
  = Particles.shaderConstants width height.
Proof.
  unfold Particles.constructor, Particles.reset; simpl.
  destruct (Particles.randomParticles nb _ _ _ g) as [[pos vel] g'].
  reflexivity.
Qed.

Lemma MAX_SPEED_canvas (w h : nat) :
  ParticlesShaders.MAX_SPEED (Particles.shaderConstants w h)
  = 0.5 * INR (Nat.min w h).
Proof. simpl. apply toFixed1_half_nat. Qed.

Lemma POS_BANDWIDTH_canvas (w h : nat) :
  ParticlesShaders.POS_BANDWIDTH (Particles.shaderConstants w h)
  = 1.2 * INR (Nat.max w h).
Proof. simpl. apply toFixed1_twelve_tenths_nat. Qed.

Lemma WORLD_SIZE_canvas (w h : nat) :
  ParticlesShaders.WORLD_SIZE (Particles.shaderConstants w h)
  = Vec2 (INR w) (INR h).
Proof. reflexivity. Qed.

Lemma MAX_SPEED_nonneg (w h : nat) :
  0 <= ParticlesShaders.MAX_SPEED (Particles.shaderConstants w h).
Proof.
  rewrite MAX_SPEED_canvas. pose proof (pos_INR (Nat.min w h)). lra.
Qed.

Lemma INR_min_le (w h : nat) :
  INR (Nat.min w h) <= INR w /\ INR (Nat.min w h) <= INR h.
Proof. split; apply le_INR; lia. Qed.

Lemma INR_max_ge (w h : nat) :
  INR w <= INR (Nat.max w h) /\ INR h <= INR (Nat.max w h).
Proof. split; apply le_INR; lia. Qed.

(** ** The velocity written by the update shader *)

Section Velocity.
Import ParticlesShaders.

Variables w h : nat.
Variable uObstaclesBuffer : sampler2D.
Variable uDt : R.
Variable uAcceleration : vec2.

Local Abbreviation K := (Particles.shaderConstants w h).

Lemma collide_bounces (pos nextVel : vec2) :
  dot (obstacleAt K uObstaclesBuffer pos) (obstacleAt K uObstaclesBuffer pos)
    > 0.1 ->
  dot nextVel (obstacleAt K uObstaclesBuffer pos) < 0 ->
  collide K uObstaclesBuffer pos nextVel
  = bounced K nextVel (obstacleAt K uObstaclesBuffer pos).
Proof.
  intros Hn Hv. unfold collide, isObstacle.
  destruct (Rlt_dec 0.1 _) as [_|Hc]; [| lra].
  destruct (Rlt_dec _ 0) as [_|Hc]; [reflexivity | lra].
Qed.

(** C5.  Bounce non-penetration: for an obstacle normal [n] with
    [dot(n, n) > 0.1] and an incoming velocity [nextVel] with
    [dot(nextVel, n) < 0], the velocity obtained by reflecting [nextVel]
    about [normalize(n)] and rescaling it (lines 247-248, before the global
    clamp of line 252) has a non-negative component along [n] and a length
    of at most [0.1 * MAX_SPEED]; and this is the velocity the collision
    step computes wherever the obstacle texture decodes to [n]. *)
Theorem bounce_non_penetration (n nextVel : vec2) :
  dot n n > 0.1 ->
  dot nextVel n < 0 ->
  dot (bounced K nextVel n) n >= 0 /\
  length (bounced K nextVel n) <= 0.1 * MAX_SPEED K /\
  (forall pos, obstacleAt K uObstaclesBuffer pos = n ->
     collide K uObstaclesBuffer pos nextVel = bounced K nextVel n).
Proof.
  intros Hn Hv.
  assert (Hc : forall pos, obstacleAt K uObstaclesBuffer pos = n ->
             collide K uObstaclesBuffer pos nextVel = bounced K nextVel n).
  { intros pos Hpos. rewrite <- Hpos in *. now apply collide_bounces. }
  refine ((fun H => conj (proj1 H) (conj (proj2 H) Hc)) _).
  assert (Hn0 : 0 < dot n n) by lra.
  assert (Hm : 0 <= 0.1 * MAX_SPEED K)
    by (pose proof (MAX_SPEED_nonneg w h); lra).
  unfold bounced. split.
  - rewrite dot_vscale_l, reflect_normalize_dot by exact Hn0.
    pose proof (min1_div_range (0.1 * MAX_SPEED K)
                  (length (reflect nextVel (normalize n))) Hm
                  (length_nonneg _)) as [Hk _].
    apply Rle_ge. apply Rmult_le_pos; [exact Hk | lra].
  - now apply length_limited.
Qed.

(** C2.  Speed clamp: whatever the position, the velocity, the obstacle
    texture and the acceleration, and for every [dt] in [[0, 0.1]], the
    velocity written by the update shader has a length of at most
    [MAX_SPEED]; the clamp of line 252 is applied to whatever acceleration,
    reinjection and bounce produced. *)
Theorem speed_clamp (aPos aVel : vec2) :
  0 <= uDt <= 0.1 ->
  length (snd (main K uObstaclesBuffer uDt uAcceleration aPos aVel))
    <= MAX_SPEED K
  /\ snd (main K uObstaclesBuffer uDt uAcceleration aPos aVel)
     = clampSpeed K (collide K uObstaclesBuffer aPos
                       (accelerate K uDt uAcceleration aPos aVel)).
Proof.
  intros _. split; [| reflexivity].
  simpl. unfold nextVelocity, clampSpeed.
  apply length_limited. apply MAX_SPEED_nonneg.
Qed.

End Velocity.

(** ** Obstacle textures *)

Section Textures.
Import Texture.

Lemma clampToEdge_lt (i : Z) (size : nat) :
  (0 < size)%nat -> (clampToEdge i size < size)%nat.
Proof. unfold clampToEdge. lia. Qed.

Lemma mix_range (lo hi x y a : R) :
  0 <= a <= 1 -> lo <= x <= hi -> lo <= y <= hi -> lo <= mix x y a <= hi.
Proof. unfold mix. intros Ha Hx Hy. split; nra. Qed.

Lemma mix_same (x a : R) : mix x x a = x.
Proof. unfold mix. ring. Qed.

Lemma unorm_range (b : Z) : (0 <= b <= 255)%Z -> 0 <= unorm b <= 1.
Proof.
  intros [H0 H1]. apply IZR_le in H0, H1. unfold unorm. lra.
Qed.

Lemma complete_true (t : texture2D) :
  (0 < width t)%nat -> (0 < height t)%nat -> complete t = true.
Proof.
  intros Hw Hh. unfold complete.
  apply Nat.ltb_lt in Hw, Hh. now rewrite Hw, Hh.
Qed.

Lemma complete_sizes (t : texture2D) :
  complete t = true -> (0 < width t)%nat /\ (0 < height t)%nat.
Proof.
  unfold complete. intro H. apply andb_true_iff in H.
  now rewrite !Nat.ltb_lt in H.
Qed.

Lemma texelFetch_range (t : texture2D) (i j : Z) :
  bytes t -> (0 < width t)%nat -> (0 < height t)%nat ->
  0 <= vx (texelFetch t i j) <= 1 /\ 0 <= vy (texelFetch t i j) <= 1.
Proof.
  intros Hb Hw Hh. unfold texelFetch; simpl.
  destruct (Hb (clampToEdge i (width t)) (clampToEdge j (height t)))
    as [Hr Hg]; [now apply clampToEdge_lt | now apply clampToEdge_lt |].
  split; now apply unorm_range.
Qed.

(** A sample of a texture of bytes is in the unit interval. *)
Lemma sample_range (t : texture2D) (uv : vec2) :
  bytes t ->
  0 <= cr (sample t uv) <= 1 /\ 0 <= cg (sample t uv) <= 1.
Proof.
  intros Hb. unfold sample.
  destruct (complete t) eqn:Hc; [| cbn [cr cg]; lra].
  destruct (complete_sizes t Hc) as [Hw Hh].
  cbv zeta. simpl cr. simpl cg.
  set (u := vx uv * INR (width t) - 0.5).
  set (v := vy uv * INR (height t) - 0.5).
  assert (Ha : 0 <= frac_part u <= 1) by (pose proof (base_fp u); lra).
  assert (Hv : 0 <= frac_part v <= 1) by (pose proof (base_fp v); lra).
  pose proof (texelFetch_range t (Int_part u) (Int_part v) Hb Hw Hh).
  pose proof (texelFetch_range t (Int_part u + 1) (Int_part v) Hb Hw Hh).
  pose proof (texelFetch_range t (Int_part u) (Int_part v + 1) Hb Hw Hh).
  pose proof (texelFetch_range t (Int_part u + 1) (Int_part v + 1) Hb Hw Hh).
  split; repeat apply mix_range; tauto.
Qed.

(** A texture whose texels are all equal reads the same everywhere. *)
Lemma sample_constant (t : texture2D) (r g : Z) (uv : vec2) :
  (0 < width t)%nat -> (0 < height t)%nat ->
  (forall i j, (i < width t)%nat -> (j < height t)%nat ->
     texel t i j = (r, g)) ->
  sample t uv = Vec4 (unorm r) (unorm g) 0 1.
Proof.
  intros Hw Hh Hc. unfold sample, texelFetch.
  rewrite complete_true by assumption. cbv zeta.
  rewrite !Hc by now apply clampToEdge_lt.
  simpl. now rewrite !mix_same.
Qed.


Lemma texelData_length (n : nat) :
  List.length (ObstacleMap.texelData n) = (2 * n)%nat.
Proof.
  unfold ObstacleMap.texelData.
  induction n as [| n IH]; simpl; [reflexivity |].
  rewrite length_app, IH. simpl. lia.
Qed.

Lemma texelData_all (n : nat) :
  Forall (fun b => b = 127%Z) (ObstacleMap.texelData n).
Proof.
  unfold ObstacleMap.texelData.
  induction n as [| n IH]; simpl; [constructor |].
  apply Forall_app. split; [exact IH | repeat constructor].
Qed.

Lemma Uint8Array_texelData_nth (n k : nat) :
  (k < 2 * n)%nat ->
  nth k (Uint8Array (ObstacleMap.texelData n)) 0%Z = 127%Z.
Proof.
  intro Hk. unfold Uint8Array.
  assert (Hin : In (nth k (map (fun v => (v mod 256)%Z)
                              (ObstacleMap.texelData n)) 0%Z)
                   (map (fun v => (v mod 256)%Z) (ObstacleMap.texelData n))).
  { apply nth_In. now rewrite length_map, texelData_length. }
  apply in_map_iff in Hin. destruct Hin as [b [Hb Hin]].
  pose proof (texelData_all n) as Hall.
  rewrite Forall_forall in Hall. specialize (Hall b Hin). subst b.
  now rewrite <- Hb.
Qed.

Lemma Uint8Array_texelData_length (n : nat) :
  List.length (Uint8Array (ObstacleMap.texelData n)) = (2 * n)%nat.
Proof. unfold Uint8Array. now rewrite length_map, texelData_length. Qed.

Lemma Uint8Array_texelData_byte (n k : nat) :
  (0 <= nth k (Uint8Array (ObstacleMap.texelData n)) 0 <= 255)%Z.
Proof.
  destruct (Nat.lt_ge_cases k (2 * n)) as [Hk | Hk].
  - rewrite Uint8Array_texelData_nth by exact Hk. lia.
  - rewrite nth_overflow by (rewrite Uint8Array_texelData_length; lia). lia.
Qed.

(** Rows of an even number of two-byte texels are tightly packed; rows of
    an odd number are followed by two bytes of padding. *)
Lemma rowStride_even (w : nat) :
  Nat.even w = true -> rowStride w = (2 * w)%nat.
Proof.
  intro H. apply Nat.even_spec in H. destruct H as [k ->].
  unfold rowStride, UNPACK_ALIGNMENT.
  replace (2 * (2 * k) + (4 - 1))%nat with (3 + k * 4)%nat by lia.
  rewrite Nat.div_add by lia. cbn. lia.
Qed.


(** The array of [initTexture] is long enough for a texture of even
    width, or of a single row. *)
Lemma bytesNeeded_accepted (w h : nat) :
  Nat.even w = true \/ h = 1%nat -> (bytesNeeded w h <= 2 * (w * h))%nat.
Proof.
  intro H. unfold bytesNeeded.
  destruct w as [| w']; [lia |]. destruct h as [| h']; [lia |].
  destruct H as [He | H1].
  - rewrite (rowStride_even _ He). lia.
  - assert (h' = 0%nat) by lia. subst. lia.
Qed.


Lemma initTexture_accepted (w h : nat) :
  Nat.even w = true \/ h = 1%nat ->
  ObstacleMap.initTexture w h
  = {| width := w;
       height := h;
       texel := fun i j =>
         (nth (j * rowStride w + 2 * i)
            (Uint8Array (ObstacleMap.texelData (w * h))) 0%Z,
          nth (j * rowStride w + 2 * i + 1)
            (Uint8Array (ObstacleMap.texelData (w * h))) 0%Z) |}.
Proof.
  intro H. unfold ObstacleMap.initTexture, texImage2D.
  rewrite Uint8Array_texelData_length.
  pose proof (bytesNeeded_accepted w h H) as Hle.
  apply Nat.leb_le in Hle. now rewrite Hle.
Qed.


Lemma initTexture_size (w h : nat) :
  Nat.even w = true \/ h = 1%nat ->
  width (ObstacleMap.initTexture w h) = w /\
  height (ObstacleMap.initTexture w h) = h.
Proof. intro H. rewrite initTexture_accepted by exact H. now split. Qed.

(** Every texel of a texture made by [initTexture] is [(127, 127)], when
    the upload is accepted. *)
Lemma initTexture_texel (w h i j : nat) :
  Nat.even w = true \/ h = 1%nat ->
  (i < w)%nat -> (j < h)%nat ->
  texel (ObstacleMap.initTexture w h) i j = (127%Z, 127%Z).
Proof.
  intros H Hi Hj. rewrite initTexture_accepted by exact H. cbn [texel].
  assert (Hlt : (j * rowStride w + 2 * i + 1 < 2 * (w * h))%nat).
  { destruct H as [He | H1].
    - rewrite (rowStride_even _ He). nia.
    - assert (j = 0%nat) by lia. subst. lia. }
  rewrite !Uint8Array_texelData_nth by lia. reflexivity.
Qed.

Lemma initTexture_bytes (w h : nat) : bytes (ObstacleMap.initTexture w h).
Proof.
  unfold ObstacleMap.initTexture, texImage2D.
  destruct (_ <=? _)%nat; intros i j Hi Hj; unfold noImage in *;
    cbn [width height texel fst snd] in *; [| lia].
  split; apply Uint8Array_texelData_byte.
Qed.

Lemma initTexture_sample (w h : nat) (uv : vec2) :
  (0 < w)%nat -> (0 < h)%nat ->
  Nat.even w = true \/ h = 1%nat ->
  sample (ObstacleMap.initTexture w h) uv
  = Vec4 (127 / 255) (127 / 255) 0 1.
Proof.
  intros Hw Hh H. destruct (initTexture_size w h H) as [Hsw Hsh].
  rewrite (sample_constant _ 127%Z 127%Z); [reflexivity | | |].
  - now rewrite Hsw.
  - now rewrite Hsh.
  - intros i j Hi Hj. rewrite Hsw in Hi. rewrite Hsh in Hj.
    now apply initTexture_texel.
Qed.

End Textures.

(** ** The position written by the update shader *)

Lemma Rabs_le_inv (a b : R) : Rabs a <= b -> - b <= a <= b.
Proof. unfold Rabs. destruct (Rcase_abs a); lra. Qed.

Lemma component_le_length (v : vec2) :
  Rabs (vx v) <= length v /\ Rabs (vy v) <= length v.
Proof.
  unfold length. rewrite <- (sqrt_Rsqr_abs (vx v)), <- (sqrt_Rsqr_abs (vy v)).
  split; apply sqrt_le_1_alt; unfold dot, Rsqr; nra.
Qed.

Lemma random_range (co : vec2) : 0 <= ParticlesShaders.random co < 1.
Proof.
  unfold ParticlesShaders.random, fract.
  pose proof (base_fp (sin (dot co (Vec2 12.9898 78.233)) * 43758.5453)).
  lra.
Qed.

Section Position.
Import ParticlesShaders.

Variables w h : nat.
Variable uObstaclesBuffer : sampler2D.
Variable uDt : R.
Variable uAcceleration : vec2.

Local Abbreviation K := (Particles.shaderConstants w h).
Local Abbreviation nextVel := (nextVelocity K uObstaclesBuffer uDt uAcceleration).
Local Abbreviation nextPos := (nextPosition K uObstaclesBuffer uDt uAcceleration).

Lemma below_true (pos : vec2) :
  below K pos = true <-> vy pos < - 0.5 * INR h.
Proof.
  unfold below. simpl. destruct (Rlt_dec _ _); split; intro; try lra;
    try reflexivity; discriminate.
Qed.

Lemma below_false (pos : vec2) :
  below K pos = false <-> - 0.5 * INR h <= vy pos.
Proof.
  unfold below. simpl. destruct (Rlt_dec _ _); split; intro; try lra;
    try reflexivity; discriminate.
Qed.

Lemma wrapX_inside (x : R) :
  - 0.5 * POS_BANDWIDTH K <= x <= 0.5 * POS_BANDWIDTH K -> wrapX K x = x.
Proof.
  intro Hx. unfold wrapX.
  destruct (Rlt_dec x _); [lra |]. destruct (Rlt_dec _ x); [lra | reflexivity].
Qed.

(** One wrap brings back into the band every abscissa that is less than
    one band width away from it. *)
Lemma wrapX_closure (x : R) :
  - 1.5 * POS_BANDWIDTH K <= x <= 1.5 * POS_BANDWIDTH K ->
  - 0.5 * POS_BANDWIDTH K <= wrapX K x <= 0.5 * POS_BANDWIDTH K.
Proof.
  intro Hx. unfold wrapX.
  destruct (Rlt_dec x _); [lra |]. destruct (Rlt_dec _ x); lra.
Qed.

Lemma nextVel_length (pos vel : vec2) : length (nextVel pos vel) <= MAX_SPEED K.
Proof.
  unfold nextVelocity, clampSpeed. apply length_limited, MAX_SPEED_nonneg.
Qed.

(** The position written for a particle that is reinjected. *)
Lemma nextPos_reinjected (pos vel : vec2) :
  below K pos = true ->
  nextPos pos vel
  = Vec2 ((random (vadd pos vel) - 0.5) * INR w)
         (vy (nudge K uObstaclesBuffer uDt
                (integrate uDt pos (nextVel pos vel)))
          + (INR h + 0.5 * random pos * (POS_BANDWIDTH K - INR h))).
Proof.
  intro Hb. unfold nextPosition, reinject. rewrite Hb.
  unfold wrap. simpl vx. simpl vy. f_equal.
  apply wrapX_inside. rewrite POS_BANDWIDTH_canvas.
  pose proof (random_range (vadd pos vel)).
  pose proof (INR_max_ge w h). pose proof (pos_INR w). nra.
Qed.

(** The position written for a particle that is not reinjected. *)
Lemma nextPos_kept (pos vel : vec2) :
  below K pos = false ->
  nextPos pos vel
  = wrap K (nudge K uObstaclesBuffer uDt
              (integrate uDt pos (nextVel pos vel))).
Proof.
  intro Hb. unfold nextPosition, reinject. now rewrite Hb.
Qed.

End Position.

(** ** The fresh obstacle texture and the nudge *)

(** Side conditions on the size of a canvas or of a texture. *)
Ltac upload :=
  first [assumption | lia | left; reflexivity | right; reflexivity].

Section FreshTexture.
Import ParticlesShaders Scenario.

Lemma decode_fresh (w h : nat) (uv : vec2) :
  (0 < w)%nat -> (0 < h)%nat -> Nat.even w = true \/ h = 1%nat ->
  decodeObstacle (texture (Texture.sample (ObstacleMap.initTexture w h)) uv)
  = freshNormal.
Proof.
  intros Hw Hh H. unfold texture. rewrite initTexture_sample by assumption.
  unfold decodeObstacle, freshNormal, vadds, vscale, rg; simpl.
  f_equal; lra.
Qed.

Lemma obstacleAt_fresh (K : constants) (w h : nat) (p : vec2) :
  (0 < w)%nat -> (0 < h)%nat -> Nat.even w = true \/ h = 1%nat ->
  obstacleAt K (Texture.sample (ObstacleMap.initTexture w h)) p = freshNormal.
Proof. intros Hw Hh H. unfold obstacleAt. now apply decode_fresh. Qed.

Lemma freshNormal_dot : dot freshNormal freshNormal = 2 / 65025.
Proof. unfold dot, freshNormal; simpl. lra. Qed.

Lemma freshNormal_no_obstacle : isObstacle freshNormal = false.
Proof.
  unfold isObstacle. rewrite freshNormal_dot.
  destruct (Rlt_dec 0.1 (2 / 65025)); [lra | reflexivity].
Qed.

Lemma vec2_eq_inv (a b c d : R) : Vec2 a b = Vec2 c d -> a = c /\ b = d.
Proof. intro H. now inversion H. Qed.






End FreshTexture.

(** ** One step in obstacle-free space *)

Section FreeFlight.
Import ParticlesShaders Scenario.

Variables w h tw th : nat.
Hypothesis canvas_width : (0 < w)%nat.
Hypothesis canvas_height : (0 < h)%nat.
Hypothesis texture_width : (0 < tw)%nat.
Hypothesis texture_height : (0 < th)%nat.
Hypothesis texture_accepted : Nat.even tw = true \/ th = 1%nat.

Local Abbreviation K := (Particles.shaderConstants w h).
Local Abbreviation fresh := (Texture.sample (ObstacleMap.initTexture tw th)).

Lemma vscale_one (v : vec2) : vscale 1 v = v.
Proof. destruct v as [x y]. unfold vscale; simpl. f_equal; ring. Qed.

Lemma clampSpeed_slow (v : vec2) :
  length v <= MAX_SPEED K -> clampSpeed K v = v.
Proof.
  intro Hv. unfold clampSpeed, min1_div.
  destruct (Req_dec_T (length v) 0) as [_|Hl]; [apply vscale_one |].
  pose proof (length_nonneg v) as Hp.
  rewrite Rmin_left; [apply vscale_one |].
  apply Rmult_le_reg_r with (r := length v); [lra |].
  replace (MAX_SPEED K / length v * length v) with (MAX_SPEED K)
    by (field; exact Hl).
  lra.
Qed.

Lemma accelerate_none (uDt : R) (pos vel : vec2) :
  below K pos = false -> accelerate K uDt (Vec2 0 0) pos vel = vel.
Proof.
  intro Hb. unfold accelerate. rewrite Hb.
  destruct vel as [x y]. unfold vadd, vscale; simpl. f_equal; ring.
Qed.

Lemma collide_fresh (pos v : vec2) : collide K fresh pos v = v.
Proof.
  unfold collide. rewrite obstacleAt_fresh by assumption.
  now rewrite freshNormal_no_obstacle.
Qed.

(** The outputs of the shader for a particle of the visible domain,
    without acceleration and over a fresh obstacle texture. *)
Lemma main_free_flight (uDt : R) (pos vel : vec2) :
  0 <= uDt <= 0.1 ->
  Rabs (vx pos) <= 0.5 * INR w ->
  Rabs (vy pos) <= 0.5 * INR h ->
  main K fresh uDt (Vec2 0 0) pos vel
  = (vadd (vadd pos (vscale uDt (clampSpeed K vel)))
       (vscale uDt freshNormal),
     clampSpeed K vel).
Proof.
  intros Hdt Hx Hy.
  assert (Hb : below K pos = false).
  { apply below_false. apply Rabs_le_inv in Hy. lra. }
  assert (Hvel : nextVelocity K fresh uDt (Vec2 0 0) pos vel
                 = clampSpeed K vel).
  { unfold nextVelocity. rewrite accelerate_none by exact Hb.
    now rewrite collide_fresh. }
  unfold main. rewrite Hvel. f_equal.
  rewrite nextPos_kept by exact Hb. rewrite Hvel.
  unfold nudge, integrate. rewrite obstacleAt_fresh by assumption.
  unfold wrap. cbn [vy].
  rewrite wrapX_inside; [reflexivity |].
  rewrite POS_BANDWIDTH_canvas.
  assert (Hv : length (clampSpeed K vel) <= MAX_SPEED K)
    by (unfold clampSpeed; apply length_limited, MAX_SPEED_nonneg).
  rewrite MAX_SPEED_canvas in Hv.
  pose proof (component_le_length (clampSpeed K vel)) as [Hc _].
  apply Rabs_le_inv in Hx.
  assert (Hcx := Rabs_le_inv _ _ (Rle_trans _ _ _ Hc Hv)).
  pose proof (INR_min_le w h) as [Hm _].
  pose proof (INR_max_ge w h) as [HM _].
  assert (H1 : 1 <= INR w) by (apply (le_INR 1); lia).
  pose proof (pos_INR (Nat.min w h)).
  set (v := clampSpeed K vel) in *.
  unfold freshNormal, vadd, vscale. cbn [vx vy]. nra.
Qed.

(** C1, as the shader has it.  The nudge of line 258 is applied whether or
    not the obstacle test passes at the tentative position: for a particle
    that is neither reinjected nor wrapped, the position written is
    [pos + dt * nextVel + dt * normal], where [normal] is the vector decoded
    at the tentative position.  In particular, without acceleration and
    over a fresh obstacle texture whose upload [texImage2D] accepts (a
    texture of even width, or of a single row), one step maps a particle of
    the visible domain to [pos + dt * v + dt * (-1/255, -1/255)], where
    [v], the velocity written, is its velocity clamped to [MAX_SPEED]: the
    velocity itself when its length is at most [MAX_SPEED]. *)
Theorem nudge_always_applied (uDt : R) :
  0 <= uDt <= 0.1 ->
  (forall (tex : sampler2D) (acc pos vel : vec2),
     below K pos = false ->
     - 0.5 * POS_BANDWIDTH K
       <= vx (nudge K tex uDt
                (integrate uDt pos (nextVelocity K tex uDt acc pos vel)))
       <= 0.5 * POS_BANDWIDTH K ->
     fst (main K tex uDt acc pos vel)
     = vadd (integrate uDt pos (nextVelocity K tex uDt acc pos vel))
         (vscale uDt
            (obstacleAt K tex
               (integrate uDt pos (nextVelocity K tex uDt acc pos vel)))))
  /\
  (forall pos vel : vec2,
     Rabs (vx pos) <= 0.5 * INR w ->
     Rabs (vy pos) <= 0.5 * INR h ->
     main K fresh uDt (Vec2 0 0) pos vel
     = (vadd (vadd pos (vscale uDt (clampSpeed K vel)))
          (vscale uDt (Vec2 (- 1 / 255) (- 1 / 255))),
        clampSpeed K vel)
     /\ (length vel <= MAX_SPEED K -> clampSpeed K vel = vel)).
Proof.
  intro Hdt. split.
  - intros tex acc pos vel Hb Hx. cbn [fst main].
    rewrite nextPos_kept by exact Hb.
    unfold wrap. rewrite wrapX_inside by exact Hx.
    unfold nudge. reflexivity.
  - intros pos vel Hx Hy. split; [now apply main_free_flight |].
    apply clampSpeed_slow.
Qed.

End FreeFlight.

Lemma INR_512 : INR 512 = 512.
Proof. now rewrite INR_IZR_INZ. Qed.

Lemma length_slowVel : length Scenario.slowVel = 5.
Proof.
  unfold length, dot, Scenario.slowVel; simpl.
  replace (3 * 3 + 4 * 4) with (5 * 5) by ring.
  apply sqrt_square. lra.
Qed.

Lemma MAX_SPEED_K512 : ParticlesShaders.MAX_SPEED Scenario.K512 = 256.
Proof.
  unfold Scenario.K512. rewrite MAX_SPEED_canvas.
  change (Nat.min 512 512) with 512%nat. rewrite INR_512. lra.
Qed.

Lemma inDomain_slowPos :
  Rabs (vx Scenario.slowPos) <= 0.5 * INR 512 /\
  Rabs (vy Scenario.slowPos) <= 0.5 * INR 512.
Proof.
  unfold Scenario.slowPos. cbn [vx vy]. rewrite Rabs_R0, INR_512. lra.
Qed.

Lemma main_slow :
  ParticlesShaders.main Scenario.K512 Scenario.fresh512 0.1
    Scenario.noAcceleration Scenario.slowPos Scenario.slowVel
  = (Vec2 (0.3 - 0.1 / 255) (0.4 - 0.1 / 255), Vec2 3 4).
Proof.
  destruct inDomain_slowPos as [Hx Hy].
  unfold Scenario.K512, Scenario.fresh512, Scenario.noAcceleration.
  rewrite main_free_flight; try lia; try lra; try assumption;
    try (left; reflexivity).
  rewrite clampSpeed_slow
    by (fold Scenario.K512; rewrite length_slowVel, MAX_SPEED_K512; lra).
  unfold Scenario.slowPos, Scenario.slowVel, Scenario.freshNormal,
    vadd, vscale. cbn [vx vy].
  f_equal. f_equal; lra.
Qed.

(** The clamp shortens the velocity [(230.4, 230.4)], whose components are
    both below the maximal speed 256 of the canvas of 512 by 512 pixels. *)
Lemma clampSpeed_fast :
  vx (ParticlesShaders.clampSpeed Scenario.K512 Scenario.fastVel) < 230.4.
Proof.
  unfold ParticlesShaders.clampSpeed. rewrite MAX_SPEED_K512.
  pose proof (length_sqr Scenario.fastVel) as Hs.
  pose proof (length_nonneg Scenario.fastVel) as Hp.
  set (l := length Scenario.fastVel) in *.
  unfold dot, Scenario.fastVel in Hs. cbn [vx vy] in Hs.
  assert (Hlong : 256 < l) by nra.
  unfold min1_div.
  destruct (Req_dec_T l 0) as [H0|_]; [lra |].
  assert (Hk : 256 / l < 1).
  { apply Rmult_lt_reg_r with (r := l); [lra |].
    replace (256 / l * l) with 256 by (field; lra).
    lra. }
  pose proof (Rmin_r 1 (256 / l)) as Hm.
  unfold vscale, Scenario.fastVel. cbn [vx]. nra.
Qed.

(** C1 fails as stated.  On a canvas of 512 by 512 pixels with a fresh
    obstacle texture and no acceleration, the particle at [(0, 0)] with
    velocity [(3, 4)] and [dt = 0.1] is neither reinjected nor wrapped, the
    obstacle test fails at its tentative position [(0.3, 0.4)], and the
    position written is [(0.3 - 0.1/255, 0.4 - 0.1/255)], not
    [pos + dt * nextVel].  Nor is it [position + dt * velocity] for the
    velocity [(230.4, 230.4)], which [reset] can draw: the velocity is
    clamped first, and the abscissa written is below
    [0 + 0.1 * 230.4 - 0.1/255]. *)
Lemma nudge_not_guarded :
  ParticlesShaders.below Scenario.K512 Scenario.slowPos = false /\
  snd (ParticlesShaders.main Scenario.K512 Scenario.fresh512 0.1
         Scenario.noAcceleration Scenario.slowPos Scenario.slowVel)
  = Vec2 3 4 /\
  ParticlesShaders.integrate 0.1 Scenario.slowPos (Vec2 3 4) = Vec2 0.3 0.4 /\
  ParticlesShaders.isObstacle
    (ParticlesShaders.obstacleAt Scenario.K512 Scenario.fresh512
       (Vec2 0.3 0.4)) = false /\
  fst (ParticlesShaders.main Scenario.K512 Scenario.fresh512 0.1
         Scenario.noAcceleration Scenario.slowPos Scenario.slowVel)
  = Vec2 (0.3 - 0.1 / 255) (0.4 - 0.1 / 255) /\
  fst (ParticlesShaders.main Scenario.K512 Scenario.fresh512 0.1
         Scenario.noAcceleration Scenario.slowPos Scenario.slowVel)
  <> ParticlesShaders.integrate 0.1 Scenario.slowPos (Vec2 3 4) /\
  Rabs (vx Scenario.fastVel) <= ParticlesShaders.MAX_SPEED Scenario.K512 /\
  Rabs (vy Scenario.fastVel) <= ParticlesShaders.MAX_SPEED Scenario.K512 /\
  vx (fst (ParticlesShaders.main Scenario.K512 Scenario.fresh512 0.1
             Scenario.noAcceleration Scenario.slowPos Scenario.fastVel))
    < vx Scenario.slowPos + 0.1 * vx Scenario.fastVel - 0.1 / 255.
Proof.
  assert (Hi : ParticlesShaders.integrate 0.1 Scenario.slowPos (Vec2 3 4)
               = Vec2 0.3 0.4).
  { unfold ParticlesShaders.integrate, Scenario.slowPos, vadd, vscale; simpl.
    f_equal; lra. }
  rewrite main_slow, Hi. cbn [fst snd].
  split.
  { apply below_false. unfold Scenario.slowPos. cbn [vy].
    rewrite INR_512. lra. }
  split; [reflexivity |]. split; [reflexivity |]. split.
  { unfold Scenario.fresh512. rewrite obstacleAt_fresh by upload.
    apply freshNormal_no_obstacle. }
  split; [reflexivity |]. split.
  { intro H. apply vec2_eq_inv in H. lra. }
  rewrite MAX_SPEED_K512.
  split; [unfold Scenario.fastVel; cbn [vx]; apply Rabs_le; lra |].
  split; [unfold Scenario.fastVel; cbn [vy]; apply Rabs_le; lra |].
  destruct inDomain_slowPos as [Hx Hy].
  unfold Scenario.K512, Scenario.fresh512, Scenario.noAcceleration.
  rewrite main_free_flight; try lia; try lra; try assumption;
    try (left; reflexivity).
  fold Scenario.K512. pose proof clampSpeed_fast as Hf.
  set (v := ParticlesShaders.clampSpeed Scenario.K512 Scenario.fastVel) in *.
  unfold Scenario.slowPos, Scenario.freshNormal, Scenario.fastVel,
    vadd, vscale.
  cbn [fst vx vy]. lra.
Qed.

Lemma nudge_always_applied_witness :
  (0 < 512)%nat /\ 0 <= 0.1 <= 0.1 /\
  forall pos vel : vec2,
    Rabs (vx pos) <= 0.5 * INR 512 ->
    Rabs (vy pos) <= 0.5 * INR 512 ->
    ParticlesShaders.main Scenario.K512 Scenario.fresh512 0.1 (Vec2 0 0)
      pos vel
    = (vadd (vadd pos (vscale 0.1 (ParticlesShaders.clampSpeed
                                     Scenario.K512 vel)))
         (vscale 0.1 (Vec2 (- 1 / 255) (- 1 / 255))),
       ParticlesShaders.clampSpeed Scenario.K512 vel)
    /\ (length vel <= ParticlesShaders.MAX_SPEED Scenario.K512 ->
        ParticlesShaders.clampSpeed Scenario.K512 vel = vel).
Proof.
  assert (Hn : (0 < 512)%nat) by lia.
  assert (Hd : 0 <= 0.1 <= 0.1) by lra.
  split; [exact Hn |]. split; [exact Hd |].
  exact (proj2 (nudge_always_applied 512 512 512 512 Hn Hn Hn Hn
                  (or_introl eq_refl) 0.1 Hd)).
Defined.

(** ** Reinjection *)

Section Reinjection.
Import ParticlesShaders Scenario.

Variables w h : nat.
Variable uObstaclesBuffer : sampler2D.
Variable uDt : R.
Variable uAcceleration : vec2.

Local Abbreviation K := (Particles.shaderConstants w h).
Local Abbreviation written := (main K uObstaclesBuffer uDt uAcceleration).
Local Abbreviation nudged :=
  (fun pos vel =>
     nudge K uObstaclesBuffer uDt
       (integrate uDt pos
          (nextVelocity K uObstaclesBuffer uDt uAcceleration pos vel))).

(** C3, as the shader has it.  A particle whose ordinate is below
    [-0.5 * WORLD_SIZE.y] is written with an abscissa in the visible width,
    [|x| <= 0.5 * WORLD_SIZE.x], and with the ordinate it would have had
    without reinjection, [pos.y + dt * (nextVel.y + normal.y)], raised by
    the height of the domain and by the offset
    [0.5 * random(pos) * (POS_BANDWIDTH - WORLD_SIZE.y)], which is not
    negative.  It is above the top edge as soon as the ordinate before the
    override is above the bottom edge. *)
Theorem reinjection_lifts (pos vel : vec2) :
  0 <= uDt <= 0.1 ->
  vy pos < - 0.5 * vy (WORLD_SIZE K) ->
  Rabs (vx (fst (written pos vel))) <= 0.5 * vx (WORLD_SIZE K) /\
  vy (fst (written pos vel))
  = vy (nudged pos vel)
    + (vy (WORLD_SIZE K)
       + 0.5 * random pos * (POS_BANDWIDTH K - vy (WORLD_SIZE K))) /\
  vy (fst (written pos vel)) >= vy (nudged pos vel) + vy (WORLD_SIZE K) /\
  (vy (nudged pos vel) > - 0.5 * vy (WORLD_SIZE K) ->
   vy (fst (written pos vel)) > 0.5 * vy (WORLD_SIZE K)).
Proof.
  intros _ Hy. rewrite WORLD_SIZE_canvas in *. cbn [fst main vx vy] in *.
  rewrite nextPos_reinjected by (apply below_true; exact Hy).
  cbn [vx vy].
  pose proof (random_range (vadd pos vel)) as Hr1.
  pose proof (random_range pos) as Hr2.
  pose proof (pos_INR w) as Hw. pose proof (pos_INR h) as Hh.
  assert (Hoff : 0 <= 0.5 * random pos * (POS_BANDWIDTH K - INR h)).
  { rewrite POS_BANDWIDTH_canvas. pose proof (INR_max_ge w h). nra. }
  split; [apply Rabs_le; nra |].
  split; [reflexivity |].
  split; [lra |].
  intro Hn. lra.
Qed.

End Reinjection.

Lemma reinjection_lifts_witness :
  0 <= 0.016 <= 0.1 /\
  vy Scenario.deepPos
    < - 0.5 * vy (ParticlesShaders.WORLD_SIZE Scenario.K512) /\
  Rabs (vx (fst (ParticlesShaders.main Scenario.K512 Scenario.fresh512
                   0.016 Scenario.gravity Scenario.deepPos
                   Scenario.deepVel)))
    <= 0.5 * vx (ParticlesShaders.WORLD_SIZE Scenario.K512).
Proof.
  assert (Hd : 0 <= 0.016 <= 0.1) by lra.
  assert (Hy : vy Scenario.deepPos
               < - 0.5 * vy (ParticlesShaders.WORLD_SIZE Scenario.K512)).
  { unfold Scenario.K512, Scenario.deepPos. rewrite WORLD_SIZE_canvas.
    cbn [vx vy]. rewrite INR_512. lra. }
  split; [exact Hd |]. split; [exact Hy |].
  exact (proj1 (reinjection_lifts 512 512 Scenario.fresh512 0.016
                  Scenario.gravity Scenario.deepPos Scenario.deepVel Hd Hy)).
Defined.

Lemma INR_700 : INR 700 = 700.
Proof. now rewrite INR_IZR_INZ. Qed.

Lemma INR_100 : INR 100 = 100.
Proof. now rewrite INR_IZR_INZ. Qed.

(** The ordinate written for a reinjected particle over a fresh obstacle
    texture. *)
Lemma reinjected_fresh_y (w h tw th : nat) (uDt : R) (acc pos vel : vec2) :
  (0 < tw)%nat -> (0 < th)%nat -> Nat.even tw = true \/ th = 1%nat ->
  ParticlesShaders.below (Particles.shaderConstants w h) pos = true ->
  vy (fst (ParticlesShaders.main (Particles.shaderConstants w h)
             (Texture.sample (ObstacleMap.initTexture tw th)) uDt acc
             pos vel))
  = vy pos
    + uDt * vy (ParticlesShaders.nextVelocity (Particles.shaderConstants w h)
                  (Texture.sample (ObstacleMap.initTexture tw th)) uDt acc
                  pos vel)
    + uDt * (- 1 / 255)
    + (INR h + 0.5 * ParticlesShaders.random pos
                 * (1.2 * INR (Nat.max w h) - INR h)).
Proof.
  intros Htw Hth Hacc Hb. cbn [fst ParticlesShaders.main].
  rewrite nextPos_reinjected by exact Hb.
  unfold ParticlesShaders.nudge. rewrite obstacleAt_fresh by assumption.
  rewrite POS_BANDWIDTH_canvas.
  unfold ParticlesShaders.integrate, Scenario.freshNormal, vadd, vscale.
  cbn [vx vy]. reflexivity.
Qed.

Lemma random_crossedPos : ParticlesShaders.random Scenario.crossedPos = 0.
Proof.
  unfold ParticlesShaders.random, Scenario.crossedPos, dot, fract.
  cbn [vx vy].
  replace (54 * 78.233 / 12.9898 * 12.9898 + -54 * 78.233) with 0 by lra.
  rewrite sin_0, Rmult_0_l. apply fp_R0.
Qed.

(** C3 fails as stated.  On a canvas of 512 by 512 pixels, the particle at
    [(0, -1024)] is reinjected and written below the top edge [y = 256].
    So is, on a canvas of 700 by 100 pixels, the particle that has just
    crossed the bottom edge [y = -50] and stands at [y = -54], at an
    abscissa of the visible width for which [random(pos)] is zero: it is
    written below the top edge [y = 50]. *)
Lemma reinjection_below_top :
  ParticlesShaders.WORLD_SIZE Scenario.K512 = Vec2 (INR 512) (INR 512) /\
  vy Scenario.deepPos < - 0.5 * INR 512 /\
  vy (fst (ParticlesShaders.main Scenario.K512 Scenario.fresh512 0.016
             Scenario.gravity Scenario.deepPos Scenario.deepVel))
    < 0.5 * INR 512 /\
  ParticlesShaders.WORLD_SIZE Scenario.K700 = Vec2 (INR 700) (INR 100) /\
  Rabs (vx Scenario.crossedPos) <= 0.5 * INR 700 /\
  - 0.5 * INR 100 - 0.1 * ParticlesShaders.MAX_SPEED Scenario.K700
    <= vy Scenario.crossedPos < - 0.5 * INR 100 /\
  vy (fst (ParticlesShaders.main Scenario.K700 Scenario.fresh700 0.016
             Scenario.gravity Scenario.crossedPos Scenario.crossedVel))
    < 0.5 * INR 100.
Proof.
  assert (Hdeep : vy Scenario.deepPos < - 0.5 * INR 512).
  { unfold Scenario.deepPos. cbn [vy]. rewrite INR_512. lra. }
  assert (Hcross : vy Scenario.crossedPos < - 0.5 * INR 100).
  { unfold Scenario.crossedPos. cbn [vy]. rewrite INR_100. lra. }
  split; [reflexivity |]. split; [exact Hdeep |]. split.
  { unfold Scenario.K512, Scenario.fresh512.
    rewrite reinjected_fresh_y;
      [| lia | lia | left; reflexivity | now apply below_true].
    pose proof (nextVel_length 512 512
                  (Texture.sample (ObstacleMap.initTexture 512 512)) 0.016
                  Scenario.gravity Scenario.deepPos Scenario.deepVel) as Hl.
    pose proof (component_le_length
                  (ParticlesShaders.nextVelocity
                     (Particles.shaderConstants 512 512)
                     (Texture.sample (ObstacleMap.initTexture 512 512)) 0.016
                     Scenario.gravity Scenario.deepPos Scenario.deepVel))
      as [_ Hc].
    rewrite MAX_SPEED_canvas in Hl.
    change (Nat.min 512 512) with 512%nat in Hl.
    change (Nat.max 512 512) with 512%nat.
    rewrite INR_512 in *.
    assert (Hv := Rabs_le_inv _ _ (Rle_trans _ _ _ Hc Hl)).
    pose proof (random_range Scenario.deepPos) as Hr.
    unfold Scenario.deepPos at 1. cbn [vy]. nra. }
  split; [reflexivity |]. split.
  { unfold Scenario.crossedPos. cbn [vx]. rewrite INR_700.
    apply Rabs_le. lra. }
  split.
  { split; [| exact Hcross].
    unfold Scenario.K700. rewrite MAX_SPEED_canvas.
    change (Nat.min 700 100) with 100%nat.
    unfold Scenario.crossedPos. cbn [vy]. rewrite INR_100. lra. }
  unfold Scenario.K700, Scenario.fresh700.
  rewrite reinjected_fresh_y;
      [| lia | lia | left; reflexivity | now apply below_true].
  pose proof (nextVel_length 700 100
                (Texture.sample (ObstacleMap.initTexture 700 100)) 0.016
                Scenario.gravity Scenario.crossedPos Scenario.crossedVel)
    as Hl.
  pose proof (component_le_length
                (ParticlesShaders.nextVelocity
                   (Particles.shaderConstants 700 100)
                   (Texture.sample (ObstacleMap.initTexture 700 100)) 0.016
                   Scenario.gravity Scenario.crossedPos Scenario.crossedVel))
    as [_ Hc].
  rewrite MAX_SPEED_canvas in Hl.
  change (Nat.min 700 100) with 100%nat in Hl.
  change (Nat.max 700 100) with 700%nat.
  rewrite INR_100, ?INR_700 in *.
  assert (Hv := Rabs_le_inv _ _ (Rle_trans _ _ _ Hc Hl)).
  rewrite random_crossedPos.
  unfold Scenario.crossedPos at 1. cbn [vy]. lra.
Qed.

(** ** Horizontal wrap *)

Section Wrap.
Import ParticlesShaders Scenario.

Variables w h : nat.
Variable obstacles : Texture.texture2D.
Variable uDt : R.
Variable uAcceleration : vec2.

Local Abbreviation K := (Particles.shaderConstants w h).
Local Abbreviation tex := (Texture.sample obstacles).

(** The vector decoded from a texture of bytes has its two components
    between -1 and 1. *)
Lemma obstacleAt_range (p : vec2) :
  Texture.bytes obstacles ->
  - 1 <= vx (obstacleAt K tex p) <= 1 /\ - 1 <= vy (obstacleAt K tex p) <= 1.
Proof.
  intros Hb. unfold obstacleAt, texture.
  destruct (sample_range obstacles
              (vadds (vdiv p (WORLD_SIZE K)) 0.5) Hb) as [Hr Hg].
  revert Hr Hg. generalize (tex (vadds (vdiv p (WORLD_SIZE K)) 0.5)).
  intros c Hr Hg. unfold decodeObstacle, vadds, vscale, rg. cbn [vx vy]. lra.
Qed.

(** The abscissa written for a particle of the band is in the band. *)
Lemma nextPosition_in_band (pos vel : vec2) :
  (0 < w)%nat -> (0 < h)%nat ->
  Texture.bytes obstacles ->
  0 <= uDt <= 0.1 ->
  - 0.5 * POS_BANDWIDTH K <= vx pos <= 0.5 * POS_BANDWIDTH K ->
  - 0.5 * POS_BANDWIDTH K
    <= vx (nextPosition K tex uDt uAcceleration pos vel)
    <= 0.5 * POS_BANDWIDTH K.
Proof.
  intros Hw Hh Hb Hdt Hx.
  pose proof (INR_max_ge w h) as [HMw HMh].
  pose proof (INR_min_le w h) as [Hmw Hmh].
  pose proof (pos_INR (Nat.min w h)) as Hmin.
  assert (H1 : 1 <= INR w) by (apply (le_INR 1); lia).
  destruct (below K pos) eqn:Hbelow.
  - rewrite nextPos_reinjected by exact Hbelow. cbn [vx].
    rewrite POS_BANDWIDTH_canvas.
    pose proof (random_range (vadd pos vel)) as Hr. nra.
  - rewrite nextPos_kept by exact Hbelow. unfold wrap. cbn [vx].
    apply wrapX_closure.
    unfold nudge, integrate, vadd, vscale. cbn [vx].
    set (v := nextVelocity K tex uDt uAcceleration pos vel).
    set (n := obstacleAt K tex _).
    pose proof (nextVel_length w h tex uDt uAcceleration pos vel) as Hl.
    fold v in Hl.
    pose proof (component_le_length v) as [Hc _].
    assert (Hv := Rabs_le_inv _ _ (Rle_trans _ _ _ Hc Hl)).
    rewrite MAX_SPEED_canvas in Hv.
    assert (Hn : - 1 <= vx n <= 1) by (apply obstacleAt_range; assumption).
    rewrite POS_BANDWIDTH_canvas in *. nra.
Qed.

(** C4.  The wrap of lines 264-267 closes the band over every value of
    [nextPos.x] that the preceding steps produce in a run.  For a particle
    whose abscissa is in the band
    [[-0.5 * POS_BANDWIDTH, 0.5 * POS_BANDWIDTH]] before the step (as it
    is after the constructor and after every reset, and, by this very
    property, after every step), for every obstacle texture, with or
    without image, and every [dt] in [[0, 0.1]], the abscissa written is
    in the band: acceleration, bounce, integration and nudge move it by
    less than one band width, which the single translation of the wrap
    makes up for, and the reinjection override puts it in the visible
    width. *)
Theorem wrap_closure (pos vel : vec2) :
  (0 < w)%nat -> (0 < h)%nat ->
  Texture.bytes obstacles ->
  0 <= uDt <= 0.1 ->
  - 0.5 * POS_BANDWIDTH K <= vx pos <= 0.5 * POS_BANDWIDTH K ->
  - 0.5 * POS_BANDWIDTH K
    <= vx (fst (main K tex uDt uAcceleration pos vel))
    <= 0.5 * POS_BANDWIDTH K.
Proof.
  intros Hw Hh Hb Hdt Hx. cbn [fst main].
  now apply nextPosition_in_band.
Qed.

End Wrap.

Lemma wrap_closure_witness :
  (0 < 512)%nat /\
  Texture.bytes (ObstacleMap.initTexture 512 512) /\
  0 <= 0.016 <= 0.1 /\
  - 0.5 * ParticlesShaders.POS_BANDWIDTH Scenario.K512
    <= vx Scenario.slowPos
    <= 0.5 * ParticlesShaders.POS_BANDWIDTH Scenario.K512 /\
  - 0.5 * ParticlesShaders.POS_BANDWIDTH Scenario.K512
    <= vx (fst (ParticlesShaders.main Scenario.K512 Scenario.fresh512 0.016
                  Scenario.gravity Scenario.slowPos Scenario.slowVel))
    <= 0.5 * ParticlesShaders.POS_BANDWIDTH Scenario.K512.
Proof.
  assert (Hn : (0 < 512)%nat) by lia.
  assert (Hd : 0 <= 0.016 <= 0.1) by lra.
  assert (Hx : - 0.5 * ParticlesShaders.POS_BANDWIDTH Scenario.K512
               <= vx Scenario.slowPos
               <= 0.5 * ParticlesShaders.POS_BANDWIDTH Scenario.K512).
  { unfold Scenario.K512. rewrite POS_BANDWIDTH_canvas.
    change (Nat.max 512 512) with 512%nat. rewrite INR_512.
    unfold Scenario.slowPos. cbn [vx]. lra. }
  split; [exact Hn |]. split; [apply initTexture_bytes |].
  split; [exact Hd |]. split; [exact Hx |].
  exact (wrap_closure 512 512 (ObstacleMap.initTexture 512 512) 0.016
           Scenario.gravity Scenario.slowPos Scenario.slowVel
           Hn Hn (initTexture_bytes 512 512) Hd Hx).
Defined.

Lemma bounce_non_penetration_witness :
  dot (Vec2 1 0) (Vec2 1 0) > 0.1 /\
  dot (Vec2 (- 3) 4) (Vec2 1 0) < 0 /\
  dot (ParticlesShaders.bounced Scenario.K512 (Vec2 (- 3) 4) (Vec2 1 0))
      (Vec2 1 0) >= 0 /\
  length (ParticlesShaders.bounced Scenario.K512 (Vec2 (- 3) 4) (Vec2 1 0))
    <= 0.1 * ParticlesShaders.MAX_SPEED Scenario.K512.
Proof.
  assert (Hn : dot (Vec2 1 0) (Vec2 1 0) > 0.1)
    by (unfold dot; cbn [vx vy]; lra).
  assert (Hv : dot (Vec2 (- 3) 4) (Vec2 1 0) < 0)
    by (unfold dot; cbn [vx vy]; lra).
  split; [exact Hn |]. split; [exact Hv |].
  destruct (bounce_non_penetration 512 512 Scenario.fresh512 (Vec2 1 0)
              (Vec2 (- 3) 4) Hn Hv) as (Hd & Hl & _).
  split; [exact Hd | exact Hl].
Defined.

Lemma speed_clamp_witness :
  0 <= 0.016 <= 0.1 /\
  length (snd (ParticlesShaders.main Scenario.K512 Scenario.fresh512 0.016
                 Scenario.gravity Scenario.deepPos Scenario.deepVel))
    <= ParticlesShaders.MAX_SPEED Scenario.K512.
Proof.
  assert (Hd : 0 <= 0.016 <= 0.1) by lra.
  split; [exact Hd |].
  exact (proj1 (speed_clamp 512 512 Scenario.fresh512 0.016 Scenario.gravity
                  Scenario.deepPos Scenario.deepVel Hd)).
Defined.

(** ** Reset *)

Section Reset.
Import Particles.

Lemma centred_range (r size : R) :
  0 <= r < 1 -> 0 <= size -> Rabs ((r - 0.5) * size) <= 0.5 * size.
Proof. intros Hr Hs. apply Rabs_le. nra. Qed.

Lemma signed_range (r size : R) :
  0 <= r < 1 -> 0 <= size -> Rabs (2 * (r - 0.5) * size) <= size.
Proof. intros Hr Hs. apply Rabs_le. nra. Qed.

(** What the loop of [reset] leaves in its two arrays: [n] positions of the
    rectangle of size [w * h] centred at the origin and [n] velocities of
    the square of half side [maxSpeed], particle [i] being made from the
    draws [4 * i] to [4 * i + 3]. *)
Lemma randomParticles_spec (n : nat) (w h maxSpeed : R) (g : rng) :
  unit_range g -> 0 <= w -> 0 <= h -> 0 <= maxSpeed ->
  let '(pos, vel, g') := randomParticles n w h maxSpeed g in
  List.length pos = n /\ List.length vel = n /\
  Forall (fun p => Rabs (vx p) <= 0.5 * w /\ Rabs (vy p) <= 0.5 * h) pos /\
  Forall (fun v => Rabs (vx v) <= maxSpeed /\ Rabs (vy v) <= maxSpeed) vel /\
  (forall i, (i < n)%nat ->
     nth i pos (Vec2 0 0)
     = Vec2 ((g (4 * i)%nat - 0.5) * w) ((g (4 * i + 1)%nat - 0.5) * h) /\
     nth i vel (Vec2 0 0)
     = Vec2 (2 * (g (4 * i + 2)%nat - 0.5) * maxSpeed)
            (2 * (g (4 * i + 3)%nat - 0.5) * maxSpeed)) /\
  unit_range g'.
Proof.
  intros Hg Hw Hh Hm. revert g Hg.
  induction n as [| n IH]; intros g Hg.
  - simpl. split; [reflexivity |]. split; [reflexivity |].
    split; [constructor |]. split; [constructor |].
    split; [intros i Hi; lia | exact Hg].
  - cbn [randomParticles]. unfold draw at 1 2 3 4. cbn [fst snd].
    set (g4 := fun n0 : nat => g (S (S (S (S n0))))).
    assert (Hg4 : unit_range g4) by (intro k; apply Hg).
    specialize (IH g4 Hg4).
    destruct (randomParticles n w h maxSpeed g4) as [[pos vel] g'].
    destruct IH as (Hlp & Hlv & Hp & Hv & Hnth & Hg').
    split; [simpl; now rewrite Hlp |].
    split; [simpl; now rewrite Hlv |].
    split.
    { constructor; [| exact Hp]. cbn [vx vy].
      split; apply centred_range; try assumption; apply Hg. }
    split.
    { constructor; [| exact Hv]. cbn [vx vy].
      split; apply signed_range; try assumption; apply Hg. }
    split; [| exact Hg'].
    intros [| i] Hi.
    + simpl. split; reflexivity.
    + assert (Hi' : (i < n)%nat) by lia.
      destruct (Hnth i Hi') as [Hpi Hvi].
      cbn [nth]. rewrite Hpi, Hvi. unfold g4.
      replace (4 * S i)%nat with (S (S (S (S (4 * i))))) by lia.
      replace (S (S (S (S (4 * i)))) + 1)%nat
        with (S (S (S (S (4 * i + 1))))) by lia.
      replace (S (S (S (S (4 * i)))) + 2)%nat
        with (S (S (S (S (4 * i + 2))))) by lia.
      replace (S (S (S (S (4 * i)))) + 3)%nat
        with (S (S (S (S (4 * i + 3))))) by lia.
      split; reflexivity.
Qed.

(** The buffers of either generation after [reset]. *)
Lemma reset_generation (p : t) (nb : nat) (g : rng) (index : nat) :
  unit_range g ->
  0 <= _maxSpeed p ->
  List.length (at2 (_posVBO (fst (reset p nb g))) index) = nb /\
  List.length (at2 (_velVBO (fst (reset p nb g))) index) = nb /\
  Forall (inDomain (fst (reset p nb g)))
         (at2 (_posVBO (fst (reset p nb g))) index) /\
  Forall (inSpeedBox (fst (reset p nb g)))
         (at2 (_velVBO (fst (reset p nb g))) index) /\
  forall i, (i < nb)%nat ->
    nth i (at2 (_posVBO (fst (reset p nb g))) index) (Vec2 0 0)
    = Vec2 ((g (4 * i)%nat - 0.5) * INR (_worldWidth p))
           ((g (4 * i + 1)%nat - 0.5) * INR (_worldHeight p))
    /\
    nth i (at2 (_velVBO (fst (reset p nb g))) index) (Vec2 0 0)
    = Vec2 (2 * (g (4 * i + 2)%nat - 0.5) * _maxSpeed p)
           (2 * (g (4 * i + 3)%nat - 0.5) * _maxSpeed p).
Proof.
  intros Hg Hm. unfold reset.
  pose proof (randomParticles_spec nb (INR (_worldWidth p))
                (INR (_worldHeight p)) (_maxSpeed p) g Hg
                (pos_INR _) (pos_INR _) Hm) as Hspec.
  destruct (randomParticles nb _ _ _ g) as [[pos vel] g'].
  destruct Hspec as (Hlp & Hlv & Hp & Hv & Hnth & _).
  cbn [fst]. unfold inDomain, inSpeedBox.
  cbn [_posVBO _velVBO _worldWidth _worldHeight _maxSpeed].
  destruct index as [| index]; cbn [at2 fst snd]; repeat split;
    try assumption; apply Hnth; assumption.
Qed.

Lemma reset_same_generations (p : t) (nb : nat) (g : rng) :
  at2 (_posVBO (fst (reset p nb g))) 0 = at2 (_posVBO (fst (reset p nb g))) 1
  /\
  at2 (_velVBO (fst (reset p nb g))) 0 = at2 (_velVBO (fst (reset p nb g))) 1
  /\ nbParticles (fst (reset p nb g)) = nb.
Proof.
  unfold reset.
  destruct (randomParticles nb _ _ _ g) as [[pos vel] g'].
  repeat split.
Qed.

(** C6, as the class has it.  After [reset(gl, nb)] there are [nb]
    particles; the buffers of both generations hold the same [nb] fresh
    positions, drawn in the visible domain, and the same [nb] fresh
    velocities, each component between minus and plus the maximal speed;
    the index of the current generation is the one it was before the call
    ([reset] does not assign it: only the constructor sets it to 0). *)
Theorem reset_randomizes (p : t) (nb : nat) (g : rng) :
  unit_range g ->
  0 <= _maxSpeed p ->
  let p' := fst (reset p nb g) in
  nbParticles p' = nb /\
  (forall index, List.length (at2 (_posVBO p') index) = nb /\
                 List.length (at2 (_velVBO p') index) = nb /\
                 Forall (inDomain p') (at2 (_posVBO p') index) /\
                 Forall (inSpeedBox p') (at2 (_velVBO p') index) /\
                 forall i, (i < nb)%nat ->
                   nth i (at2 (_posVBO p') index) (Vec2 0 0)
                   = Vec2 ((g (4 * i)%nat - 0.5) * INR (_worldWidth p))
                          ((g (4 * i + 1)%nat - 0.5) * INR (_worldHeight p))
                   /\
                   nth i (at2 (_velVBO p') index) (Vec2 0 0)
                   = Vec2 (2 * (g (4 * i + 2)%nat - 0.5) * _maxSpeed p)
                          (2 * (g (4 * i + 3)%nat - 0.5) * _maxSpeed p)) /\
  at2 (_posVBO p') 0 = at2 (_posVBO p') 1 /\
  at2 (_velVBO p') 0 = at2 (_velVBO p') 1 /\
  currIndex p' = currIndex p.
Proof.
  intros Hg Hm. cbv zeta.
  destruct (reset_same_generations p nb g) as (Hpos & Hvel & Hnb).
  split; [exact Hnb |].
  split; [intro index; now apply reset_generation |].
  split; [exact Hpos |]. split; [exact Hvel |].
  unfold reset.
  destruct (randomParticles nb _ _ _ g) as [[pos vel] g'].
  reflexivity.
Qed.

End Reset.

Lemma currIndex_constructor (width height nb : nat) (g : Particles.rng) :
  Particles.currIndex (fst (Particles.constructor width height nb g)) = O.
Proof.
  unfold Particles.constructor, Particles.reset.
  destruct (Particles.randomParticles nb _ _ _ g) as [[pos vel] g'].
  reflexivity.
Qed.

Lemma maxSpeed_constructor (width height nb : nat) (g : Particles.rng) :
  Particles._maxSpeed (fst (Particles.constructor width height nb g))
  = 0.5 * INR (Nat.min width height).
Proof.
  unfold Particles.constructor, Particles.reset.
  destruct (Particles.randomParticles nb _ _ _ g) as [[pos vel] g'].
  reflexivity.
Qed.

Lemma currIndex_update (p : Particles.t) (obstacles : sampler2D) (dt : R) :
  Particles.currIndex (Particles.update p obstacles dt)
  = Particles.nextIndex p.
Proof. reflexivity. Qed.

Lemma currIndex_reset (p : Particles.t) (nb : nat) (g : Particles.rng) :
  Particles.currIndex (fst (Particles.reset p nb g)) = Particles.currIndex p.
Proof.
  unfold Particles.reset.
  destruct (Particles.randomParticles nb _ _ _ g) as [[pos vel] g'].
  reflexivity.
Qed.

Lemma unit_range_halves : Particles.unit_range Scenario.halves.
Proof. intro n. unfold Scenario.halves. lra. Qed.

Lemma reset_randomizes_witness :
  Particles.unit_range Scenario.halves /\
  0 <= Particles._maxSpeed Scenario.started /\
  Particles.nbParticles (fst (Particles.reset Scenario.started 256
                                Scenario.halves)) = 256%nat /\
  Particles.currIndex (fst (Particles.reset Scenario.started 256
                              Scenario.halves))
  = Particles.currIndex Scenario.started.
Proof.
  assert (Hm : 0 <= Particles._maxSpeed Scenario.started).
  { unfold Scenario.started. rewrite maxSpeed_constructor.
    pose proof (pos_INR (Nat.min 512 512)). lra. }
  destruct (reset_randomizes Scenario.started 256 Scenario.halves
              unit_range_halves Hm) as (Hnb & _ & _ & _ & Hidx).
  split; [exact unit_range_halves |]. split; [exact Hm |].
  split; [exact Hnb | exact Hidx].
Defined.

(** C6 fails as stated.  A new simulation has the index of its current
    generation at 0; after one [update] it is 1; after a [reset] it is
    still 1, not the initial 0. *)
Lemma reset_keeps_index :
  Particles.currIndex Scenario.started = 0%nat /\
  Particles.currIndex Scenario.stepped = 1%nat /\
  Particles.currIndex Scenario.restarted = 1%nat /\
  Particles.currIndex Scenario.restarted
  <> Particles.currIndex Scenario.started.
Proof.
  assert (H0 : Particles.currIndex Scenario.started = 0%nat)
    by apply currIndex_constructor.
  assert (H1 : Particles.currIndex Scenario.stepped = 1%nat).
  { unfold Scenario.stepped. rewrite currIndex_update.
    unfold Particles.nextIndex. fold (Particles.currIndex Scenario.started).
    now rewrite H0. }
  assert (H2 : Particles.currIndex Scenario.restarted = 1%nat).
  { unfold Scenario.restarted. now rewrite currIndex_reset. }
  split; [exact H0 |]. split; [exact H1 |]. split; [exact H2 |].
  rewrite H0, H2. discriminate.
Qed.

(** ** The blur kernel *)

Section Kernel.
Import Fluidify.

Variable kernelSize : nat.

Local Abbreviation weight :=
  (fun i : nat => kernelFunction (samplePoint kernelSize i)).

Lemma pushWeight_fold (l : list nat) (kernel : list R) (total : R) :
  fold_left (pushWeight kernelSize) l (kernel, total)
  = (kernel ++ map weight l, total + sum (map weight l)).
Proof.
  revert kernel total.
  induction l as [| i l IH]; intros kernel total.
  - simpl. rewrite app_nil_r. f_equal. unfold sum; simpl. ring.
  - cbn [fold_left]. unfold pushWeight at 2. cbn [fst snd].
    rewrite IH. rewrite <- app_assoc. cbn [map app]. f_equal.
    unfold sum; simpl. ring.
Qed.

Lemma rawKernel_spec :
  rawKernel kernelSize
  = (map weight (seq 0 kernelSize), sum (map weight (seq 0 kernelSize))).
Proof.
  unfold rawKernel. rewrite pushWeight_fold. cbn [app]. f_equal. ring.
Qed.

Lemma kernelFunction_pos (x : R) : 0 < kernelFunction x.
Proof. apply exp_pos. Qed.

Lemma sum_weights_pos (l : list nat) : l <> [] -> 0 < sum (map weight l).
Proof.
  intro Hl. destruct l as [| i l]; [contradiction |]. clear Hl.
  revert i. induction l as [| j l IH]; intro i.
  - unfold sum; simpl. pose proof (kernelFunction_pos (samplePoint kernelSize i)).
    lra.
  - specialize (IH j). unfold sum in *. simpl in *.
    pose proof (kernelFunction_pos (samplePoint kernelSize i)). lra.
Qed.

Lemma sum_scaled (l : list R) (total : R) :
  sum (map (fun w => w / total) l) = sum l / total.
Proof.
  unfold sum. induction l as [| a l IH]; simpl.
  - unfold Rdiv. ring.
  - rewrite IH. unfold Rdiv. ring.
Qed.

Lemma samplePoint_range (i : nat) :
  (i < kernelSize)%nat -> - 1 <= samplePoint kernelSize i < 1.
Proof.
  intro Hi. unfold samplePoint.
  assert (Hk : 0 < INR kernelSize) by (apply lt_0_INR; lia).
  assert (Hlt : INR i < INR kernelSize) by now apply lt_INR.
  pose proof (pos_INR i) as H0.
  pose proof (Rinv_0_lt_compat _ Hk) as Hr.
  assert (Hone : INR kernelSize * / INR kernelSize = 1)
    by (apply Rinv_r; lra).
  unfold Rdiv. split; nra.
Qed.

(** C7.  For every kernel size of at least 1, [setKernelSize] produces
    [kernelSize] weights; weight [i] is [exp(-4 * x_i^2)] divided by the
    total of these values, for the sample point [x_i = 2 * i / kernelSize -
    1], which runs over [[-1, 1)]; and the weights sum to 1 (in exact
    arithmetic), hence to 1 within [1e-5]. *)
Theorem kernel_normalized :
  (1 <= kernelSize)%nat ->
  List.length (setKernelSize kernelSize) = kernelSize /\
  0 < snd (rawKernel kernelSize) /\
  (forall i, (i < kernelSize)%nat ->
     - 1 <= samplePoint kernelSize i < 1 /\
     nth i (setKernelSize kernelSize) 0
     = exp (- 4 * samplePoint kernelSize i * samplePoint kernelSize i)
       / snd (rawKernel kernelSize)) /\
  sum (setKernelSize kernelSize) = 1 /\
  Rabs (sum (setKernelSize kernelSize) - 1) <= 1 / 100000.
Proof.
  intro Hk. unfold setKernelSize. rewrite rawKernel_spec. cbn [snd].
  set (total := sum (map weight (seq 0 kernelSize))).
  assert (Hpos : 0 < total).
  { apply sum_weights_pos. destruct kernelSize; [lia | discriminate]. }
  assert (Hsum : sum (map (fun w => w / total) (map weight (seq 0 kernelSize)))
                 = 1).
  { rewrite sum_scaled. fold total. field. lra. }
  split; [now rewrite !length_map, length_seq |].
  split; [exact Hpos |]. split.
  - intros i Hi. split; [now apply samplePoint_range |].
    rewrite map_map.
    rewrite (nth_indep _ 0 ((fun x => weight x / total) O))
      by now rewrite length_map, length_seq.
    rewrite (map_nth (fun x => weight x / total)).
    rewrite seq_nth by exact Hi. reflexivity.
  - split; [exact Hsum |].
    rewrite Hsum. replace (1 - 1) with 0 by ring. rewrite Rabs_R0. lra.
Qed.

End Kernel.

Lemma kernel_normalized_witness :
  (1 <= 9)%nat /\
  Fluidify.sum (Fluidify.setKernelSize 9) = 1 /\
  Rabs (Fluidify.sum (Fluidify.setKernelSize 9) - 1) <= 1 / 100000.
Proof.
  assert (H9 : (1 <= 9)%nat) by lia.
  destruct (kernel_normalized 9 H9) as (_ & _ & _ & Hs & Ht).
  split; [exact H9 |]. split; [exact Hs | exact Ht].
Defined.

(** ** The threshold of the display shader *)

Lemma v4scale_zero (c : vec4) : v4scale 0 c = v4zero.
Proof. unfold v4scale, v4zero. f_equal; ring. Qed.

Lemma v4scale_one (c : vec4) : v4scale 1 c = c.
Proof. destruct c. unfold v4scale; simpl. f_equal; ring. Qed.

(** C8.  In the display shader of the fluid compositor, a pixel whose
    blurred alpha is strictly below [uThreshold] gets the colour
    [(0, 0, 0, 0)]: nothing of it is visible, it is transparent.  A pixel
    whose blurred alpha is at or above the threshold gets the shaded
    colour: the base colour (the blurred texel, or the encoded normal when
    [uShowNormals] is set) plus the specular term (present when
    [uSpecular] is set). *)
Theorem threshold_discard (texel : vec4) (uThreshold : R)
    (uShowNormals uSpecular : bool) (dFdx_level dFdy_level : R) :
  (ca texel < uThreshold ->
   FluidifyShaders.displayFrag texel uThreshold uShowNormals uSpecular
     dFdx_level dFdy_level = Vec4 0 0 0 0) /\
  (uThreshold <= ca texel ->
   FluidifyShaders.displayFrag texel uThreshold uShowNormals uSpecular
     dFdx_level dFdy_level
   = FluidifyShaders.shaded texel uShowNormals uSpecular
       dFdx_level dFdy_level).
Proof.
  unfold FluidifyShaders.displayFrag, FluidifyShaders.shaded, step.
  cbv zeta. split; intro Ha.
  - destruct (Rlt_dec (ca texel) uThreshold) as [_|Hn]; [| lra].
    apply v4scale_zero.
  - destruct (Rlt_dec (ca texel) uThreshold) as [Hlt|_]; [lra |].
    apply v4scale_one.
Qed.

(** ** Static obstacles *)

Section StaticObstacle.
Import Texture ObstacleMapShaders ObstacleMap.

Variables uMousePos brush : vec2.
Hypothesis brush_width : vx brush <> 0.
Hypothesis brush_height : vy brush <> 0.

(** The quad of [addStaticVert] puts the corner value [cornerAt q] at the
    point [q], and the varying [fromCenter] interpolated there without
    rounding is the offset of [q] from the centre of the brush. *)
Lemma cornerAt_position (q : vec2) :
  snd (addStaticVert uMousePos brush (cornerAt uMousePos brush q)) = q.
Proof.
  destruct q as [qx qy]. unfold addStaticVert, cornerAt, vadd, vmul, vadds,
    vdiv, vsub. cbn [snd vx vy].
  replace ((qx - vx uMousePos) / vx brush + 0.5 + -0.5)
    with ((qx - vx uMousePos) / vx brush) by lra.
  replace ((qy - vy uMousePos) / vy brush + 0.5 + -0.5)
    with ((qy - vy uMousePos) / vy brush) by lra.
  f_equal; field; assumption.
Qed.

Lemma fromCenter_interpolated (q : vec2) :
  fst (addStaticVert uMousePos brush (cornerAt uMousePos brush q))
  = brushOffset uMousePos brush q.
Proof.
  unfold addStaticVert, cornerAt, brushOffset, vadds, vscale, vdiv, vsub.
  cbn [fst vx vy]. f_equal; unfold Rdiv; lra.
Qed.








End StaticObstacle.

Section StaticDraw.
Import Texture ObstacleMapShaders ObstacleMap.

Variable rasterize : rasterizer.


Lemma drawStatic_size (target : texture2D) (uMousePos brush : vec2) :
  width (drawStatic rasterize target uMousePos brush) = width target /\
  height (drawStatic rasterize target uMousePos brush) = height target.
Proof. unfold drawStatic. destruct (complete target); split; reflexivity. Qed.

Lemma drawMobile_size (target static : texture2D) (uMousePos brush : vec2) :
  width (drawMobile target static uMousePos brush) = width target /\
  height (drawMobile target static uMousePos brush) = height target.
Proof. unfold drawMobile. destruct (complete target); split; reflexivity. Qed.


End StaticDraw.


(** ** The generations of [Particles] *)

Section Generations.
Import Particles.

Lemma at2_set2 {A : Type} (pair : A * A) (index : nat) (a : A) :
  at2 (set2 pair index a) index = a.
Proof. destruct index; reflexivity. Qed.

Lemma combine_fst_snd {A B : Type} (l : list (A * B)) :
  combine (map fst l) (map snd l) = l.
Proof.
  induction l as [| [a b] l IH]; simpl; [reflexivity | now rewrite IH].
Qed.

Lemma capture_full {A : Type} (out dst : list A) :
  List.length out = List.length dst -> capture out dst = out.
Proof.
  intro Hl. unfold capture. rewrite Hl, skipn_all. apply app_nil_r.
Qed.

Lemma randomParticles_length (n : nat) (w h m : R) (g : rng) :
  List.length (fst (fst (randomParticles n w h m g))) = n /\
  List.length (snd (fst (randomParticles n w h m g))) = n.
Proof.
  revert g. induction n as [| n IH]; intro g; [split; reflexivity |].
  cbn [randomParticles]. unfold draw. cbn [fst snd].
  specialize (IH (fun k => g (S (S (S (S k)))))).
  destruct (randomParticles n _ _ _ _) as [[pos vel] g'].
  cbn [fst snd] in *. simpl. destruct IH as [-> ->]. split; reflexivity.
Qed.

Lemma constructor_wellFormed (width height nb : nat) (g : rng) :
  wellFormed (fst (constructor width height nb g)).
Proof.
  unfold constructor, reset. cbn [_worldWidth _worldHeight _maxSpeed].
  pose proof (randomParticles_length nb (INR width) (INR height)
                (0.5 * INR (Nat.min width height)) g) as [Hp Hv].
  destruct (randomParticles nb _ _ _ g) as [[pos vel] g'].
  cbn [fst snd] in *.
  constructor; cbn; try reflexivity; try lia.
  - intros [| index]; exact Hp.
  - intros [| index]; exact Hv.
Qed.

Lemma reset_wellFormed (p : t) (nb : nat) (g : rng) :
  wellFormed p -> wellFormed (fst (reset p nb g)).
Proof.
  intros [Hi Hs Hm Hp Hv]. unfold reset.
  pose proof (randomParticles_length nb (INR (_worldWidth p))
                (INR (_worldHeight p)) (_maxSpeed p) g) as [Hlp Hlv].
  destruct (randomParticles nb _ _ _ g) as [[pos vel] g'].
  cbn [fst snd] in *.
  constructor; cbn; try assumption.
  - intros [| index]; exact Hlp.
  - intros [| index]; exact Hlv.
Qed.

(** The generation that is current after [update] holds, for each particle
    of the generation that was current before, the outputs of the shader. *)
Lemma update_current (p : t) (obstacles : sampler2D) (dt : R) :
  wellFormed p ->
  current (update p obstacles dt)
  = map (fun v => ParticlesShaders.main (_updateShader p) obstacles
                    (speed p * dt) (acceleration p) (fst v) (snd v))
        (current p).
Proof.
  intros [Hi Hs Hm Hp Hv].
  unfold current, update, switchBuffers, currIndex.
  cbn [_currIndex _posVBO _velVBO].
  rewrite !at2_set2.
  set (vertices := firstn _ _).
  assert (Hvert : vertices
                  = combine (at2 (_posVBO p) (_currIndex p))
                            (at2 (_velVBO p) (_currIndex p))).
  { unfold vertices, nbParticles. apply firstn_all2.
    rewrite length_combine, Hp, Hv. lia. }
  assert (Hlen : List.length vertices = _nbParts p).
  { rewrite Hvert, length_combine, Hp, Hv. lia. }
  rewrite !capture_full
    by (rewrite !length_map, Hlen; first [now rewrite Hp | now rewrite Hv]).
  rewrite combine_fst_snd. now rewrite Hvert.
Qed.

Lemma update_wellFormed (p : t) (obstacles : sampler2D) (dt : R) :
  wellFormed p -> wellFormed (update p obstacles dt).
Proof.
  intros [Hi Hs Hm Hp Hv].
  assert (Hlen : List.length
                   (firstn (nbParticles p)
                      (combine (at2 (_posVBO p) (currIndex p))
                               (at2 (_velVBO p) (currIndex p))))
                 = _nbParts p).
  { unfold nbParticles. rewrite length_firstn, length_combine, Hp, Hv. lia. }
  constructor; unfold update, switchBuffers;
    cbn [_currIndex _updateShader _maxSpeed _worldWidth _worldHeight
         _posVBO _velVBO _nbParts]; try assumption.
  - unfold nextIndex. apply Nat.mod_upper_bound. lia.
  - intro index.
    destruct (nextIndex p) as [| k], index as [| index]; cbn [set2 at2 fst snd];
      try apply (Hp 0%nat); try apply (Hp 1%nat);
      rewrite capture_full; rewrite ?length_map, ?Hlen;
      try reflexivity; symmetry; first [apply (Hp 0%nat) | apply (Hp 1%nat)].
  - intro index.
    destruct (nextIndex p) as [| k], index as [| index]; cbn [set2 at2 fst snd];
      try apply (Hv 0%nat); try apply (Hv 1%nat);
      rewrite capture_full; rewrite ?length_map, ?Hlen;
      try reflexivity; symmetry; first [apply (Hv 0%nat) | apply (Hv 1%nat)].
Qed.

(** X8.  After [update], every particle of the current generation has a speed of
    at most [MAX_SPEED]. *)
Lemma update_speed_clamp (p : t) (obstacles : sampler2D) (dt : R) :
  wellFormed p ->
  Forall (fun v => length (snd v)
                   <= ParticlesShaders.MAX_SPEED (_updateShader p))
         (current (update p obstacles dt)).
Proof.
  intro Hwf. rewrite update_current by exact Hwf.
  apply Forall_forall. intros v Hin.
  apply in_map_iff in Hin. destruct Hin as [[pos vel] [<- _]].
  cbn [fst snd ParticlesShaders.main].
  rewrite (wf_shader p Hwf). apply nextVel_length.
Qed.

(** The position band is kept by [update], for a canvas that is not empty,
    an obstacle texture of bytes, with or without image, and a time step in
    [[0, 0.1]]. *)
Lemma update_band (p : t) (obstacles : Texture.texture2D) (dt : R) :
  wellFormed p ->
  (0 < _worldWidth p)%nat -> (0 < _worldHeight p)%nat ->
  Texture.bytes obstacles ->
  0 <= speed p * dt <= 0.1 ->
  Forall (fun v => inBand p (fst v)) (current p) ->
  Forall (fun v => inBand p (fst v))
         (current (update p (Texture.sample obstacles) dt)).
Proof.
  intros Hwf Hw Hh Hb Hdt Hall.
  rewrite update_current by exact Hwf.
  rewrite Forall_forall in *. intros v Hin.
  apply in_map_iff in Hin. destruct Hin as [[pos vel] [<- Hin]].
  specialize (Hall _ Hin). unfold inBand in *. cbn [fst] in Hall.
  rewrite (wf_shader p Hwf) in *. cbn [ParticlesShaders.main fst].
  now apply nextPosition_in_band.
Qed.

(** After [reset], every particle is in the position band. *)
Lemma reset_band (p : t) (nb : nat) (g : rng) :
  wellFormed p -> unit_range g ->
  Forall (fun v => inBand (fst (reset p nb g)) (fst v))
         (current (fst (reset p nb g))).
Proof.
  intros Hwf Hg.
  assert (Hm : 0 <= _maxSpeed p).
  { rewrite (wf_maxSpeed p Hwf). pose proof (pos_INR
      (Nat.min (_worldWidth p) (_worldHeight p))). lra. }
  destruct (reset_generation p nb g (currIndex (fst (reset p nb g))) Hg Hm)
    as (_ & _ & Hdom & _).
  pose proof (reset_wellFormed p nb g Hwf) as Hwf'.
  unfold current. apply Forall_forall. intros [pos vel] Hin.
  apply in_combine_l in Hin. rewrite Forall_forall in Hdom.
  destruct (Hdom pos Hin) as [Hx _]. unfold inBand. cbn [fst].
  rewrite (wf_shader _ Hwf'), POS_BANDWIDTH_canvas.
  apply Rabs_le_inv in Hx.
  pose proof (INR_max_ge (_worldWidth (fst (reset p nb g)))
                (_worldHeight (fst (reset p nb g)))) as [HM _].
  pose proof (pos_INR (_worldWidth (fst (reset p nb g)))). lra.
Qed.

End Generations.

(* ================================================================== *)
(** * Further properties *)
(* ================================================================== *)

(** ** The blur shader *)

Lemma kernel_sum_positive (kernelSize : nat) :
  (1 <= kernelSize)%nat ->
  0 < snd (Fluidify.rawKernel kernelSize) /\
  Fluidify.sum (Fluidify.setKernelSize kernelSize) = 1.
Proof.
  intro Hk. unfold Fluidify.setKernelSize. rewrite rawKernel_spec. cbn [snd].
  assert (Hpos : 0 < Fluidify.sum
                       (map (fun i => Fluidify.kernelFunction
                                        (Fluidify.samplePoint kernelSize i))
                            (seq 0 kernelSize))).
  { apply sum_weights_pos. destruct kernelSize; [lia | discriminate]. }
  split; [exact Hpos |].
  rewrite sum_scaled. field. lra.
Qed.

Lemma setKernelSize_nth (kernelSize i : nat) :
  (i < kernelSize)%nat ->
  nth i (Fluidify.setKernelSize kernelSize) 0
  = Fluidify.kernelFunction (Fluidify.samplePoint kernelSize i)
    / snd (Fluidify.rawKernel kernelSize).
Proof.
  intro Hi. unfold Fluidify.setKernelSize. rewrite rawKernel_spec. cbn [snd].
  set (total := Fluidify.sum _).
  rewrite map_map.
  rewrite (nth_indep _ 0
             ((fun x => Fluidify.kernelFunction
                          (Fluidify.samplePoint kernelSize x) / total) O))
    by now rewrite length_map, length_seq.
  rewrite (map_nth (fun x => Fluidify.kernelFunction
                               (Fluidify.samplePoint kernelSize x) / total)).
  now rewrite seq_nth by exact Hi.
Qed.

Lemma setKernelSize_length (kernelSize : nat) :
  List.length (Fluidify.setKernelSize kernelSize) = kernelSize.
Proof.
  unfold Fluidify.setKernelSize. rewrite rawKernel_spec.
  now rewrite !length_map, length_seq.
Qed.

Lemma setKernelSize_nonneg (kernelSize i : nat) :
  (1 <= kernelSize)%nat -> 0 <= nth i (Fluidify.setKernelSize kernelSize) 0.
Proof.
  intro Hk. destruct (Nat.lt_ge_cases i kernelSize) as [Hi | Hi].
  - rewrite setKernelSize_nth by exact Hi.
    destruct (kernel_sum_positive kernelSize Hk) as [Hpos _].
    pose proof (kernelFunction_pos (Fluidify.samplePoint kernelSize i)).
    apply Rlt_le, Rdiv_lt_0_compat; assumption.
  - rewrite nth_overflow; [lra | now rewrite setKernelSize_length].
Qed.

Section BlurLoop.
Import FluidifyShaders.

Lemma weightsFrom_cons (a : R) (l : list R) (i n : nat) :
  FluidifyShaders.weightsFrom (a :: l) (S i) n
  = FluidifyShaders.weightsFrom l i n.
Proof.
  revert i. induction n as [| n IH]; intro i; [reflexivity |].
  cbn [weightsFrom nth]. now rewrite IH.
Qed.

Lemma weightsFrom_all (l : list R) :
  FluidifyShaders.weightsFrom l 0 (List.length l) = Fluidify.sum l.
Proof.
  induction l as [| a l IH]; [reflexivity |].
  cbn [List.length weightsFrom nth]. rewrite weightsFrom_cons, IH.
  reflexivity.
Qed.

Variable channel : vec4 -> R.
Hypothesis channel_add :
  forall a b, channel (v4add a b) = channel a + channel b.
Hypothesis channel_scale :
  forall k a, channel (v4scale k a) = k * channel a.

(** A channel of the result of the loop is the channel of its start plus a
    combination of the texels read, with the weights of the kernel. *)
Lemma blurLoop_channel_bounds (n : nat) (uTexture : sampler2D)
    (uStep : vec2) (uKernel : list R) (lo hi : R) :
  (forall m, 0 <= nth m uKernel 0) ->
  (forall uv, lo <= channel (uTexture uv) <= hi) ->
  forall i coords result,
    channel result + lo * FluidifyShaders.weightsFrom uKernel i n
    <= channel (blurLoop n uTexture uStep uKernel i coords result)
    <= channel result + hi * FluidifyShaders.weightsFrom uKernel i n.
Proof.
  intros Hw Htex. induction n as [| n IH]; intros i coords result.
  - cbn [blurLoop weightsFrom]. lra.
  - cbn [blurLoop weightsFrom].
    specialize (IH (S i) (vadd coords uStep)
                  (v4add result
                     (v4scale (nth i uKernel 0) (texture uTexture coords)))).
    rewrite channel_add, channel_scale in IH.
    specialize (Hw i). specialize (Htex coords). unfold texture in IH.
    set (t := channel (uTexture coords)) in *.
    set (k := nth i uKernel 0) in *.
    assert (k * lo <= k * t <= k * hi) by (split; nra).
    unfold texture. lra.
Qed.

End BlurLoop.

Lemma blurFrag_channel_bounds (channel : vec4 -> R) (kernelSize : nat)
    (uTexture : sampler2D) (uStep sampleCoords : vec2) (lo hi : R) :
  (forall a b, channel (v4add a b) = channel a + channel b) ->
  (forall k a, channel (v4scale k a) = k * channel a) ->
  (1 <= kernelSize)%nat ->
  (forall uv, lo <= channel (uTexture uv) <= hi) ->
  lo <= channel (FluidifyShaders.blurFrag kernelSize uTexture uStep
                   (Fluidify.setKernelSize kernelSize) sampleCoords)
     <= hi.
Proof.
  intros Hadd Hscale Hk Htex. unfold FluidifyShaders.blurFrag.
  pose proof (blurLoop_channel_bounds channel Hadd Hscale kernelSize uTexture
                uStep (Fluidify.setKernelSize kernelSize) lo hi
                (fun m => setKernelSize_nonneg kernelSize m Hk) Htex 0%nat
                (vsub sampleCoords (vscale (INR (kernelSize / 2)) uStep))
                v4zero) as H.
  replace (FluidifyShaders.weightsFrom (Fluidify.setKernelSize kernelSize)
             0 kernelSize)
    with 1 in H.
  - replace (channel v4zero) with 0 in H; [lra |].
    pose proof (Hscale 0 v4zero) as H0. rewrite v4scale_zero in H0. lra.
  - rewrite <- (setKernelSize_length kernelSize) at 2.
    rewrite weightsFrom_all. symmetry. now apply kernel_sum_positive.
Qed.

(** X14.  The blur is a weighted mean: with the kernel of [setKernelSize], the
    colour computed by the blur shader has each channel between the least
    and the greatest value of that channel in the texture read. *)
Theorem blurFrag_no_overshoot (kernelSize : nat) (uTexture : sampler2D)
    (uStep sampleCoords : vec2) (lo hi : R) :
  (1 <= kernelSize)%nat ->
  (forall uv, FluidifyShaders.withinRange lo hi (uTexture uv)) ->
  FluidifyShaders.withinRange lo hi
    (FluidifyShaders.blurFrag kernelSize uTexture uStep
       (Fluidify.setKernelSize kernelSize) sampleCoords).
Proof.
  intros Hk Htex. unfold FluidifyShaders.withinRange.
  split; [| split; [| split]].
  - apply (blurFrag_channel_bounds cr); try exact Hk; try reflexivity.
    intro uv. apply (Htex uv).
  - apply (blurFrag_channel_bounds cg); try exact Hk; try reflexivity.
    intro uv. apply (Htex uv).
  - apply (blurFrag_channel_bounds cb); try exact Hk; try reflexivity.
    intro uv. apply (Htex uv).
  - apply (blurFrag_channel_bounds ca); try exact Hk; try reflexivity.
    intro uv. apply (Htex uv).
Qed.

Lemma blurFrag_constant_sampler (kernelSize : nat) (uTexture : sampler2D)
    (uStep sampleCoords : vec2) (c : vec4) :
  (1 <= kernelSize)%nat ->
  (forall uv, uTexture uv = c) ->
  FluidifyShaders.blurFrag kernelSize uTexture uStep
    (Fluidify.setKernelSize kernelSize) sampleCoords = c.
Proof.
  intros Hk Hc.
  assert (Hch : forall channel : vec4 -> R,
             (forall a b, channel (v4add a b) = channel a + channel b) ->
             (forall k a, channel (v4scale k a) = k * channel a) ->
             channel (FluidifyShaders.blurFrag kernelSize uTexture uStep
                        (Fluidify.setKernelSize kernelSize) sampleCoords)
             = channel c).
  { intros channel Hadd Hscale.
    pose proof (blurFrag_channel_bounds channel kernelSize uTexture uStep
                  sampleCoords (channel c) (channel c) Hadd Hscale Hk) as H.
    assert (Hall : forall uv, channel c <= channel (uTexture uv) <= channel c)
      by (intro uv; rewrite Hc; lra).
    specialize (H Hall). lra. }
  pose proof (Hch cr (fun _ _ => eq_refl) (fun _ _ => eq_refl)) as Hr.
  pose proof (Hch cg (fun _ _ => eq_refl) (fun _ _ => eq_refl)) as Hg.
  pose proof (Hch cb (fun _ _ => eq_refl) (fun _ _ => eq_refl)) as Hb.
  pose proof (Hch ca (fun _ _ => eq_refl) (fun _ _ => eq_refl)) as Ha.
  destruct (FluidifyShaders.blurFrag _ _ _ _ _) as [r g b a], c as [r' g' b' a'].
  cbn [cr cg cb ca] in *. now subst.
Qed.

(** ** Eight-bit channels *)

Section Channels.
Import Texture.

Lemma clamp_unit (c : R) : 0 <= clamp c 0 1 <= 1.
Proof.
  unfold clamp. split.
  - apply Rmin_glb; [apply Rmax_r | lra].
  - apply Rmin_r.
Qed.

Lemma clamp_inside (c : R) : 0 <= c <= 1 -> clamp c 0 1 = c.
Proof.
  intros [H0 H1]. unfold clamp.
  rewrite Rmax_left by exact H0. now apply Rmin_left.
Qed.

Lemma toUnorm8_byte (c : R) : byte (toUnorm8 c).
Proof.
  unfold byte, toUnorm8.
  pose proof (clamp_unit c) as Hc.
  set (y := clamp c 0 1 * 255 + / 2).
  pose proof (base_Int_part y) as [Hle Hgt].
  assert (Hy : / 2 <= y <= 255 + / 2) by (unfold y; lra).
  split.
  - assert (H : (-1 < Int_part y)%Z) by (apply lt_IZR; lra). lia.
  - assert (H : (Int_part y < 256)%Z) by (apply lt_IZR; lra). lia.
Qed.

Lemma toUnorm8_unorm (b : Z) : byte b -> toUnorm8 (unorm b) = b.
Proof.
  intros [H0 H1]. apply IZR_le in H0, H1. unfold toUnorm8, unorm.
  rewrite clamp_inside by lra.
  replace (IZR b / 255 * 255) with (IZR b) by lra.
  apply Int_part_half.
Qed.

(** Writing a value of the unit interval to a channel and reading it back
    moves it by at most half a step of the channel. *)
Lemma toUnorm8_error (c : R) :
  0 <= c <= 1 -> Rabs (unorm (toUnorm8 c) - c) <= 1 / 510.
Proof.
  intro Hc. unfold toUnorm8, unorm. rewrite clamp_inside by exact Hc.
  pose proof (base_Int_part (c * 255 + / 2)) as [Hle Hgt].
  apply Rabs_le. lra.
Qed.

Lemma v4mix_same (c : vec4) (a : R) : v4mix c c a = c.
Proof. destruct c. unfold v4mix. cbn [cr cg cb ca]. f_equal; ring. Qed.

Lemma sample4_constant (t : texture4) (c : rgba) (uv : vec2) :
  (0 < width4 t)%nat -> (0 < height4 t)%nat ->
  (forall i j, (i < width4 t)%nat -> (j < height4 t)%nat ->
     texel4 t i j = c) ->
  sample4 t uv
  = Vec4 (unorm (red c)) (unorm (green c)) (unorm (blue c))
         (unorm (alpha c)).
Proof.
  intros Hw Hh Hc. unfold sample4, texelFetch4. cbv zeta.
  rewrite !Hc by now apply clampToEdge_lt.
  now rewrite !v4mix_same.
Qed.

Lemma store4_unorm (c : rgba) :
  byte (red c) -> byte (green c) -> byte (blue c) -> byte (alpha c) ->
  store4 (Vec4 (unorm (red c)) (unorm (green c)) (unorm (blue c))
               (unorm (alpha c))) = c.
Proof.
  intros Hr Hg Hb Ha. destruct c as [r g b a]. unfold store4.
  cbn [cr cg cb ca red green blue alpha] in *.
  now rewrite !toUnorm8_unorm.
Qed.

End Channels.

(** ** The two passes of [process] *)

Section Process.
Import Texture Fluidify.

Lemma blurPass_uniform (f : t) (source target : texture4) (uStep : vec2)
    (c : rgba) :
  (1 <= KERNEL_SIZE f)%nat ->
  uKernel f = setKernelSize (KERNEL_SIZE f) ->
  (0 < _FBO_width f)%nat -> (0 < _FBO_height f)%nat ->
  width4 source = _FBO_width f -> height4 source = _FBO_height f ->
  byte (red c) -> byte (green c) -> byte (blue c) -> byte (alpha c) ->
  uniform4 f source c ->
  uniform4 f (blurPass f source target uStep) c.
Proof.
  intros Hk Hker Hw Hh Hsw Hsh Hr Hg Hb Ha Hsrc i j Hi Hj.
  unfold blurPass. cbn [texel4].
  apply Nat.ltb_lt in Hi, Hj. rewrite Hi, Hj. cbn [andb].
  rewrite Hker.
  rewrite (blurFrag_constant_sampler _ _ _ _
             (Vec4 (unorm (red c)) (unorm (green c)) (unorm (blue c))
                   (unorm (alpha c)))).
  - now apply store4_unorm.
  - exact Hk.
  - intro uv. apply sample4_constant.
    + now rewrite Hsw.
    + now rewrite Hsh.
    + intros i' j' Hi' Hj'. apply Hsrc; [now rewrite <- Hsw | now rewrite <- Hsh].
Qed.

Lemma process_wellFormed (f : t) : wellFormed f -> wellFormed (process f).
Proof.
  intros [Hw Hh Hraw Hhalf Hblur Hk Hker].
  constructor; unfold process; cbn; assumption.
Qed.

(** X15.  Blurring leaves a uniform image as it is: if every texel of the raw
    texture holds the same four bytes, so does, after [process], every
    texel of the half-blurred and of the blurred texture, and no other
    field of the object has changed. *)
Theorem process_uniform (f : t) (c : rgba) :
  wellFormed f ->
  byte (red c) -> byte (green c) -> byte (blue c) -> byte (alpha c) ->
  uniform4 f (_rawTex f) c ->
  uniform4 f (_halfBlurredTex (process f)) c /\
  uniform4 f (_blurredTex (process f)) c /\
  _rawTex (process f) = _rawTex f /\
  wellFormed (process f).
Proof.
  intros Hwf Hr Hg Hb Ha Hraw.
  pose proof (process_wellFormed f Hwf) as Hwf'.
  destruct Hwf as [Hw Hh [Hrw Hrh] [Hhw Hhh] [Hbw Hbh] Hk Hker].
  assert (Hhalf : uniform4 f
                    (blurPass f (_rawTex f) (_halfBlurredTex f)
                       (Vec2 (1 / INR (_FBO_width f)) 0)) c)
    by (apply blurPass_uniform; assumption).
  split; [exact Hhalf |]. split; [| split; [reflexivity | exact Hwf']].
  unfold process. cbn [_blurredTex].
  apply blurPass_uniform; try assumption.
Qed.

Lemma constructor_wellFormed_fluid (width height : nat) :
  (0 < width)%nat -> (0 < height)%nat ->
  wellFormed (constructor width height).
Proof.
  intros Hw Hh. constructor; cbn; try assumption; try (split; reflexivity);
    try reflexivity; lia.
Qed.

End Process.

Lemma process_uniform_witness :
  Fluidify.wellFormed (Fluidify.constructor 512 512) /\
  Fluidify.uniform4 (Fluidify.constructor 512 512)
    (Fluidify._blurredTex (Fluidify.process (Fluidify.constructor 512 512)))
    (Texture.RGBA 0 0 0 0).
Proof.
  assert (Hwf : Fluidify.wellFormed (Fluidify.constructor 512 512))
    by (apply constructor_wellFormed_fluid; lia).
  assert (Hb : Texture.byte 0) by (unfold Texture.byte; lia).
  split; [exact Hwf |].
  exact (proj1 (proj2 (process_uniform (Fluidify.constructor 512 512)
                         (Texture.RGBA 0 0 0 0) Hwf Hb Hb Hb Hb
                         (fun i j _ _ => eq_refl)))).
Defined.

(** ** The obstacle textures read back *)

Section ReadBack.
Import Texture ObstacleMapShaders ObstacleMap.

Lemma clampToEdge_inside (i size : nat) :
  (i < size)%nat -> clampToEdge (Z.of_nat i) size = i.
Proof. intro Hi. unfold clampToEdge. lia. Qed.

Lemma frac_part_INR (n : nat) : frac_part (INR n) = 0.
Proof.
  unfold frac_part. rewrite Int_part_INR, <- INR_IZR_INZ. ring.
Qed.

(** Read at the centre of a pixel, a texture gives the texel of the pixel:
    the three other texels of the linear filter have weight zero. *)
Lemma sample_pixelCentre (t : texture2D) (i j : nat) :
  (i < width t)%nat -> (j < height t)%nat ->
  sample t (pixelCentre (width t) (height t) i j)
  = Vec4 (unorm (fst (texel t i j))) (unorm (snd (texel t i j))) 0 1.
Proof.
  intros Hi Hj. unfold sample, pixelCentre.
  rewrite complete_true by lia. cbv zeta. cbn [vx vy].
  assert (Hw : 0 < INR (width t)) by (apply lt_0_INR; lia).
  assert (Hh : 0 < INR (height t)) by (apply lt_0_INR; lia).
  replace ((INR i + 0.5) / INR (width t) * INR (width t) - 0.5) with (INR i)
    by (field; lra).
  replace ((INR j + 0.5) / INR (height t) * INR (height t) - 0.5) with (INR j)
    by (field; lra).
  rewrite !frac_part_INR, !Int_part_INR.
  unfold texelFetch. rewrite !clampToEdge_inside by assumption.
  cbn [vx vy]. unfold mix. f_equal; ring.
Qed.

Lemma store_byte (c : vec4) :
  byte (fst (store c)) /\ byte (snd (store c)).
Proof. unfold store. cbn [fst snd]. split; apply toUnorm8_byte. Qed.

Lemma store_sample_pixelCentre (t : texture2D) (i j : nat) :
  bytes t -> (i < width t)%nat -> (j < height t)%nat ->
  store (sample t (pixelCentre (width t) (height t) i j)) = texel t i j.
Proof.
  intros Hb Hi Hj. rewrite sample_pixelCentre by assumption.
  destruct (Hb i j Hi Hj) as [Hr Hg].
  unfold store. cbn [cr cg].
  rewrite !toUnorm8_unorm by assumption.
  now destruct (texel t i j).
Qed.

Variable rasterize : rasterizer.

Lemma drawStatic_bytes (target : texture2D) (uMousePos brush : vec2) :
  bytes target -> bytes (drawStatic rasterize target uMousePos brush).
Proof.
  intros Hb. unfold drawStatic.
  destruct (complete target); [| exact Hb].
  intros i j Hi Hj. cbn [texel width height] in *.
  destruct (rasterize _ _ _ _ _); [| now apply Hb].
  destruct (addStaticFrag _); [now apply Hb | apply store_byte].
Qed.

Lemma drawMobile_bytes (target static : texture2D) (uMousePos brush : vec2) :
  bytes target -> bytes (drawMobile target static uMousePos brush).
Proof.
  intros Hb. unfold drawMobile.
  destruct (complete target); [| exact Hb].
  intros i j Hi Hj. cbn [texel width height] in *.
  destruct (addMobileFrag _ _ _ _); [now apply Hb | apply store_byte].
Qed.

(** [reset] keeps the map well formed when the upload of its textures is
    accepted. *)
Lemma reset_wellFormed_map (o : t) :
  (0 < _FBO_width o)%nat -> (0 < _FBO_height o)%nat ->
  Nat.even (_FBO_width o) = true \/ _FBO_height o = 1%nat ->
  wellFormed (reset o).
Proof.
  intros Hw Hh Hacc.
  constructor; unfold reset; cbn [_FBO_width _FBO_height _staticTexture
                                  _texture]; try assumption;
    try (now apply initTexture_size); apply initTexture_bytes.
Qed.

Lemma setBrushSize_wellFormed (o : t) (value : vec2) :
  wellFormed o -> wellFormed (setBrushSize o value).
Proof. intros [Hw Hh Hs Ht Hsb Htb]. constructor; assumption. Qed.

Lemma setDisplayNormals_wellFormed (o : t) (value : bool) :
  wellFormed o -> wellFormed (setDisplayNormals o value).
Proof. intros [Hw Hh Hs Ht Hsb Htb]. constructor; assumption. Qed.

Lemma setMobileObstacle_wellFormed (o : t) (x y : R) :
  wellFormed o -> wellFormed (setMobileObstacle o x y).
Proof.
  intros [Hw Hh Hs Ht Hsb Htb].
  constructor; unfold setMobileObstacle;
    cbn [_FBO_width _FBO_height _staticTexture _texture]; try assumption.
  - destruct (drawMobile_size (_texture o) (_staticTexture o) (Vec2 x y)
                (uBrushSize o)) as [-> ->]. exact Ht.
  - now apply drawMobile_bytes.
Qed.

Lemma addStaticObstacle_wellFormed (o : t) (x y : R) :
  wellFormed o -> wellFormed (addStaticObstacle rasterize o x y).
Proof.
  intros [Hw Hh Hs Ht Hsb Htb]. unfold addStaticObstacle.
  apply setMobileObstacle_wellFormed.
  constructor; cbn [_FBO_width _FBO_height _staticTexture _texture];
    try assumption.
  - destruct (drawStatic_size rasterize (_staticTexture o) (Vec2 x y)
                (uBrushSize o)) as [-> ->]. exact Hs.
  - now apply drawStatic_bytes.
Qed.

(** Both textures hold bytes after every method, with or without image. *)
Lemma setMobileObstacle_bytes (o : t) (x y : R) :
  bytes (_staticTexture o) /\ bytes (_texture o) ->
  bytes (_staticTexture (setMobileObstacle o x y)) /\
  bytes (_texture (setMobileObstacle o x y)).
Proof.
  intros [Hs Ht]. split; [exact Hs |].
  unfold setMobileObstacle. cbn [_texture]. now apply drawMobile_bytes.
Qed.

Lemma addStaticObstacle_bytes (o : t) (x y : R) :
  bytes (_staticTexture o) /\ bytes (_texture o) ->
  bytes (_staticTexture (addStaticObstacle rasterize o x y)) /\
  bytes (_texture (addStaticObstacle rasterize o x y)).
Proof.
  intros [Hs Ht]. unfold addStaticObstacle.
  apply setMobileObstacle_bytes. cbn [_staticTexture _texture].
  split; [now apply drawStatic_bytes | exact Ht].
Qed.

Lemma constructor_bytes (w h : nat) :
  bytes (_staticTexture (constructor rasterize w h)) /\
  bytes (_texture (constructor rasterize w h)).
Proof.
  unfold constructor. cbv zeta.
  apply addStaticObstacle_bytes. cbn [_staticTexture _texture].
  apply addStaticObstacle_bytes. cbn [_staticTexture _texture].
  apply addStaticObstacle_bytes. cbn [_staticTexture _texture].
  split; apply initTexture_bytes.
Qed.

Lemma constructor_fbo (w h : nat) :
  _FBO_width (constructor rasterize w h) = w /\
  _FBO_height (constructor rasterize w h) = h.
Proof. split; reflexivity. Qed.

Lemma constructor_wellFormed_map (w h : nat) :
  (0 < w)%nat -> (0 < h)%nat -> Nat.even w = true \/ h = 1%nat ->
  wellFormed (constructor rasterize w h).
Proof.
  intros Hw Hh Hacc. unfold constructor. cbv zeta.
  assert (H0 : wellFormed
                 {| _staticTexture := initTexture w h;
                    _texture := initTexture w h;
                    _FBO_width := w;
                    _FBO_height := h;
                    uBrushSize := Vec2 (100 / INR w) (100 / INR h);
                    uDisplayNormals := false |}).
  { constructor; cbn [_FBO_width _FBO_height _staticTexture _texture];
      try assumption; try (now apply initTexture_size);
      apply initTexture_bytes. }
  pose proof (addStaticObstacle_wellFormed _ 0.5 0.8 H0) as H1.
  set (o1 := addStaticObstacle rasterize _ 0.5 0.8) in *.
  assert (H1' : wellFormed
                  {| _staticTexture := _staticTexture o1;
                     _texture := _texture o1;
                     _FBO_width := w;
                     _FBO_height := h;
                     uBrushSize := Vec2 (50 / INR w) (50 / INR h);
                     uDisplayNormals := false |}).
  { destruct H1 as [? ? ? ? ? ?]. constructor; cbn in *; assumption. }
  pose proof (addStaticObstacle_wellFormed _ 0.63 0.6 H1') as H2.
  set (o2 := addStaticObstacle rasterize _ 0.63 0.6) in *.
  apply addStaticObstacle_wellFormed.
  destruct H2 as [? ? ? ? ? ?]. constructor; cbn in *; assumption.
Qed.

(** The texel written by [setMobileObstacle] for a pixel of the target. *)
Lemma drawMobile_texel (target static : texture2D) (uMousePos brush : vec2)
    (i j : nat) :
  bytes static ->
  width static = width target -> height static = height target ->
  (i < width target)%nat -> (j < height target)%nat ->
  texel (drawMobile target static uMousePos brush) i j
  = if Rlt_dec
         (dot (brushOffset uMousePos brush
                 (pixelCentre (width target) (height target) i j))
              (brushOffset uMousePos brush
                 (pixelCentre (width target) (height target) i j))) 1
    then store (encodeNormal
                  (normalize
                     (brushOffset uMousePos brush
                        (pixelCentre (width target) (height target) i j))))
    else texel static i j.
Proof.
  intros Hb Hw Hh Hi Hj. unfold drawMobile.
  rewrite complete_true by lia. cbn [texel].
  unfold addMobileFrag. cbv zeta. fold (brushOffset uMousePos brush
    (pixelCentre (width target) (height target) i j)).
  destruct (Rlt_dec _ 1); [reflexivity |].
  unfold GLSL.texture. rewrite <- Hw, <- Hh.
  apply store_sample_pixelCentre; [exact Hb | now rewrite Hw | now rewrite Hh].
Qed.

End ReadBack.

(** ** Encoded normals *)

Lemma decode_store_error (x : R) :
  - 1 <= x <= 1 ->
  Rabs (2 * Texture.unorm (Texture.toUnorm8 (0.5 * x + 0.5)) + - 1 - x)
    <= 1 / 255.
Proof.
  intro Hx.
  assert (Hc : 0 <= 0.5 * x + 0.5 <= 1) by lra.
  pose proof (toUnorm8_error _ Hc) as He.
  apply Rabs_le_inv in He. apply Rabs_le. lra.
Qed.

(** X1.  The obstacle encoding read back.  A vector whose two components are
    between -1 and 1, encoded as [0.5 * n + 0.5] by a brush shader, stored
    in the two 8-bit channels, read back and decoded by [decodeObstacle],
    comes back within [1/255] of itself on each component. *)
Theorem obstacle_normal_round_trip (n : vec2) :
  - 1 <= vx n <= 1 -> - 1 <= vy n <= 1 ->
  let stored := ObstacleMap.store (ObstacleMapShaders.encodeNormal n) in
  let read := Vec4 (Texture.unorm (fst stored)) (Texture.unorm (snd stored))
                   0 1 in
  Texture.byte (fst stored) /\ Texture.byte (snd stored) /\
  Rabs (vx (ParticlesShaders.decodeObstacle read) - vx n) <= 1 / 255 /\
  Rabs (vy (ParticlesShaders.decodeObstacle read) - vy n) <= 1 / 255.
Proof.
  intros Hx Hy. cbv zeta.
  unfold ObstacleMap.store, ObstacleMapShaders.encodeNormal,
    ParticlesShaders.decodeObstacle, vadds, vscale, rg.
  cbn [fst snd cr cg vx vy].
  split; [apply toUnorm8_byte |]. split; [apply toUnorm8_byte |].
  split; now apply decode_store_error.
Qed.

Lemma obstacle_normal_round_trip_witness :
  - 1 <= vx (Vec2 1 0) <= 1 /\ - 1 <= vy (Vec2 1 0) <= 1 /\
  Rabs (vx (ParticlesShaders.decodeObstacle
              (Vec4 (Texture.unorm
                       (fst (ObstacleMap.store
                               (ObstacleMapShaders.encodeNormal (Vec2 1 0)))))
                    (Texture.unorm
                       (snd (ObstacleMap.store
                               (ObstacleMapShaders.encodeNormal (Vec2 1 0)))))
                    0 1))
        - vx (Vec2 1 0)) <= 1 / 255.
Proof.
  assert (Hx : - 1 <= vx (Vec2 1 0) <= 1) by (cbn [vx]; lra).
  assert (Hy : - 1 <= vy (Vec2 1 0) <= 1) by (cbn [vy]; lra).
  split; [exact Hx |]. split; [exact Hy |].
  exact (proj1 (proj2 (proj2 (obstacle_normal_round_trip (Vec2 1 0) Hx Hy)))).
Defined.

(** ** The composite obstacle texture *)

Section Composite.
Import Texture ObstacleMapShaders ObstacleMap.

(** The pixel [(i, j)] of the composite texture, as an offset from the
    pointer in units of the half brush size. *)
Local Abbreviation offsetOf o x y i j :=
  (brushOffset (Vec2 x y) (uBrushSize o)
     (pixelCentre (_FBO_width o) (_FBO_height o) i j)).

Lemma setMobileObstacle_texel (o : t) (x y : R) (i j : nat) :
  wellFormed o -> (i < _FBO_width o)%nat -> (j < _FBO_height o)%nat ->
  texel (_texture (setMobileObstacle o x y)) i j
  = if Rlt_dec (dot (offsetOf o x y i j) (offsetOf o x y i j)) 1
    then store (encodeNormal (normalize (offsetOf o x y i j)))
    else texel (_staticTexture o) i j.
Proof.
  intros [Hw Hh [Hsw Hsh] [Htw Hth] Hsb Htb] Hi Hj.
  unfold setMobileObstacle. cbn [_texture].
  rewrite drawMobile_texel; try assumption; try lia.
  now rewrite Htw, Hth.
Qed.

(** X2.  [setMobileObstacle] recomputes the composite texture from the static
    one: inside the disc of the brush around the pointer (off its centre) a
    texel is the stored encoding of the unit vector pointing away from the
    pointer; everywhere else it is the texel of the static texture, to the
    byte.  The static texture is not written. *)
Theorem setMobileObstacle_composite (o : t) (x y : R) (i j : nat) :
  wellFormed o ->
  vx (uBrushSize o) <> 0 -> vy (uBrushSize o) <> 0 ->
  (i < _FBO_width o)%nat -> (j < _FBO_height o)%nat ->
  (0 < dot (offsetOf o x y i j) (offsetOf o x y i j) < 1 ->
   texel (_texture (setMobileObstacle o x y)) i j
   = store (encodeNormal (normalize (offsetOf o x y i j)))) /\
  (1 <= dot (offsetOf o x y i j) (offsetOf o x y i j) ->
   texel (_texture (setMobileObstacle o x y)) i j
   = texel (_staticTexture o) i j) /\
  _staticTexture (setMobileObstacle o x y) = _staticTexture o.
Proof.
  intros Hwf _ _ Hi Hj.
  rewrite setMobileObstacle_texel by assumption.
  split; [| split; [| reflexivity]]; intro Hd;
    destruct (Rlt_dec _ 1); try reflexivity; lra.
Qed.

(** X3.  The composite texture keeps nothing of the pointer's earlier
    positions: after two calls of [setMobileObstacle] it is, texel by
    texel, what the second call alone would have made of it, and the static
    texture is still the one before the calls. *)
Theorem setMobileObstacle_transient (o : t) (x1 y1 x2 y2 : R) (i j : nat) :
  texel (_texture (setMobileObstacle (setMobileObstacle o x1 y1) x2 y2)) i j
  = texel (_texture (setMobileObstacle o x2 y2)) i j /\
  width (_texture (setMobileObstacle (setMobileObstacle o x1 y1) x2 y2))
  = width (_texture o) /\
  height (_texture (setMobileObstacle (setMobileObstacle o x1 y1) x2 y2))
  = height (_texture o) /\
  _staticTexture (setMobileObstacle (setMobileObstacle o x1 y1) x2 y2)
  = _staticTexture o.
Proof.
  unfold setMobileObstacle. cbn [_texture _staticTexture uBrushSize].
  destruct (drawMobile_size (_texture o) (_staticTexture o) (Vec2 x1 y1)
              (uBrushSize o)) as [Hw1 Hh1].
  destruct (drawMobile_size
              (drawMobile (_texture o) (_staticTexture o) (Vec2 x1 y1)
                 (uBrushSize o))
              (_staticTexture o) (Vec2 x2 y2) (uBrushSize o)) as [Hw2 Hh2].
  split; [| split; [congruence | split; [congruence | reflexivity]]].
  unfold drawMobile in *.
  destruct (complete (_texture o)) eqn:Hc; [| now rewrite Hc].
  unfold complete at 1. cbn [width height]. fold (complete (_texture o)).
  rewrite Hc. cbn [texel width height]. unfold addMobileFrag. cbv zeta.
  destruct (Rlt_dec _ 1); reflexivity.
Qed.

End Composite.

Section Painted.
Import Texture ObstacleMapShaders ObstacleMap.

Variable rasterize : rasterizer.

Lemma addStaticObstacle_texture_texel (o : t) (x y : R) (i j : nat) :
  wellFormed o -> (i < _FBO_width o)%nat -> (j < _FBO_height o)%nat ->
  dot (brushOffset (Vec2 x y) (uBrushSize o)
         (pixelCentre (_FBO_width o) (_FBO_height o) i j))
      (brushOffset (Vec2 x y) (uBrushSize o)
         (pixelCentre (_FBO_width o) (_FBO_height o) i j)) < 1 ->
  texel (_texture (addStaticObstacle rasterize o x y)) i j
  = store (encodeNormal
             (normalize
                (brushOffset (Vec2 x y) (uBrushSize o)
                   (pixelCentre (_FBO_width o) (_FBO_height o) i j)))).
Proof.
  intros [Hw Hh [Hsw Hsh] [Htw Hth] Hsb Htb] Hi Hj Hd.
  unfold addStaticObstacle.
  rewrite setMobileObstacle_texel.
  - cbn [uBrushSize _FBO_width _FBO_height].
    destruct (Rlt_dec _ 1); [reflexivity | lra].
  - constructor; cbn [_FBO_width _FBO_height _staticTexture _texture];
      try assumption; try (split; assumption).
    + destruct (drawStatic_size rasterize (_staticTexture o) (Vec2 x y)
                  (uBrushSize o)) as [-> ->]. now split.
    + now apply drawStatic_bytes.
  - exact Hi.
  - exact Hj.
Qed.

Lemma unit_components (n : vec2) :
  dot n n = 1 -> - 1 <= vx n <= 1 /\ - 1 <= vy n <= 1.
Proof. unfold dot. intro H. split; split; nra. Qed.

Lemma near_unit_is_obstacle (n n' : vec2) :
  dot n n = 1 ->
  Rabs (vx n' - vx n) <= 1 / 255 -> Rabs (vy n' - vy n) <= 1 / 255 ->
  0.1 < dot n' n'.
Proof.
  intros Hn Hx Hy. destruct (unit_components n Hn) as [Hnx Hny].
  apply Rabs_le_inv in Hx, Hy. unfold dot in *.
  set (ex := vx n' - vx n) in *. set (ey := vy n' - vy n) in *.
  replace (vx n') with (vx n + ex) by (unfold ex; ring).
  replace (vy n') with (vy n + ey) by (unfold ey; ring).
  assert (Hpx : - (1 / 255) <= vx n * ex) by nra.
  assert (Hpy : - (1 / 255) <= vy n * ey) by nra.
  nra.
Qed.

(** X5.  A pixel painted by the brush is an obstacle at once.  After
    [addStaticObstacle], the vector decoded from the composite texture at
    the centre of a pixel of the disc (off the centre of the disc) is
    within [1/255], on each component, of the unit vector pointing away
    from the centre; it passes the obstacle test of the update shader,
    [dot(n, n) > 0.1], and the draw shader of the map does not discard
    it. *)
Theorem painted_pixel_is_obstacle (o : t) (x y : R) (i j : nat) :
  wellFormed o ->
  vx (uBrushSize o) <> 0 -> vy (uBrushSize o) <> 0 ->
  (i < _FBO_width o)%nat -> (j < _FBO_height o)%nat ->
  let q := pixelCentre (_FBO_width o) (_FBO_height o) i j in
  let fromCenter := brushOffset (Vec2 x y) (uBrushSize o) q in
  0 < dot fromCenter fromCenter < 1 ->
  let read :=
    ParticlesShaders.decodeObstacle
      (GLSL.texture (texture (addStaticObstacle rasterize o x y)) q) in
  Rabs (vx read - vx (normalize fromCenter)) <= 1 / 255 /\
  Rabs (vy read - vy (normalize fromCenter)) <= 1 / 255 /\
  ParticlesShaders.isObstacle read = true /\
  forall uDisplayNormals,
    drawFrag (texture (addStaticObstacle rasterize o x y)) uDisplayNormals q
    <> Discard.
Proof.
  intros Hwf _ _ Hi Hj q fromCenter [Hpos Hin] read.
  pose proof (addStaticObstacle_wellFormed rasterize o x y Hwf) as Hwf'.
  pose proof (addStaticObstacle_texture_texel o x y i j Hwf Hi Hj Hin) as Ht.
  destruct Hwf' as [_ _ _ [Htw Hth] _ _].
  assert (Hfw : _FBO_width (addStaticObstacle rasterize o x y) = _FBO_width o)
    by reflexivity.
  assert (Hfh : _FBO_height (addStaticObstacle rasterize o x y) = _FBO_height o)
    by reflexivity.
  rewrite Hfw in Htw. rewrite Hfh in Hth.
  assert (Hread : GLSL.texture (texture (addStaticObstacle rasterize o x y)) q
                  = Vec4 (unorm (toUnorm8
                                   (0.5 * vx (normalize fromCenter) + 0.5)))
                         (unorm (toUnorm8
                                   (0.5 * vy (normalize fromCenter) + 0.5)))
                         0 1).
  { unfold GLSL.texture, texture, q. rewrite <- Htw, <- Hth.
    rewrite sample_pixelCentre by lia.
    rewrite Ht. reflexivity. }
  pose proof (normalize_unit fromCenter Hpos) as Hunit.
  destruct (unit_components _ Hunit) as [Hnx Hny].
  assert (Hex : Rabs (vx read - vx (normalize fromCenter)) <= 1 / 255).
  { unfold read. rewrite Hread.
    unfold ParticlesShaders.decodeObstacle, vadds, vscale, rg.
    cbn [vx vy cr cg]. now apply decode_store_error. }
  assert (Hey : Rabs (vy read - vy (normalize fromCenter)) <= 1 / 255).
  { unfold read. rewrite Hread.
    unfold ParticlesShaders.decodeObstacle, vadds, vscale, rg.
    cbn [vx vy cr cg]. now apply decode_store_error. }
  pose proof (near_unit_is_obstacle _ read Hunit Hex Hey) as Hobs.
  split; [exact Hex |]. split; [exact Hey |]. split.
  - unfold ParticlesShaders.isObstacle.
    destruct (Rlt_dec 0.1 (dot read read)); [reflexivity | contradiction].
  - intro flag. unfold drawFrag. cbv zeta.
    change (vadds (vscale 2 (rg (GLSL.texture
                                  (texture (addStaticObstacle rasterize o x y))
                                  q))) (- 1)) with read.
    destruct (Rlt_dec (dot read read) 0.1); [lra |].
    destruct flag; discriminate.
Qed.

(** X6.  After [reset], on a frame buffer of even width (or of a single
    row), where the upload of the fresh textures is accepted, no obstacle
    is left on either layer: at every point the draw shader of the map
    discards its fragment and the obstacle test of the update shader
    fails; and after a later [setMobileObstacle] the texels outside the
    disc of the brush are the fresh ones, [(127, 127)]. *)
Theorem reset_clears (o : t) :
  (0 < _FBO_width o)%nat -> (0 < _FBO_height o)%nat ->
  Nat.even (_FBO_width o) = true \/ _FBO_height o = 1%nat ->
  (forall uDisplayNormals uv,
     drawFrag (texture (reset o)) uDisplayNormals uv = Discard) /\
  (forall uv,
     ParticlesShaders.isObstacle
       (ParticlesShaders.decodeObstacle (GLSL.texture (texture (reset o)) uv))
     = false) /\
  (forall i j, (i < _FBO_width o)%nat -> (j < _FBO_height o)%nat ->
     texel (_staticTexture (reset o)) i j = (127%Z, 127%Z)) /\
  (forall x y i j, (i < _FBO_width o)%nat -> (j < _FBO_height o)%nat ->
     1 <= dot (brushOffset (Vec2 x y) (uBrushSize o)
                 (pixelCentre (_FBO_width o) (_FBO_height o) i j))
              (brushOffset (Vec2 x y) (uBrushSize o)
                 (pixelCentre (_FBO_width o) (_FBO_height o) i j)) ->
     texel (_texture (setMobileObstacle (reset o) x y)) i j
     = (127%Z, 127%Z)).
Proof.
  intros Hw Hh Hacc.
  assert (Hdec : forall uv,
             ParticlesShaders.decodeObstacle
               (GLSL.texture (texture (reset o)) uv) = Scenario.freshNormal).
  { intro uv. unfold texture, reset. cbn [_texture].
    now apply decode_fresh. }
  assert (Hwf : wellFormed (reset o)) by now apply reset_wellFormed_map.
  split; [| split; [| split]].
  - intros flag uv. unfold drawFrag. cbv zeta.
    change (vadds (vscale 2 (rg (GLSL.texture (texture (reset o)) uv))) (- 1))
      with (ParticlesShaders.decodeObstacle
              (GLSL.texture (texture (reset o)) uv)).
    rewrite Hdec, freshNormal_dot.
    destruct (Rlt_dec (2 / 65025) 0.1); [reflexivity | lra].
  - intro uv. rewrite Hdec. apply freshNormal_no_obstacle.
  - intros i j Hi Hj. unfold reset. cbn [_staticTexture].
    now apply initTexture_texel.
  - intros x y i j Hi Hj Hd.
    rewrite setMobileObstacle_texel by assumption.
    cbn [reset uBrushSize _FBO_width _FBO_height _staticTexture].
    destruct (Rlt_dec _ 1); [lra |].
    now apply initTexture_texel.
Qed.

End Painted.

Lemma smallMap_wellFormed : ObstacleMap.wellFormed Scenario.smallMap.
Proof.
  constructor;
    cbn [Scenario.smallMap ObstacleMap._FBO_width ObstacleMap._FBO_height
         ObstacleMap._staticTexture ObstacleMap._texture];
    try lia; try (apply initTexture_size; left; reflexivity);
    apply initTexture_bytes.
Qed.

Lemma smallMap_brush :
  vx (ObstacleMap.uBrushSize Scenario.smallMap) <> 0 /\
  vy (ObstacleMap.uBrushSize Scenario.smallMap) <> 0.
Proof. cbn. split; lra. Qed.

Lemma smallMap_offset_inner :
  ObstacleMap.brushOffset (Vec2 0.5 0.5)
    (ObstacleMap.uBrushSize Scenario.smallMap)
    (Texture.pixelCentre (ObstacleMap._FBO_width Scenario.smallMap)
       (ObstacleMap._FBO_height Scenario.smallMap) 1 1)
  = Vec2 (- 0.5) (- 0.5).
Proof.
  unfold ObstacleMap.brushOffset, Texture.pixelCentre, vdiv, vscale, vsub.
  cbn [Scenario.smallMap ObstacleMap.uBrushSize ObstacleMap._FBO_width
       ObstacleMap._FBO_height vx vy].
  replace (INR 4) with 4 by (simpl; lra).
  replace (INR 1) with 1 by reflexivity.
  f_equal; lra.
Qed.

Lemma setMobileObstacle_composite_witness :
  ObstacleMap.wellFormed Scenario.smallMap /\
  ObstacleMap._staticTexture
    (ObstacleMap.setMobileObstacle Scenario.smallMap 0.5 0.5)
  = ObstacleMap._staticTexture Scenario.smallMap.
Proof.
  destruct smallMap_brush as [Hx Hy].
  assert (H4 : (1 < 4)%nat) by lia.
  split; [exact smallMap_wellFormed |].
  exact (proj2 (proj2 (setMobileObstacle_composite Scenario.smallMap
                         0.5 0.5 1 1 smallMap_wellFormed Hx Hy H4 H4))).
Defined.

Lemma painted_pixel_is_obstacle_witness :
  ObstacleMap.wellFormed Scenario.smallMap /\
  ParticlesShaders.isObstacle
    (ParticlesShaders.decodeObstacle
       (GLSL.texture
          (ObstacleMap.texture
             (ObstacleMap.addStaticObstacle (ObstacleMap.exact (fun _ => true))
                Scenario.smallMap 0.5 0.5))
          (Texture.pixelCentre (ObstacleMap._FBO_width Scenario.smallMap)
             (ObstacleMap._FBO_height Scenario.smallMap) 1 1)))
  = true.
Proof.
  destruct smallMap_brush as [Hx Hy].
  assert (H4 : (1 < 4)%nat) by lia.
  assert (Hd : 0 < dot (ObstacleMap.brushOffset (Vec2 0.5 0.5)
                          (ObstacleMap.uBrushSize Scenario.smallMap)
                          (Texture.pixelCentre
                             (ObstacleMap._FBO_width Scenario.smallMap)
                             (ObstacleMap._FBO_height Scenario.smallMap) 1 1))
                       (ObstacleMap.brushOffset (Vec2 0.5 0.5)
                          (ObstacleMap.uBrushSize Scenario.smallMap)
                          (Texture.pixelCentre
                             (ObstacleMap._FBO_width Scenario.smallMap)
                             (ObstacleMap._FBO_height Scenario.smallMap) 1 1))
                 < 1).
  { rewrite smallMap_offset_inner. unfold dot. cbn [vx vy]. lra. }
  split; [exact smallMap_wellFormed |].
  exact (proj1 (proj2 (proj2 (painted_pixel_is_obstacle
                                (ObstacleMap.exact (fun _ => true))
                                Scenario.smallMap 0.5 0.5 1 1
                                smallMap_wellFormed Hx Hy H4 H4 Hd)))).
Defined.

Lemma reset_clears_witness :
  (0 < ObstacleMap._FBO_width Scenario.smallMap)%nat /\
  forall uv,
    ObstacleMapShaders.drawFrag
      (ObstacleMap.texture (ObstacleMap.reset Scenario.smallMap)) false uv
    = ObstacleMapShaders.Discard.
Proof.
  assert (H4 : (0 < ObstacleMap._FBO_width Scenario.smallMap)%nat)
    by (cbn; lia).
  assert (H4' : (0 < ObstacleMap._FBO_height Scenario.smallMap)%nat)
    by (cbn; lia).
  split; [exact H4 |].
  exact (proj1 (reset_clears Scenario.smallMap H4 H4' (or_introl eq_refl))
           false).
Defined.

(** ** The simulation along a run *)

Section StepBounds.
Import ParticlesShaders.

Variables w h : nat.
Variable obstacles : Texture.texture2D.
Variable uDt : R.
Variable uAcceleration : vec2.

Hypothesis canvas_width : (0 < w)%nat.
Hypothesis canvas_height : (0 < h)%nat.
Hypothesis obstacle_bytes : Texture.bytes obstacles.
Hypothesis step_range : 0 <= uDt <= 0.1.

Local Abbreviation K := (Particles.shaderConstants w h).
Local Abbreviation tex := (Texture.sample obstacles).

(** The ordinate written is at most one step below the bottom edge, if the
    ordinate before the step was. *)
Lemma nextPosition_above_floor (pos vel : vec2) :
  - 0.5 * INR h - 0.1 * (MAX_SPEED K + 1) <= vy pos ->
  - 0.5 * INR h - 0.1 * (MAX_SPEED K + 1)
  <= vy (nextPosition K tex uDt uAcceleration pos vel).
Proof.
  intro Hy.
  pose proof (nextVel_length w h tex uDt uAcceleration pos vel) as Hl.
  pose proof (component_le_length
                (nextVelocity K tex uDt uAcceleration pos vel)) as [_ Hc].
  assert (Hv := Rabs_le_inv _ _ (Rle_trans _ _ _ Hc Hl)).
  set (v := nextVelocity K tex uDt uAcceleration pos vel) in *.
  pose proof (MAX_SPEED_nonneg w h) as Hm.
  assert (Hn : forall p, - 1 <= vy (obstacleAt K tex p) <= 1)
    by (intro p; apply obstacleAt_range; assumption).
  destruct (below K pos) eqn:Hbelow.
  - rewrite nextPos_reinjected by exact Hbelow. cbn [vy].
    fold v. unfold nudge, integrate, vadd, vscale. cbn [vy].
    specialize (Hn (Vec2 (vx pos + uDt * vx v) (vy pos + uDt * vy v))).
    set (n := obstacleAt K tex _) in *.
    pose proof (random_range pos) as Hr.
    rewrite POS_BANDWIDTH_canvas.
    pose proof (INR_max_ge w h) as [_ HMh].
    pose proof (INR_min_le w h) as [_ Hmh].
    assert (H1 : 1 <= INR h) by (apply (le_INR 1); lia).
    assert (Hoff : 0 <= 0.5 * random pos * (1.2 * INR (Nat.max w h) - INR h))
      by nra.
    assert (HM : MAX_SPEED K <= 0.5 * INR h)
      by (rewrite MAX_SPEED_canvas; lra).
    assert (Hs1 : - (0.1 * MAX_SPEED K) <= uDt * vy v) by nra.
    assert (Hs2 : - 0.1 <= uDt * vy n) by nra.
    lra.
  - rewrite nextPos_kept by exact Hbelow. unfold wrap. cbn [vy].
    fold v. unfold nudge, integrate, vadd, vscale. cbn [vy].
    specialize (Hn (Vec2 (vx pos + uDt * vx v) (vy pos + uDt * vy v))).
    set (n := obstacleAt K tex _) in *.
    apply below_false in Hbelow.
    assert (Hs1 : - (0.1 * MAX_SPEED K) <= uDt * vy v) by nra.
    assert (Hs2 : - 0.1 <= uDt * vy n) by nra.
    lra.
Qed.

Lemma nextVelocity_in_box (pos vel : vec2) :
  Rabs (vx (nextVelocity K tex uDt uAcceleration pos vel)) <= MAX_SPEED K /\
  Rabs (vy (nextVelocity K tex uDt uAcceleration pos vel)) <= MAX_SPEED K.
Proof.
  pose proof (nextVel_length w h tex uDt uAcceleration pos vel) as Hl.
  pose proof (component_le_length
                (nextVelocity K tex uDt uAcceleration pos vel)) as [Hx Hy].
  split; eapply Rle_trans; eassumption.
Qed.

End StepBounds.

Section Run.
Import Particles Main.

Variable rasterize : ObstacleMap.rasterizer.
Variable c : Controls.canvas.
Variables w h : nat.
Hypothesis canvas_width : (0 < w)%nat.
Hypothesis canvas_height : (0 < h)%nat.

Lemma reset_rng (p : Particles.t) (nb : nat) (g : rng) :
  0 <= _maxSpeed p -> unit_range g -> unit_range (snd (reset p nb g)).
Proof.
  intros Hm Hg. unfold reset.
  pose proof (randomParticles_spec nb (INR (_worldWidth p))
                (INR (_worldHeight p)) (_maxSpeed p) g Hg
                (pos_INR _) (pos_INR _) Hm) as Hspec.
  destruct (randomParticles nb _ _ _ g) as [[pos vel] g'].
  cbn [snd]. tauto.
Qed.

Lemma wellFormed_maxSpeed (p : Particles.t) :
  wellFormed p ->
  ParticlesShaders.MAX_SPEED (_updateShader p) = _maxSpeed p /\
  0 <= _maxSpeed p.
Proof.
  intros [_ Hs Hm _ _]. rewrite Hs, MAX_SPEED_canvas, Hm.
  split; [reflexivity |].
  pose proof (pos_INR (Nat.min (_worldWidth p) (_worldHeight p))). lra.
Qed.

(** The particles that [reset] makes satisfy the three bounds. *)
Lemma reset_current (p : Particles.t) (nb : nat) (g : rng) :
  wellFormed p -> unit_range g ->
  Forall (fun v => inBand (fst (reset p nb g)) (fst v) /\
                   aboveFloor (fst (reset p nb g)) (fst v) /\
                   inSpeedBox (fst (reset p nb g)) (snd v))
         (current (fst (reset p nb g))).
Proof.
  intros Hwf Hg.
  destruct (wellFormed_maxSpeed p Hwf) as [HM Hm].
  pose proof (reset_wellFormed p nb g Hwf) as Hwf'.
  destruct (wellFormed_maxSpeed _ Hwf') as [HM' Hm'].
  destruct (reset_generation p nb g (currIndex (fst (reset p nb g))) Hg Hm)
    as (_ & _ & Hdom & Hbox & _).
  pose proof (reset_band p nb g Hwf Hg) as Hband.
  rewrite Forall_forall in *. intros [pos vel] Hin.
  specialize (Hband _ Hin).
  unfold current in Hin.
  pose proof (in_combine_l _ _ _ _ Hin) as Hp.
  pose proof (in_combine_r _ _ _ _ Hin) as Hv.
  specialize (Hdom _ Hp). specialize (Hbox _ Hv). cbn [fst snd] in *.
  split; [exact Hband |]. split; [| exact Hbox].
  unfold aboveFloor. destruct Hdom as [_ Hy]. apply Rabs_le_inv in Hy.
  rewrite HM'. lra.
Qed.

(** The three bounds are kept by [update], whatever the obstacle texture
    holds. *)
Lemma update_keeps_bounds (p : Particles.t) (o : ObstacleMap.t) (dt : R) :
  wellFormed p -> _worldWidth p = w -> _worldHeight p = h ->
  Texture.bytes (ObstacleMap._texture o) ->
  0 <= speed p * dt <= 0.1 ->
  Forall (fun v => inBand p (fst v) /\ aboveFloor p (fst v) /\
                   inSpeedBox p (snd v)) (current p) ->
  Forall (fun v => inBand (update p (ObstacleMap.texture o) dt) (fst v) /\
                   aboveFloor (update p (ObstacleMap.texture o) dt) (fst v) /\
                   inSpeedBox (update p (ObstacleMap.texture o) dt) (snd v))
         (current (update p (ObstacleMap.texture o) dt)).
Proof.
  intros Hwf Hpw Hph Htb Hdt Hall.
  destruct (wellFormed_maxSpeed p Hwf) as [HM Hm].
  rewrite update_current by exact Hwf.
  rewrite Forall_forall in *. intros v Hin.
  apply in_map_iff in Hin. destruct Hin as [[pos vel] [<- Hin]].
  destruct (Hall _ Hin) as (Hband & Hfloor & _). cbn [fst snd] in *.
  unfold inBand, aboveFloor, inSpeedBox in *.
  change (_updateShader (update p (ObstacleMap.texture o) dt))
    with (_updateShader p).
  change (_worldHeight (update p (ObstacleMap.texture o) dt))
    with (_worldHeight p).
  change (_maxSpeed (update p (ObstacleMap.texture o) dt))
    with (_maxSpeed p).
  rewrite <- HM.
  rewrite (wf_shader p Hwf) in *. rewrite Hpw, Hph in *.
  unfold ObstacleMap.texture. cbn [ParticlesShaders.main fst snd].
  split; [now apply nextPosition_in_band |].
  split; [now apply nextPosition_above_floor |].
  now apply nextVelocity_in_box.
Qed.

Lemma mouseMove_wellFormed (down : bool) (o : ObstacleMap.t) (x y : R) :
  ObstacleMap.wellFormed o ->
  ObstacleMap.wellFormed (Controls.mouseMove rasterize c down o x y).
Proof.
  intro Hwf. unfold Controls.mouseMove. cbv zeta.
  destruct down.
  - now apply addStaticObstacle_wellFormed, setMobileObstacle_wellFormed.
  - now apply setMobileObstacle_wellFormed.
Qed.

Lemma mouseMove_fbo (down : bool) (o : ObstacleMap.t) (x y : R) :
  ObstacleMap._FBO_width (Controls.mouseMove rasterize c down o x y)
  = ObstacleMap._FBO_width o /\
  ObstacleMap._FBO_height (Controls.mouseMove rasterize c down o x y)
  = ObstacleMap._FBO_height o.
Proof. destruct down; split; reflexivity. Qed.

Lemma mouseMove_bytes (down : bool) (o : ObstacleMap.t) (x y : R) :
  Texture.bytes (ObstacleMap._staticTexture o) /\
  Texture.bytes (ObstacleMap._texture o) ->
  Texture.bytes (ObstacleMap._staticTexture
                   (Controls.mouseMove rasterize c down o x y)) /\
  Texture.bytes (ObstacleMap._texture
                   (Controls.mouseMove rasterize c down o x y)).
Proof.
  intro Hb. unfold Controls.mouseMove. cbv zeta.
  destruct down.
  - now apply addStaticObstacle_bytes, setMobileObstacle_bytes.
  - now apply setMobileObstacle_bytes.
Qed.

Lemma create_invariant (g : rng) :
  unit_range g -> invariant w h (create rasterize w h g).
Proof.
  intro Hg. unfold create.
  pose proof (constructor_wellFormed w h (16 * 16) g) as Hwf.
  assert (Hshape : exists p0,
             wellFormed p0 /\ _worldWidth p0 = w /\ _worldHeight p0 = h /\
             constructor w h (16 * 16) g
             = (withSpeed
                  (withAcceleration (fst (reset p0 (16 * 16) g))
                     (Vec2 0 (- 10000))) 1,
                snd (reset p0 (16 * 16) g))).
  { eexists. split; [| split; [| split]]; cycle 3.
    - unfold constructor.
      match goal with
      | |- (let (p, g') := reset ?p0 _ _ in _) = _ =>
          instantiate (1 := p0); unfold reset;
          destruct (randomParticles _ _ _ _ g) as [[pos vel] g']; reflexivity
      end.
    - constructor; cbn; try reflexivity; try lia; intros [| index]; reflexivity.
    - reflexivity.
    - reflexivity. }
  destruct Hshape as (p0 & Hwf0 & Hw0 & Hh0 & Heq). rewrite Heq in *.
  cbn [fst] in Hwf.
  pose proof (reset_current p0 (16 * 16) g Hwf0 Hg) as Hcur.
  destruct (wellFormed_maxSpeed p0 Hwf0) as [_ Hm0].
  pose proof (reset_rng p0 (16 * 16) g Hm0 Hg) as Hrng.
  assert (Hpw : _worldWidth (fst (reset p0 (16 * 16) g)) = w).
  { unfold reset. destruct (randomParticles _ _ _ _ g) as [[pos vel] g'].
    exact Hw0. }
  assert (Hph : _worldHeight (fst (reset p0 (16 * 16) g)) = h).
  { unfold reset. destruct (randomParticles _ _ _ _ g) as [[pos vel] g'].
    exact Hh0. }
  constructor; cbn [particles obstacles random]; try assumption.
  - apply constructor_fbo.
  - apply constructor_bytes.
  - intro Hacc. now apply constructor_wellFormed_map.
  - cbn. lra.
Qed.

Lemma handle_invariant (s : state) (e : event) :
  invariant w h s ->
  timely (lastUpdate s) [e] ->
  invariant w h (handle rasterize c s e).
Proof.
  intros [Hp Hpw Hph Hfbo Hb Ho Hs Hg Hcur] Ht.
  destruct e as [time | x y | x y | | | size | value | value | value | value];
    cbn [handle timely] in *.
  - destruct Ht as [Hlast _]. unfold mainLoop. cbv zeta.
    set (dt := Rmin (time * 0.001 - lastUpdate s) (1 / 10)).
    assert (Hdt : 0 <= dt <= 0.1).
    { unfold dt. split; [apply Rmin_glb; lra |].
      eapply Rle_trans; [apply Rmin_r | lra]. }
    assert (Hstep : 0 <= speed (particles s) * dt <= 0.1) by (split; nra).
    constructor; cbn [particles obstacles random]; try assumption.
    + now apply update_wellFormed.
    + apply update_keeps_bounds; try assumption. apply Hb.
  - constructor; cbn [particles obstacles random]; try assumption.
    + destruct (mouseMove_fbo (isMouseDown s) (obstacles s) x y)
        as [-> ->]. exact Hfbo.
    + now apply mouseMove_bytes.
    + intro Hacc. now apply mouseMove_wellFormed, Ho.
  - constructor; cbn [particles obstacles random]; try assumption.
    + now apply mouseMove_bytes.
    + intro Hacc. now apply mouseMove_wellFormed, Ho.
  - constructor; cbn [particles obstacles random]; assumption.
  - destruct Hfbo as [Hfw Hfh].
    constructor; cbn [particles obstacles random]; try assumption.
    + now split.
    + unfold ObstacleMap.reset.
      cbn [ObstacleMap._staticTexture ObstacleMap._texture].
      split; apply initTexture_bytes.
    + intro Hacc. apply reset_wellFormed_map; rewrite ?Hfw, ?Hfh; assumption.
  - unfold Controls.updateAmount.
    set (nb := nth size Controls.sizes 0%nat).
    destruct (wellFormed_maxSpeed _ Hp) as [_ Hm].
    pose proof (reset_wellFormed _ nb (random s) Hp) as Hwf'.
    pose proof (reset_current _ nb (random s) Hp Hg) as Hcur'.
    pose proof (reset_rng _ nb (random s) Hm Hg) as Hrng.
    assert (Hfields : _worldWidth (fst (reset (particles s) nb (random s)))
                      = w /\
                      _worldHeight (fst (reset (particles s) nb (random s)))
                      = h /\
                      speed (fst (reset (particles s) nb (random s)))
                      = speed (particles s)).
    { unfold reset.
      destruct (randomParticles _ _ _ _ (random s)) as [[pos vel] g'].
      cbn. tauto. }
    destruct Hfields as (Hw' & Hh' & Hs').
    destruct (reset (particles s) nb (random s)) as [p' g'].
    cbn [fst snd] in *.
    constructor; cbn [particles obstacles random]; try assumption.
    now rewrite Hs'.
  - constructor; cbn [particles obstacles random]; try assumption.
    destruct Hp. constructor; assumption.
  - destruct Ht as [Hv _].
    constructor; cbn [particles obstacles random]; try assumption.
    destruct Hp. constructor; assumption.
  - constructor; cbn [particles obstacles random]; try assumption.
    intro Hacc. now apply setBrushSize_wellFormed, Ho.
  - constructor; cbn [particles obstacles random]; try assumption.
    intro Hacc. now apply setDisplayNormals_wellFormed, Ho.
Qed.

Lemma lastUpdate_handle (s : state) (e : event) :
  lastUpdate (handle rasterize c s e)
  = match e with Frame time => time * 0.001 | _ => lastUpdate s end.
Proof.
  destruct e; try reflexivity.
  cbn [handle].
  now destruct (Controls.updateAmount (particles s) value (random s)).
Qed.

Lemma run_invariant (events : list event) (s : state) :
  invariant w h s ->
  timely (lastUpdate s) events ->
  invariant w h (run rasterize c s events).
Proof.
  revert s. induction events as [| e events IH]; intros s Hinv Ht;
    [exact Hinv |].
  cbn [run fold_left]. apply IH.
  - apply handle_invariant; [exact Hinv |].
    destruct e; cbn [timely] in *; tauto.
  - rewrite lastUpdate_handle. destruct e; cbn [timely] in Ht; tauto.
Qed.

Lemma lastUpdate_run (events : list event) (s : state) :
  (forall e, In e events -> match e with Frame _ => False | _ => True end) ->
  lastUpdate (run rasterize c s events) = lastUpdate s.
Proof.
  revert s. induction events as [| e events IH]; intros s Hno;
    [reflexivity |].
  cbn [run fold_left]. fold (run rasterize c (handle rasterize c s e) events).
  rewrite IH by (intros e' He'; apply Hno; now right).
  rewrite lastUpdate_handle.
  specialize (Hno e (or_introl eq_refl)). now destruct e.
Qed.

(** The state in which [main()] leaves the page satisfies the invariant,
    when the speed slider holds a value between 0 and 1. *)
Lemma init_invariant (page : Controls.inputs) (g : rng) :
  unit_range g -> 0 <= Controls.speedSlider page <= 1 ->
  invariant w h (init rasterize c w h page g) /\
  lastUpdate (init rasterize c w h page g) = 0.
Proof.
  intros Hg Hs. unfold init.
  assert (Hlast : lastUpdate (create rasterize w h g) = 0).
  { unfold create. now destruct (constructor w h (16 * 16) g). }
  split.
  - apply run_invariant; [now apply create_invariant |].
    unfold startup. cbn [timely]. tauto.
  - rewrite lastUpdate_run; [exact Hlast |].
    unfold startup. intros e He. cbn [In] in He.
    destruct He as [<- | [<- | [<- | [<- | [<- | []]]]]]; exact I.
Qed.

End Run.

(** X11.  Along every run of the page (the start-up calls of the handlers
    with the values of the inputs, then animation frames whose times do
    not decrease, mouse events, resets of the obstacles and of the
    particles, changes of gravity, of brush size, of the display of the
    normals and of a speed factor kept between 0 and 1), whatever the
    rasteriser does, the simulation stays well formed, with the number of
    particles of the last reset, the obstacle textures hold bytes and,
    when their upload is accepted (a canvas of even width, or of a single
    row), the obstacle map stays well formed, and every particle of the
    current generation has its abscissa in the position band, its ordinate
    at most [0.1 * (MAX_SPEED + 1)] below the bottom edge, and each
    component of its velocity between minus and plus the maximal speed. *)
Theorem simulation_invariant (rasterize : ObstacleMap.rasterizer)
    (c : Controls.canvas) (w h : nat) (page : Controls.inputs)
    (g : Particles.rng) (events : list Main.event) :
  (0 < w)%nat -> (0 < h)%nat ->
  Particles.unit_range g ->
  0 <= Controls.speedSlider page <= 1 ->
  Main.timely 0 events ->
  let s := Main.run rasterize c (Main.init rasterize c w h page g) events in
  Particles.wellFormed (Main.particles s) /\
  Texture.bytes (ObstacleMap._staticTexture (Main.obstacles s)) /\
  Texture.bytes (ObstacleMap._texture (Main.obstacles s)) /\
  (Nat.even w = true \/ h = 1%nat ->
   ObstacleMap.wellFormed (Main.obstacles s)) /\
  List.length (Particles.current (Main.particles s))
  = Particles.nbParticles (Main.particles s) /\
  Forall (fun v =>
            Particles.inBand (Main.particles s) (fst v) /\
            Main.aboveFloor (Main.particles s) (fst v) /\
            Particles.inSpeedBox (Main.particles s) (snd v))
         (Particles.current (Main.particles s)).
Proof.
  intros Hw Hh Hg Hs Ht. cbv zeta.
  destruct (init_invariant rasterize c w h Hw Hh page g Hg Hs)
    as [Hinit Hlast].
  rewrite <- Hlast in Ht.
  destruct (run_invariant rasterize c w h Hw Hh events _ Hinit Ht)
    as [Hp _ _ _ [Hsb Htb] Ho _ _ Hcur].
  split; [exact Hp |]. split; [exact Hsb |]. split; [exact Htb |].
  split; [exact Ho |]. split; [| exact Hcur].
  unfold Particles.current, Particles.nbParticles.
  rewrite length_combine, (Particles.wf_pos _ Hp), (Particles.wf_vel _ Hp).
  lia.
Qed.

Lemma simulation_invariant_witness :
  (0 < 512)%nat /\ Particles.unit_range Scenario.halves /\
  0 <= Controls.speedSlider Scenario.controls <= 1 /\
  Main.timely 0 Scenario.session /\
  Particles.wellFormed
    (Main.particles
       (Main.run (ObstacleMap.snapped 16) Scenario.page
          (Main.init (ObstacleMap.snapped 16) Scenario.page 512 512
             Scenario.controls Scenario.halves)
          Scenario.session)).
Proof.
  assert (Hn : (0 < 512)%nat) by lia.
  assert (Hs : 0 <= Controls.speedSlider Scenario.controls <= 1)
    by (cbn; lra).
  assert (Ht : Main.timely 0 Scenario.session).
  { unfold Scenario.session. cbn [Main.timely]. repeat split; lra. }
  split; [exact Hn |]. split; [exact unit_range_halves |].
  split; [exact Hs |]. split; [exact Ht |].
  exact (proj1 (simulation_invariant (ObstacleMap.snapped 16) Scenario.page
                  512 512 Scenario.controls Scenario.halves Scenario.session
                  Hn Hn unit_range_halves Hs Ht)).
Defined.

(** ** The two generations *)

Section DoubleBuffer.
Import Particles.

Lemma at2_set2_other {A : Type} (pair : A * A) (src dst : nat) (a : A) :
  (src < 2)%nat -> (dst < 2)%nat -> src <> dst ->
  at2 (set2 pair dst a) src = at2 pair src.
Proof.
  intros Hs Hd Hne.
  destruct src as [| [| src]], dst as [| [| dst]]; try lia; reflexivity.
Qed.

Lemma nextIndex_other (p : t) :
  (_currIndex p < 2)%nat ->
  (nextIndex p < 2)%nat /\ nextIndex p <> _currIndex p /\
  ((nextIndex p + 1) mod 2 = _currIndex p)%nat.
Proof.
  intro Hi. unfold nextIndex.
  destruct (_currIndex p) as [| [| k]]; [cbn; lia | cbn; lia | lia].
Qed.

(** X7.  [update] is a double-buffered step.  It switches the current
    generation to the other index; the new current generation holds, slot
    by slot, the outputs of the update shader for the particles of the old
    one; the buffers of the old one are left as they were; the number of
    particles does not change; and a second [update] brings the index
    back. *)
Theorem update_double_buffer (p : t) (obstacles : sampler2D) (dt : R) :
  wellFormed p ->
  currIndex (update p obstacles dt) = nextIndex p /\
  currIndex (update p obstacles dt) <> currIndex p /\
  current (update p obstacles dt)
  = map (fun v => ParticlesShaders.main (_updateShader p) obstacles
                    (speed p * dt) (acceleration p) (fst v) (snd v))
        (current p) /\
  at2 (_posVBO (update p obstacles dt)) (currIndex p)
  = at2 (_posVBO p) (currIndex p) /\
  at2 (_velVBO (update p obstacles dt)) (currIndex p)
  = at2 (_velVBO p) (currIndex p) /\
  nbParticles (update p obstacles dt) = nbParticles p /\
  List.length (current (update p obstacles dt)) = nbParticles p /\
  forall obstacles' dt',
    currIndex (update (update p obstacles dt) obstacles' dt') = currIndex p.
Proof.
  intro Hwf.
  pose proof (update_current p obstacles dt Hwf) as Hcur.
  destruct (nextIndex_other p (wf_index p Hwf)) as (Hn2 & Hne & Hback).
  pose proof (wf_index p Hwf) as Hi.
  split; [reflexivity |]. split; [exact Hne |]. split; [exact Hcur |].
  split; [| split; [| split; [reflexivity | split]]].
  - unfold update, switchBuffers. cbn [_posVBO].
    apply at2_set2_other; unfold currIndex; auto.
  - unfold update, switchBuffers. cbn [_velVBO].
    apply at2_set2_other; unfold currIndex; auto.
  - rewrite Hcur, length_map. unfold current, nbParticles.
    rewrite length_combine, (wf_pos p Hwf), (wf_vel p Hwf). lia.
  - intros obstacles' dt'. rewrite !currIndex_update.
    unfold nextIndex at 1. cbn [update switchBuffers _currIndex].
    exact Hback.
Qed.

End DoubleBuffer.

Lemma update_double_buffer_witness :
  Particles.wellFormed Scenario.started /\
  Particles.currIndex Scenario.stepped <> Particles.currIndex Scenario.started
  /\
  Particles.at2 (Particles._posVBO Scenario.stepped)
    (Particles.currIndex Scenario.started)
  = Particles.at2 (Particles._posVBO Scenario.started)
      (Particles.currIndex Scenario.started).
Proof.
  assert (Hwf : Particles.wellFormed Scenario.started)
    by apply constructor_wellFormed.
  destruct (update_double_buffer Scenario.started Scenario.fresh512 0.016 Hwf)
    as (_ & Hne & _ & Hpos & _).
  split; [exact Hwf |]. split; [exact Hne | exact Hpos].
Defined.

(** ** The constants shared by the class and its shaders *)

(** X10.  The constants pasted into the shaders are the numbers the class keeps:
    printing them with [toFixed(1)] loses nothing.  For a drawing buffer of
    [w * h] pixels the maximal speed is half the smaller side and the
    position band is 1.2 times the larger one, hence at least as wide as
    the world and as high; a new simulation has [nb] particles and its
    current generation is generation 0. *)
Theorem constructor_constants (w h nb : nat) (g : Particles.rng) :
  let p := fst (Particles.constructor w h nb g) in
  ParticlesShaders.MAX_SPEED (Particles._updateShader p)
  = Particles._maxSpeed p /\
  Particles._maxSpeed p = 0.5 * INR (Nat.min w h) /\
  ParticlesShaders.POS_BANDWIDTH (Particles._updateShader p)
  = Particles._posBandwidth p /\
  Particles._posBandwidth p = 1.2 * INR (Nat.max w h) /\
  ParticlesShaders.WORLD_SIZE (Particles._updateShader p)
  = Vec2 (INR w) (INR h) /\
  INR w <= ParticlesShaders.POS_BANDWIDTH (Particles._updateShader p) /\
  INR h <= ParticlesShaders.POS_BANDWIDTH (Particles._updateShader p) /\
  Particles.nbParticles p = nb /\
  Particles.currIndex p = 0%nat /\
  Particles.speed p = 1 /\
  Particles.acceleration p = Vec2 0 (- 10000).
Proof.
  cbv zeta. rewrite constructor_updateShader, maxSpeed_constructor,
    MAX_SPEED_canvas, POS_BANDWIDTH_canvas, currIndex_constructor.
  pose proof (INR_max_ge w h) as [HMw HMh].
  pose proof (pos_INR w). pose proof (pos_INR h).
  assert (Hrest : Particles._posBandwidth (fst (Particles.constructor w h nb g))
                  = 1.2 * INR (Nat.max w h) /\
                  Particles.nbParticles (fst (Particles.constructor w h nb g))
                  = nb /\
                  Particles.speed (fst (Particles.constructor w h nb g)) = 1 /\
                  Particles.acceleration
                    (fst (Particles.constructor w h nb g))
                  = Vec2 0 (- 10000)).
  { unfold Particles.constructor, Particles.reset.
    destruct (Particles.randomParticles nb _ _ _ g) as [[pos vel] g'].
    cbn. repeat split. }
  destruct Hrest as (Hb & Hnb & Hs & Ha). rewrite Hb.
  repeat split; try assumption; try reflexivity; lra.
Qed.

(** ** The velocity of a reinjected particle *)

(** X9.  A particle that has fallen below the bottom edge gets, before the
    collision response and the speed clamp, a velocity made from the hash
    of its old state alone: neither the acceleration nor the time step
    enters it.  Its horizontal component is within a tenth of the maximal
    speed, and its vertical component is in [[0, 1)]: it never points
    downwards. *)
Theorem reinjected_velocity (w h : nat) (uDt : R) (uAcceleration : vec2)
    (pos vel : vec2) :
  vy pos < - 0.5 * INR h ->
  let K := Particles.shaderConstants w h in
  let fresh := ParticlesShaders.accelerate K uDt uAcceleration pos vel in
  fresh = Vec2 (0.1 * ParticlesShaders.MAX_SPEED K
                * (2 * ParticlesShaders.random (vscale 100 pos) - 1))
               (ParticlesShaders.random (vadd pos vel)) /\
  Rabs (vx fresh) <= 0.1 * ParticlesShaders.MAX_SPEED K /\
  0 <= vy fresh < 1 /\
  forall uDt' uAcceleration',
    ParticlesShaders.accelerate K uDt' uAcceleration' pos vel = fresh.
Proof.
  intros Hy. cbv zeta.
  assert (Hb : ParticlesShaders.below (Particles.shaderConstants w h) pos
               = true) by now apply below_true.
  assert (Hacc : forall d a,
             ParticlesShaders.accelerate (Particles.shaderConstants w h)
               d a pos vel
             = Vec2 (0.1 * ParticlesShaders.MAX_SPEED
                             (Particles.shaderConstants w h)
                     * (2 * ParticlesShaders.random (vscale 100 pos) - 1))
                    (ParticlesShaders.random (vadd pos vel))).
  { intros d a. unfold ParticlesShaders.accelerate. now rewrite Hb. }
  rewrite Hacc. cbn [vx vy].
  pose proof (random_range (vscale 100 pos)) as Hr1.
  pose proof (random_range (vadd pos vel)) as Hr2.
  pose proof (MAX_SPEED_nonneg w h) as Hm.
  split; [reflexivity |]. split; [apply Rabs_le; split; nra |].
  split; [exact Hr2 |]. intros d a. apply Hacc.
Qed.

Lemma reinjected_velocity_witness :
  vy Scenario.deepPos < - 0.5 * INR 512 /\
  0 <= vy (ParticlesShaders.accelerate Scenario.K512 0.016 Scenario.gravity
             Scenario.deepPos Scenario.deepVel) < 1.
Proof.
  assert (Hy : vy Scenario.deepPos < - 0.5 * INR 512).
  { unfold Scenario.deepPos. cbn [vy]. rewrite INR_512. lra. }
  split; [exact Hy |].
  exact (proj1 (proj2 (proj2 (reinjected_velocity 512 512 0.016
                                Scenario.gravity Scenario.deepPos
                                Scenario.deepVel Hy)))).
Defined.

(** ** The shape of the blur kernel *)

Lemma blurFrag_no_overshoot_witness :
  (1 <= 9)%nat /\
  FluidifyShaders.withinRange 0 1
    (FluidifyShaders.blurFrag 9 (fun _ => Vec4 0.5 0.5 0.5 1)
       (Vec2 (1 / 512) 0) (Fluidify.setKernelSize 9) (Vec2 0.5 0.5)).
Proof.
  assert (Hk : (1 <= 9)%nat) by lia.
  split; [exact Hk |].
  apply (blurFrag_no_overshoot 9 (fun _ => Vec4 0.5 0.5 0.5 1)
           (Vec2 (1 / 512) 0) (Vec2 0.5 0.5) 0 1 Hk).
  intro uv. unfold FluidifyShaders.withinRange. cbn [cr cg cb ca].
  repeat split; lra.
Defined.

Lemma samplePoint_mirror (kernelSize i : nat) :
  (i <= kernelSize)%nat -> (0 < kernelSize)%nat ->
  Fluidify.samplePoint kernelSize (kernelSize - i)
  = - Fluidify.samplePoint kernelSize i.
Proof.
  intros Hi Hk. unfold Fluidify.samplePoint. rewrite minus_INR by exact Hi.
  assert (0 < INR kernelSize) by (apply lt_0_INR; exact Hk).
  field. lra.
Qed.

Lemma kernelFunction_even (x : R) :
  Fluidify.kernelFunction (- x) = Fluidify.kernelFunction x.
Proof. unfold Fluidify.kernelFunction. f_equal. ring. Qed.

Lemma kernelFunction_inner (x : R) :
  - 1 < x < 1 -> Fluidify.kernelFunction (- 1) < Fluidify.kernelFunction x.
Proof.
  intros [Hlo Hhi]. unfold Fluidify.kernelFunction. apply exp_increasing. nra.
Qed.

(** X13.  The kernel of [setKernelSize] is symmetric about the index
    [kernelSize / 2] taken as a real number: the weights of the indices [i]
    and [kernelSize - i] are equal.  The weight of index 0 has no mirror
    and is strictly the least; every weight is positive. *)
Theorem kernel_symmetry (kernelSize i : nat) :
  (0 < i < kernelSize)%nat ->
  nth i (Fluidify.setKernelSize kernelSize) 0
  = nth (kernelSize - i) (Fluidify.setKernelSize kernelSize) 0 /\
  0 < nth 0 (Fluidify.setKernelSize kernelSize) 0 /\
  nth 0 (Fluidify.setKernelSize kernelSize) 0
  < nth i (Fluidify.setKernelSize kernelSize) 0.
Proof.
  intros [Hi0 Hik].
  assert (Hk : (1 <= kernelSize)%nat) by lia.
  destruct (kernel_sum_positive kernelSize Hk) as [Htotal _].
  rewrite !setKernelSize_nth by lia.
  rewrite samplePoint_mirror by lia. rewrite kernelFunction_even.
  split; [reflexivity |].
  assert (Hinv : 0 < / snd (Fluidify.rawKernel kernelSize))
    by now apply Rinv_0_lt_compat.
  split.
  - apply Rdiv_lt_0_compat; [apply kernelFunction_pos | exact Htotal].
  - unfold Rdiv. apply Rmult_lt_compat_r; [exact Hinv |].
    replace (Fluidify.samplePoint kernelSize 0) with (- 1).
    + apply kernelFunction_inner.
      unfold Fluidify.samplePoint.
      assert (H0 : 0 < INR i) by (apply lt_0_INR; lia).
      assert (H1 : INR i < INR kernelSize) by (apply lt_INR; lia).
      assert (Hq : 0 < INR i / INR kernelSize < 1).
      { split.
        - apply Rdiv_lt_0_compat; lra.
        - apply Rmult_lt_reg_r with (INR kernelSize); [lra |].
          unfold Rdiv. rewrite Rmult_assoc, Rinv_l by lra. lra. }
      unfold Rdiv in *. rewrite Rmult_assoc. lra.
    + unfold Fluidify.samplePoint. cbn [INR]. unfold Rdiv. ring.
Qed.

Lemma kernel_symmetry_witness :
  (0 < 4 < 9)%nat /\
  nth 4 (Fluidify.setKernelSize 9) 0 = nth 5 (Fluidify.setKernelSize 9) 0.
Proof.
  assert (H : (0 < 4 < 9)%nat) by lia.
  split; [exact H |].
  exact (proj1 (kernel_symmetry 9 4 H)).
Defined.

(** ** The highlight of the display shader *)

Lemma smoothstep_below (e0 e1 x : R) :
  e0 < e1 -> x <= e0 -> smoothstep e0 e1 x = 0.
Proof.
  intros He Hx. unfold smoothstep, clamp.
  assert (Hq : (x - e0) / (e1 - e0) <= 0).
  { unfold Rdiv. assert (0 < / (e1 - e0)) by (apply Rinv_0_lt_compat; lra).
    nra. }
  rewrite Rmax_right by exact Hq. rewrite Rmin_left by lra. ring.
Qed.

Lemma smoothstep_unit (e0 e1 x : R) : 0 <= smoothstep e0 e1 x <= 1.
Proof.
  unfold smoothstep.
  pose proof (clamp_unit ((x - e0) / (e1 - e0))) as Ht.
  set (t := clamp _ 0 1) in *.
  assert (0 <= t * t) by nra.
  assert (0 <= (1 - t) * (1 - t)) by nra.
  split; nra.
Qed.

Lemma pow_zero (y : R) : pow 0 y = 0.
Proof. unfold pow. destruct (Req_dec_T 0 0); [reflexivity | contradiction]. Qed.

Lemma v4add_zero (c : vec4) : v4add c v4zero = c.
Proof. destruct c. unfold v4add, v4zero. cbn [cr cg cb ca]. f_equal; ring. Qed.

(** The normal of the display shader never points away from the viewer, so
    it is at an obtuse angle with the light direction wherever the level
    does not fall along the diagonal. *)
Lemma normal_against_light (dFdx_level dFdy_level : R) :
  0 <= dFdx_level + dFdy_level ->
  dot3 (normalize3 (cross (Vec3 (1 / 512) 0 dFdx_level)
                          (Vec3 0 (1 / 512) dFdy_level)))
       (Vec3 0.73 0.73 (- 0.73)) <= 0.
Proof.
  intro Hd. unfold normalize3, dot3 at 1. cbn [x3 y3 z3].
  set (c := cross _ _).
  assert (Hz : z3 c = 1 / 512 * (1 / 512)) by (unfold c, cross; cbn; ring).
  assert (Hxy : x3 c + y3 c = - (dFdx_level + dFdy_level) / 512)
    by (unfold c, cross; cbn; field).
  assert (Hlen : 0 < length3 c).
  { unfold length3. apply sqrt_lt_R0. unfold dot3. rewrite Hz. nra. }
  assert (Hinv : 0 < / length3 c) by now apply Rinv_0_lt_compat.
  assert (Hsum : x3 c / length3 c + y3 c / length3 c - z3 c / length3 c
                 <= 0).
  { replace (x3 c / length3 c + y3 c / length3 c - z3 c / length3 c)
      with ((x3 c + y3 c - z3 c) * / length3 c) by (unfold Rdiv; ring).
    rewrite Hxy, Hz.
    assert (- (dFdx_level + dFdy_level) / 512 - 1 / 512 * (1 / 512) <= 0)
      by lra.
    nra. }
  set (X := x3 c / length3 c) in *. set (Y := y3 c / length3 c) in *.
  set (Z := z3 c / length3 c) in *. lra.
Qed.

(** X16.  Where the level of the fluid does not fall along the diagonal (the sum
    of its two screen-space derivatives is not negative), for instance
    where it is flat, the display shader adds no highlight: the option
    [uSpecular] changes nothing, and without [uShowNormals] the pixel is
    the blurred texel, or nothing below the threshold. *)
Theorem displayFrag_no_highlight (texel : vec4) (uThreshold : R)
    (uShowNormals : bool) (dFdx_level dFdy_level : R) :
  0 <= dFdx_level + dFdy_level ->
  FluidifyShaders.displayFrag texel uThreshold uShowNormals true
    dFdx_level dFdy_level
  = FluidifyShaders.displayFrag texel uThreshold uShowNormals false
      dFdx_level dFdy_level /\
  FluidifyShaders.displayFrag texel uThreshold false true
    dFdx_level dFdy_level
  = v4scale (step uThreshold (ca texel)) texel.
Proof.
  intro Hd. pose proof (normal_against_light dFdx_level dFdy_level Hd) as Hn.
  unfold FluidifyShaders.displayFrag. cbv zeta.
  rewrite smoothstep_below by lra. rewrite pow_zero, v4scale_zero.
  split; [reflexivity |]. now rewrite v4add_zero.
Qed.

Lemma displayFrag_no_highlight_witness :
  0 <= 0 + 0 /\
  FluidifyShaders.displayFrag (Vec4 0.2 0.4 0.8 0.75) 0.5 false true 0 0
  = v4scale (step 0.5 0.75) (Vec4 0.2 0.4 0.8 0.75).
Proof.
  assert (H : 0 <= 0 + 0) by lra.
  split; [exact H |].
  exact (proj2 (displayFrag_no_highlight (Vec4 0.2 0.4 0.8 0.75) 0.5 false
                  0 0 H)).
Defined.

(** ** Drawing the particles *)

Lemma clip_coordinate (x W : R) :
  0 < W -> (- 1 <= 2 * x / W <= 1 <-> Rabs x <= 0.5 * W).
Proof.
  intro HW. assert (Hinv : 0 < / W) by now apply Rinv_0_lt_compat.
  assert (Hq : 2 * x / W * W = 2 * x) by (field; lra).
  set (q := 2 * x / W) in *.
  split.
  - intros [Hlo Hhi]. apply Rabs_le. split; nra.
  - intro Habs. apply Rabs_le_inv in Habs. split; nra.
Qed.

(** X12.  A particle whose speed is at most [MAX_SPEED] is kept by the clipping
    stage exactly when its position is in the world rectangle (the position
    band is wider: the particles beyond the rectangle are simulated but not
    drawn).  Its depth is between 0 and 0.9, and its colour is opaque with
    every channel between 0 and 1. *)
Theorem drawVert_in_view (w h : nat) (uPointSize : R) (aPos aVel : vec2) :
  (0 < w)%nat -> (0 < h)%nat ->
  length aVel <= ParticlesShaders.MAX_SPEED (Particles.shaderConstants w h) ->
  let v := ParticlesDraw.drawVert (Particles.shaderConstants w h) uPointSize
             aPos aVel in
  (ParticlesDraw.inClipVolume (ParticlesDraw.gl_Position v) <->
   Rabs (vx aPos) <= 0.5 * INR w /\ Rabs (vy aPos) <= 0.5 * INR h) /\
  0 <= cb (ParticlesDraw.gl_Position v) <= 0.9 /\
  FluidifyShaders.withinRange 0 1 (ParticlesDraw.color v) /\
  ca (ParticlesDraw.color v) = 1.
Proof.
  intros Hw Hh Hspeed. cbv zeta.
  assert (HW : 0 < INR w) by (apply lt_0_INR; exact Hw).
  assert (HH : 0 < INR h) by (apply lt_0_INR; exact Hh).
  assert (HM : 0 < ParticlesShaders.MAX_SPEED (Particles.shaderConstants w h)).
  { rewrite MAX_SPEED_canvas.
    assert (0 < INR (Nat.min w h)) by (apply lt_0_INR; lia). lra. }
  assert (Hrel : 0 <= ParticlesDraw.relativeSpeed
                        (Particles.shaderConstants w h) aVel <= 1).
  { unfold ParticlesDraw.relativeSpeed.
    pose proof (length_nonneg aVel) as Hl.
    assert (Hinv : 0 < / ParticlesShaders.MAX_SPEED
                           (Particles.shaderConstants w h))
      by now apply Rinv_0_lt_compat.
    split.
    - unfold Rdiv. nra.
    - apply Rmult_le_reg_r
        with (ParticlesShaders.MAX_SPEED (Particles.shaderConstants w h));
        [exact HM |].
      unfold Rdiv. rewrite Rmult_assoc, Rinv_l by lra. lra. }
  unfold ParticlesDraw.drawVert, ParticlesDraw.inClipVolume.
  cbn [ParticlesDraw.gl_Position ParticlesDraw.color cr cg cb ca].
  rewrite WORLD_SIZE_canvas. cbn [vx vy].
  set (rs := ParticlesDraw.relativeSpeed _ _) in *.
  pose proof (smoothstep_unit 0 1 rs) as Ht.
  set (t := smoothstep 0 1 rs) in *.
  split; [| split; [| split]].
  - rewrite <- (clip_coordinate (vx aPos) (INR w) HW).
    rewrite <- (clip_coordinate (vy aPos) (INR h) HH).
    split.
    + intros (Hx & Hy & _). split; [split; lra | split; lra].
    + intros [Hx Hy]. split; [split; lra |]. split; [split; lra |].
      split; lra.
  - split; lra.
  - unfold FluidifyShaders.withinRange, v4mix, ParticlesDraw.slowColor,
      ParticlesDraw.fastColor. cbn [cr cg cb ca].
    split; [split; nra |]. split; [split; nra |].
    split; [split; nra | split; nra].
  - unfold v4mix, ParticlesDraw.slowColor, ParticlesDraw.fastColor.
    cbn [ca]. ring.
Qed.

Lemma drawVert_in_view_witness :
  (0 < 512)%nat /\
  length Scenario.slowVel
  <= ParticlesShaders.MAX_SPEED (Particles.shaderConstants 512 512) /\
  0 <= cb (ParticlesDraw.gl_Position
             (ParticlesDraw.drawVert (Particles.shaderConstants 512 512) 3
                Scenario.slowPos Scenario.slowVel)) <= 0.9.
Proof.
  assert (Hn : (0 < 512)%nat) by lia.
  assert (Hs : length Scenario.slowVel
               <= ParticlesShaders.MAX_SPEED
                    (Particles.shaderConstants 512 512)).
  { rewrite MAX_SPEED_canvas.
    replace (Nat.min 512 512) with 512%nat by reflexivity. rewrite INR_512.
    unfold Scenario.slowVel, length, dot. cbn [vx vy].
    replace (3 * 3 + 4 * 4) with (5 * 5) by ring.
    rewrite sqrt_square by lra. lra. }
  split; [exact Hn |]. split; [exact Hs |].
  exact (proj1 (proj2 (drawVert_in_view 512 512 3 Scenario.slowPos
                         Scenario.slowVel Hn Hn Hs))).
Defined.

(** ** The pointer *)

(** X17.  [mouseMove] gives the obstacle map the position of the pointer
    relative to the canvas, with the ordinate upwards: the bottom left corner of the
    canvas is [(0, 0)] and the top right one [(1, 1)], a coordinate is in
    [[0, 1]] exactly when the pointer is over the canvas, and the client
    coordinates are recovered from the result. *)
Theorem pointer_unit_square (c : Controls.canvas) (clientX clientY : R) :
  0 < Controls.clientWidth c -> 0 < Controls.clientHeight c ->
  let p := Controls.pointer c clientX clientY in
  (0 <= vx p <= 1 <->
   Controls.rectLeft c <= clientX
   <= Controls.rectLeft c + Controls.clientWidth c) /\
  (0 <= vy p <= 1 <->
   Controls.rectTop c <= clientY
   <= Controls.rectTop c + Controls.clientHeight c) /\
  Controls.pointer c (Controls.rectLeft c)
    (Controls.rectTop c + Controls.clientHeight c) = Vec2 0 0 /\
  Controls.pointer c (Controls.rectLeft c + Controls.clientWidth c)
    (Controls.rectTop c) = Vec2 1 1 /\
  clientX = Controls.rectLeft c + vx p * Controls.clientWidth c /\
  clientY = Controls.rectTop c + (1 - vy p) * Controls.clientHeight c.
Proof.
  intros HW HH. cbv zeta.
  unfold Controls.pointer, Controls.documentToCanvas. cbn [vx vy].
  destruct c as [l t W H]. cbn [Controls.rectLeft Controls.rectTop
    Controls.clientWidth Controls.clientHeight] in *.
  assert (HiW : 0 < / W) by now apply Rinv_0_lt_compat.
  assert (HiH : 0 < / H) by now apply Rinv_0_lt_compat.
  assert (Hx : (clientX - l) / W * W = clientX - l) by (field; lra).
  assert (Hy : (H - (clientY - t)) / H * H = H - (clientY - t))
    by (field; lra).
  split; [| split; [| split; [| split; [| split]]]].
  - set (q := (clientX - l) / W) in *. split; intros [A B]; split; nra.
  - set (q := (H - (clientY - t)) / H) in *. split; intros [A B]; split; nra.
  - f_equal; field; lra.
  - f_equal; field; lra.
  - lra.
  - lra.
Qed.

Lemma pointer_unit_square_witness :
  0 < Controls.clientWidth Scenario.page /\
  Controls.pointer Scenario.page 0 512 = Vec2 0 0.
Proof.
  assert (H : 0 < Controls.clientWidth Scenario.page)
    by (unfold Scenario.page; cbn; lra).
  assert (H' : 0 < Controls.clientHeight Scenario.page)
    by (unfold Scenario.page; cbn; lra).
  split; [exact H |].
  pose proof (proj1 (proj2 (proj2 (pointer_unit_square Scenario.page 0 0
                                     H H')))) as Hp.
  unfold Scenario.page in *.
  cbn [Controls.rectLeft Controls.rectTop Controls.clientHeight] in Hp.
  replace 512 with (0 + 512) at 3 by lra. exact Hp.
Defined.

Lemma update_speed_clamp_witness :
  Particles.wellFormed Scenario.started /\
  Forall (fun v => length (snd v)
                   <= ParticlesShaders.MAX_SPEED
                        (Particles._updateShader Scenario.started))
         (Particles.current Scenario.stepped).
Proof.
  assert (Hwf : Particles.wellFormed Scenario.started)
    by apply constructor_wellFormed.
  split; [exact Hwf |].
  exact (update_speed_clamp Scenario.started Scenario.fresh512 0.016 Hwf).
Defined.

(** ** Binding the uniforms *)

Section Uniforms.
Import Shader.

Lemma lookup_In {A : Type} (table : list (Z * A)) (key : Z) (a : A) :
  lookup table key = Some a -> In (key, a) table.
Proof.
  induction table as [| [k b] table IH]; [discriminate |].
  cbn [lookup]. destruct (Z.eqb_spec k key) as [-> | Hne].
  - intros [= ->]. now left.
  - intro H. right. now apply IH.
Qed.

Lemma activeTextures_app (l l' : list call) :
  activeTextures (l ++ l') = activeTextures l ++ activeTextures l'.
Proof. apply flat_map_app. Qed.

Lemma boundTextures_app (l l' : list call) :
  boundTextures (l ++ l') = boundTextures l ++ boundTextures l'.
Proof. apply flat_map_app. Qed.

Lemma types_quiet :
  Forall (fun e => fst e = 0x8B5E%Z \/ fst e = 0x8B60%Z \/ quiet (snd (snd e)))
         types.
Proof.
  unfold types.
  repeat (apply Forall_cons; [| ]); try apply Forall_nil; cbn [fst snd];
    try (left; reflexivity); try (right; left; reflexivity);
    right; right; intros location args calls;
    unfold bindUniformFloat, bindUniformInt, bindUniformFloat2v,
      bindUniformFloat3v, bindUniformFloat4v, bindUniformInt2v,
      bindUniformInt3v, bindUniformInt4v, bindUniformBool, bindUniformBool2v,
      bindUniformBool3v, bindUniformBool4v, bindUniformFloatMat2,
      bindUniformFloatMat3, bindUniformFloatMat4, notImplemented;
    try destruct (truthy _); intros [= <-]; split; reflexivity.
Qed.

Lemma isSampler_true (u : uniform) :
  isSampler u = true -> type u = 0x8B5E%Z \/ type u = 0x8B60%Z.
Proof.
  unfold isSampler. rewrite orb_true_iff, !Z.eqb_eq. tauto.
Qed.

Lemma isSampler_false (u : uniform) :
  isSampler u = false -> type u <> 0x8B5E%Z /\ type u <> 0x8B60%Z.
Proof.
  unfold isSampler. rewrite orb_false_iff, !Z.eqb_neq. tauto.
Qed.

Lemma sampler_calls (u : uniform) (entry : String.string * binder)
    (args : list jsval) (calls : list call) :
  isSampler u = true ->
  lookup types (type u) = Some entry ->
  snd entry (loc u) args = inl calls ->
  activeTextures calls = [arg 1 args] /\ boundTextures calls = [arg 2 args].
Proof.
  intros Hs Hl Hc. apply isSampler_true in Hs. destruct Hs as [Ht | Ht];
    rewrite Ht in Hl; cbn in Hl; injection Hl as <-; cbn [snd] in Hc;
    unfold bindSampler2D, bindSamplerCube in Hc; injection Hc as <-;
    split; reflexivity.
Qed.

Lemma plain_calls (u : uniform) (entry : String.string * binder)
    (args : list jsval) (calls : list call) :
  isSampler u = false ->
  lookup types (type u) = Some entry ->
  snd entry (loc u) args = inl calls ->
  activeTextures calls = [] /\ boundTextures calls = [].
Proof.
  intros Hs Hl Hc. apply isSampler_false in Hs. destruct Hs as [H1 H2].
  apply lookup_In in Hl. pose proof types_quiet as Hq.
  rewrite Forall_forall in Hq. specialize (Hq _ Hl). cbn [fst snd] in Hq.
  destruct Hq as [Hq | [Hq | Hq]]; [contradiction | contradiction |].
  exact (Hq _ _ _ Hc).
Qed.

(** The units of the loop started at unit [n]: one for each sampler that
    has a value, in order. *)
Lemma bindLoop_units (u : list (String.string * uniform)) :
  forall (n : nat) (log : list call),
    bindLoop u n = (log, None) ->
    activeTextures log
    = map (fun k => nth k textureUnits Undefined)
          (seq n (List.length (samplers u))) /\
    boundTextures log = samplers u.
Proof.
  induction u as [| [uName uniform] rest IH]; intros n log Hrun.
  - cbn in Hrun. injection Hrun as <-. split; reflexivity.
  - cbn [bindLoop] in Hrun. unfold samplers. cbn [filter snd].
    destruct (valueExists uniform) eqn:Hv; cbn [andb].
    + destruct (lookup types (type uniform)) as [entry |] eqn:Hl;
        [| discriminate].
      destruct (snd entry (loc uniform) _) as [calls | e] eqn:Hc;
        [| discriminate].
      destruct (bindLoop rest _) as [log' e'] eqn:Hrest.
      injection Hrun as <- ->.
      rewrite activeTextures_app, boundTextures_app.
      destruct (isSampler uniform) eqn:Hs.
      * destruct (sampler_calls _ _ _ _ Hs Hl Hc) as [-> ->].
        destruct (IH _ _ Hrest) as [-> ->].
        cbn [map List.length seq arg nth app]. split; reflexivity.
      * destruct (plain_calls _ _ _ _ Hs Hl Hc) as [-> ->].
        destruct (IH _ _ Hrest) as [-> ->]. split; reflexivity.
    + exact (IH _ _ Hrun).
Qed.

Lemma textureUnits_nth (k : nat) :
  (k < 10)%nat ->
  nth k textureUnits Undefined = Number (IZR (TEXTURE0 + Z.of_nat k)).
Proof.
  intro Hk.
  do 10 (destruct k as [| k]; [reflexivity |]). lia.
Qed.

Lemma NoDup_map_injective {A B : Type} (f : A -> B) (l : list A) :
  (forall x y, In x l -> In y l -> f x = f y -> x = y) ->
  NoDup l -> NoDup (map f l).
Proof.
  intros Hinj Hnd. induction Hnd as [| a l Hnotin Hnd IH]; cbn [map].
  - constructor.
  - constructor.
    + intro Hin. apply in_map_iff in Hin. destruct Hin as (y & Heq & Hy).
      assert (y = a) by (apply Hinj; [now right | now left | exact Heq]).
      subst. contradiction.
    + apply IH. intros x y Hx Hy. apply Hinj; now right.
Qed.

End Uniforms.

(** X18.  When [bindUniforms] runs to its end, the samplers that were given a
    texture are bound to the texture units [TEXTURE0], [TEXTURE0 + 1], ...
    in the order of the uniforms, a sampler without a value taking none;
    with at most ten of them no two share a unit. *)
Theorem bindUniforms_texture_units
    (u : list (String.string * Shader.uniform)) (log : list Shader.call) :
  Shader.bindUniforms u = (log, None) ->
  (List.length (Shader.samplers u) <= 10)%nat ->
  Shader.activeTextures log
  = map (fun k => Shader.Number (IZR (Shader.TEXTURE0 + Z.of_nat k)))
        (seq 0 (List.length (Shader.samplers u))) /\
  Shader.boundTextures log = Shader.samplers u /\
  NoDup (Shader.activeTextures log).
Proof.
  intros Hrun Hten. unfold Shader.bindUniforms in Hrun.
  destruct (bindLoop_units u 0 log Hrun) as [Hunits Htex].
  assert (Heq : Shader.activeTextures log
                = map (fun k => Shader.Number
                                  (IZR (Shader.TEXTURE0 + Z.of_nat k)))
                      (seq 0 (List.length (Shader.samplers u)))).
  { rewrite Hunits. apply map_ext_in. intros k Hin. apply in_seq in Hin.
    apply textureUnits_nth. lia. }
  split; [exact Heq |]. split; [exact Htex |].
  rewrite Heq. apply NoDup_map_injective; [| apply seq_NoDup].
  intros x y _ _ Hxy.
  apply (f_equal (fun v => match v with Shader.Number r => r | _ => 0 end))
    in Hxy.
  change (IZR (Shader.TEXTURE0 + Z.of_nat x)
          = IZR (Shader.TEXTURE0 + Z.of_nat y)) in Hxy.
  apply eq_IZR in Hxy. lia.
Qed.

Lemma bindUniforms_texture_units_witness :
  (List.length (Shader.samplers Scenario.blurUniforms) <= 10)%nat /\
  Shader.boundTextures (fst (Shader.bindUniforms Scenario.blurUniforms))
  = [Shader.WebGLTexture 1; Shader.WebGLTexture 2].
Proof.
  assert (Hten : (List.length (Shader.samplers Scenario.blurUniforms)
                  <= 10)%nat) by (cbn; lia).
  assert (Hrun : Shader.bindUniforms Scenario.blurUniforms
                 = (fst (Shader.bindUniforms Scenario.blurUniforms), None))
    by reflexivity.
  split; [exact Hten |].
  exact (proj1 (proj2 (bindUniforms_texture_units Scenario.blurUniforms _
                         Hrun Hten))).
Defined.

(** X19.  A program with a matrix uniform that was given a value cannot be
    bound: whatever the other uniforms, [bindUniforms] ends with an
    exception. *)
Theorem bindUniforms_matrix_raises
    (before after : list (String.string * Shader.uniform))
    (uName : String.string) (m : Shader.uniform) :
  Shader.type m = 0x8B5A%Z \/ Shader.type m = 0x8B5B%Z \/
  Shader.type m = 0x8B5C%Z ->
  Shader.valueExists m = true ->
  exists e,
    snd (Shader.bindUniforms (before ++ (uName, m) :: after)) = Some e.
Proof.
  intros Ht Hv. unfold Shader.bindUniforms. generalize 0%nat.
  induction before as [| [name u] before IH]; intro n.
  - cbn [app Shader.bindLoop]. rewrite Hv.
    destruct Ht as [Ht | [Ht | Ht]]; rewrite Ht; cbn;
      exists Shader.ReferenceError; reflexivity.
  - cbn [app Shader.bindLoop].
    destruct (Shader.valueExists u); [| apply IH].
    destruct (Shader.lookup Shader.types (Shader.type u)) as [entry |];
      [| exists Shader.TypeError; reflexivity].
    destruct (snd entry _ _) as [calls | e]; [| exists e; reflexivity].
    destruct (IH (if Shader.isSampler u then S n else n)) as [e He].
    destruct (Shader.bindLoop _ _) as [log' e']. cbn [snd] in *.
    exists e. exact He.
Qed.

Lemma bindUniforms_matrix_raises_witness :
  Shader.valueExists (Shader.Uniform 3 1 0x8B5C (Shader.Array [1; 0; 0; 1]))
  = true /\
  exists e,
    snd (Shader.bindUniforms
           (Scenario.blurUniforms
            ++ (Scenario.uUnusedName,
                Shader.Uniform 3 1 0x8B5C (Shader.Array [1; 0; 0; 1]))
               :: [])) = Some e.
Proof.
  assert (Hv : Shader.valueExists
                 (Shader.Uniform 3 1 0x8B5C (Shader.Array [1; 0; 0; 1]))
               = true) by reflexivity.
  split; [exact Hv |].
  apply (bindUniforms_matrix_raises Scenario.blurUniforms []
           Scenario.uUnusedName
           (Shader.Uniform 3 1 0x8B5C (Shader.Array [1; 0; 0; 1]))).
  - right; right; reflexivity.
  - exact Hv.
Defined.

(** ** The brush quad under a snapping rasteriser *)













